(** * Digital warranty and repair ticketing system: ticket lifecycle

    A shallow embedding of the ticket lifecycle of the Flask application
    (models.py, forms.py, routes/customer.py, routes/technician.py,
    routes/admin.py) and the properties of its specification.

    Conventions of the embedding.
    - The database is a record of tables; tables with an integer primary
      key are finite maps from the key to the row.
    - A request handler is a function from the request's inputs (the
      logged-in user, the URL parameters, the submitted form, the clock,
      the generated ticket number) and the committed database to an
      [Outcome] and the database after the request.  The SQLAlchemy
      session is request scoped: what a handler changes on a loaded row
      reaches the database at [db.session.commit()] only, and a handler
      that returns before the commit leaves the database as it was.
    - [datetime] values are counted in microseconds, the resolution of
      Python's [datetime]. *)

From Stdlib Require Import ZArith QArith Bool String Ascii List Sorting.Sorted.
From stdpp Require Import base option list gmap sorting.
Import ListNotations.

Local Open Scope string_scope.
Local Open Scope Z_scope.

(** ** Time: [datetime] and [timedelta] *)

Module Clock.

(** Microseconds since 0001-01-01T00:00:00, the ordinal that Python's
    naive [datetime] compares by. *)
Definition datetime := Z.
(** A [timedelta], in microseconds. *)
Definition timedelta := Z.

Definition day_us : Z := 86400000000.

(** [timedelta(days=n)] *)
Definition timedelta_days (n : Z) : timedelta := n * day_us.

(** [td.days]: Python keeps a timedelta normalised with
    [0 <= seconds < 86400] and [0 <= microseconds < 10^6], so [days]
    is the floor of the quotient (negative for a negative delta). *)
Definition days (td : timedelta) : Z := td / day_us.

(** [datetime.max] is 9999-12-31T23:59:59.999999, whose date has
    proleptic ordinal 3652059. *)
Definition datetime_max : datetime := 3652059 * day_us - 1.

(** [dt + td]; Python raises [OverflowError] outside
    [datetime.min .. datetime.max]. *)
Definition datetime_add (dt : datetime) (td : timedelta) : option datetime :=
  let r := dt + td in
  if (0 <=? r) && (r <=? datetime_max) then Some r else None.

End Clock.
Import Clock.

(** ** Enumerated columns

    [role], [status] and [priority] are string columns whose values are
    the ones listed in models.py; a row holds the label, a form submits
    the label, and a [SelectField] accepts a submitted label only when
    it is one of its choices. *)

Inductive Role := Customer | Technician | Admin.

Inductive Status :=
  Open | InProgress | WaitingForParts | Completed | Closed | Rejected.

Inductive Priority := Low | Medium | High | Urgent.

Inductive RepairType := Warranty | Paid.

Global Instance Role_eq_dec : EqDecision Role.
Proof. solve_decision. Defined.
Global Instance Status_eq_dec : EqDecision Status.
Proof. solve_decision. Defined.
Global Instance Priority_eq_dec : EqDecision Priority.
Proof. solve_decision. Defined.
Global Instance RepairType_eq_dec : EqDecision RepairType.
Proof. solve_decision. Defined.

Definition status_label (s : Status) : string :=
  match s with
  | Open => "open"
  | InProgress => "in_progress"
  | WaitingForParts => "waiting_for_parts"
  | Completed => "completed"
  | Closed => "closed"
  | Rejected => "rejected"
  end.

Definition priority_label (p : Priority) : string :=
  match p with
  | Low => "low"
  | Medium => "medium"
  | High => "high"
  | Urgent => "urgent"
  end.

Definition repair_type_label (r : RepairType) : string :=
  match r with
  | Warranty => "warranty"
  | Paid => "paid"
  end.

(** The first choice whose label is the submitted value, as the
    [SelectField] validation finds it. *)
Definition select_choice {A} (label : A -> string) (choices : list A)
    (raw : string) : option A :=
  List.find (fun c => String.eqb (label c) raw) choices.

(** forms.py, [TicketStatusForm.status] *)
Definition status_choices : list Status :=
  [Open; InProgress; WaitingForParts; Completed; Closed; Rejected].

(** forms.py, [TicketForm.priority] *)
Definition priority_choices : list Priority := [Low; Medium; High; Urgent].

(** forms.py, [TicketForm.repair_type] *)
Definition repair_type_choices : list RepairType := [Warranty; Paid].

(** ** Rows (models.py)

    The primary key of a product or a ticket is the key of its table
    in [DB]; columns that no handler below reads (password hash, email,
    images, repair duration and the like) are left out. *)

Record User := {
  user_id : nat;
  username : string;
  full_name : string;
  role : Role;
  is_active : bool;
  user_is_deleted : bool
}.

Definition is_technician (u : User) : bool := bool_decide (role u = Technician).
Definition is_admin (u : User) : bool := bool_decide (role u = Admin).
Definition is_customer (u : User) : bool := bool_decide (role u = Customer).

Record Product := {
  product_name : string;
  brand : string;
  category : string;
  serial_number : string;
  purchase_date : datetime;
  warranty_months : Z;
  warranty_expiry : datetime;
  product_is_deleted : bool;
  product_user_id : nat
}.

Record Ticket := {
  ticket_number : string;
  product_id : nat;
  customer_id : nat;
  technician_id : option nat;
  issue_description : string;
  status : Status;
  priority : Priority;
  repair_cost : option Q;
  is_warranty_covered : bool;
  is_paid : bool;
  is_deleted : bool;
  created_at : datetime;
  updated_at : datetime
}.

Record RepairNote := {
  note_ticket_id : nat;
  note_user_id : nat;
  note_text : string;
  note_created_at : datetime
}.

Record Feedback := {
  feedback_ticket_id : nat;
  feedback_user_id : nat;
  rating : Z;
  comment : string;
  feedback_created_at : datetime
}.

(** The [changes] column of an activity entry is a formatted sentence;
    the embedding keeps the values that the sentence is formatted from. *)
Inductive Changes :=
  | StatusChanged (old_status new_status : Status)
      (* f'Status changed from {old_status} to {form.status.data}' *)
  | AssignedTo (technician : nat)
      (* f'Assigned to technician {ticket.technician_id}' *)
  | CustomerPaid (amount : option Q) (upi_id : string).
      (* f'Customer paid amount={ticket.repair_cost} via {form.upi_id.data}' *)

Record ActivityLog := {
  log_user_id : nat;
  action : string;
  resource_type : string;
  resource_id : nat;
  changes : Changes;
  log_created_at : datetime
}.

(** ** Warranty calculator (models.py, [Product]) *)

(** [Product.warranty_status].  The property reads the clock twice:
    [now] is the first reading, [now'] the second. *)
Definition warranty_status (p : Product) (now now' : datetime) : string :=
  if product_is_deleted p then "deleted"
  else if warranty_expiry p <? now then "expired"
  else
    let days_remaining := days (warranty_expiry p - now') in
    if days_remaining <? 30 then "expiring_soon" else "active".

(** The status at one instant: both readings of the clock are [now]. *)
Definition warranty_status_at (p : Product) (now : datetime) : string :=
  warranty_status p now now.

(** [Product.days_remaining] *)
Definition days_remaining (p : Product) (now now' : datetime) : Z :=
  if warranty_expiry p <? now then 0 else days (warranty_expiry p - now').

(** The expiry that [add_product] and [edit_product] store:
    [form.purchase_date.data + timedelta(days=30*form.warranty_months.data)] *)
Definition compute_expiry (purchase : datetime) (months : Z) : option datetime :=
  datetime_add purchase (timedelta_days (30 * months)).

(** ** The database *)

Record DB := {
  users : list User;
  products : gmap nat Product;
  tickets : gmap nat Ticket;
  repair_notes : list RepairNote;
  feedback : list Feedback;
  activity_logs : list ActivityLog
}.

(** The key that an insert into a table with an integer primary key
    gets: one more than the largest key in use, 1 in an empty table. *)
Definition next_id {A} (table : gmap nat A) : nat :=
  S (max_list (elements (dom table))).

(** The rows of a table with their keys, by ascending primary key. *)
Definition key_le {A} (r1 r2 : nat * A) : Prop := (r1.1 <= r2.1)%nat.

Global Instance key_le_dec {A} (r1 r2 : nat * A) : Decision (key_le r1 r2).
Proof. unfold key_le. apply _. Defined.

Definition rows {A} (table : gmap nat A) : list (nat * A) :=
  merge_sort key_le (map_to_list table).

Definition with_tickets (tbl : gmap nat Ticket) (db : DB) : DB :=
  {| users := users db; products := products db; tickets := tbl;
     repair_notes := repair_notes db; feedback := feedback db;
     activity_logs := activity_logs db |}.

Definition with_products (tbl : gmap nat Product) (db : DB) : DB :=
  {| users := users db; products := tbl; tickets := tickets db;
     repair_notes := repair_notes db; feedback := feedback db;
     activity_logs := activity_logs db |}.

(** [db.session.add(activity)] *)
Definition add_activity (a : ActivityLog) (db : DB) : DB :=
  {| users := users db; products := products db; tickets := tickets db;
     repair_notes := repair_notes db; feedback := feedback db;
     activity_logs := activity_logs db ++ [a] |}.

(** [db.session.add(note)] *)
Definition add_repair_note (n : RepairNote) (db : DB) : DB :=
  {| users := users db; products := products db; tickets := tickets db;
     repair_notes := repair_notes db ++ [n]; feedback := feedback db;
     activity_logs := activity_logs db |}.

(** [db.session.add(feedback)] *)
Definition add_feedback_row (f : Feedback) (db : DB) : DB :=
  {| users := users db; products := products db; tickets := tickets db;
     repair_notes := repair_notes db; feedback := feedback db ++ [f];
     activity_logs := activity_logs db |}.

(** Writing back the loaded ticket row [ticket_id] whose columns were
    assigned. *)
Definition save_ticket (ticket_id : nat) (t : Ticket) (db : DB) : DB :=
  with_tickets (<[ticket_id := t]> (tickets db)) db.

(** *** Column assignments on a loaded ticket *)

Definition set_status (s : Status) (t : Ticket) : Ticket :=
  {| ticket_number := ticket_number t;
     product_id := product_id t; customer_id := customer_id t;
     technician_id := technician_id t;
     issue_description := issue_description t;
     status := s; priority := priority t; repair_cost := repair_cost t;
     is_warranty_covered := is_warranty_covered t; is_paid := is_paid t;
     is_deleted := is_deleted t; created_at := created_at t;
     updated_at := updated_at t |}.

Definition set_repair_cost (c : option Q) (t : Ticket) : Ticket :=
  {| ticket_number := ticket_number t;
     product_id := product_id t; customer_id := customer_id t;
     technician_id := technician_id t;
     issue_description := issue_description t;
     status := status t; priority := priority t; repair_cost := c;
     is_warranty_covered := is_warranty_covered t; is_paid := is_paid t;
     is_deleted := is_deleted t; created_at := created_at t;
     updated_at := updated_at t |}.

Definition set_updated_at (d : datetime) (t : Ticket) : Ticket :=
  {| ticket_number := ticket_number t;
     product_id := product_id t; customer_id := customer_id t;
     technician_id := technician_id t;
     issue_description := issue_description t;
     status := status t; priority := priority t;
     repair_cost := repair_cost t;
     is_warranty_covered := is_warranty_covered t; is_paid := is_paid t;
     is_deleted := is_deleted t; created_at := created_at t;
     updated_at := d |}.

Definition set_technician_id (tech : option nat) (t : Ticket) : Ticket :=
  {| ticket_number := ticket_number t;
     product_id := product_id t; customer_id := customer_id t;
     technician_id := tech;
     issue_description := issue_description t;
     status := status t; priority := priority t;
     repair_cost := repair_cost t;
     is_warranty_covered := is_warranty_covered t; is_paid := is_paid t;
     is_deleted := is_deleted t; created_at := created_at t;
     updated_at := updated_at t |}.

Definition set_is_paid (b : bool) (t : Ticket) : Ticket :=
  {| ticket_number := ticket_number t;
     product_id := product_id t; customer_id := customer_id t;
     technician_id := technician_id t;
     issue_description := issue_description t;
     status := status t; priority := priority t;
     repair_cost := repair_cost t;
     is_warranty_covered := is_warranty_covered t; is_paid := b;
     is_deleted := is_deleted t; created_at := created_at t;
     updated_at := updated_at t |}.

(** ** Requests and their outcomes *)

(** [current_user]: the anonymous user, or the row that the user loader
    fetched for the session. *)
Inductive CurrentUser :=
  | Anonymous
  | LoggedIn (u : User).

(** The method of the request and, for a POST, the submitted form. *)
Inductive Request (F : Type) :=
  | GET
  | POST (form : F).
Arguments GET {F}.
Arguments POST {F} form.

(** What a handler answers.  The handlers flash a message and redirect
    or render; each answer of the code is named here after the error
    class of the specification, with the message it flashes. *)
Inductive Outcome :=
  | Success            (* committed; flash category 'success' *)
  | Created (id : nat) (* committed; the new row's key *)
  | Rendered           (* the page with the form, nothing committed *)
  | LoginRequired      (* [login_required] sends to the login page *)
  | Forbidden          (* 'Access denied', 'Admin access required',
                          'Invalid product selected', or the redirect of
                          a role to its own dashboard *)
  | NotFound           (* [get_or_404], 'Ticket not found' *)
  | InvalidTransition  (* 'Cannot modify a completed ticket.' *)
  | MissingRepairCost  (* 'Please set the repair cost before marking the
                          ticket as completed for paid repairs.' *)
  | InvalidState       (* 'Payment is only available after repair is
                          completed.', 'Can only add feedback to
                          completed tickets' *)
  | NotApplicable      (* 'This ticket is covered by warranty. No
                          payment required.' *)
  | AlreadyPaid        (* 'Payment already processed for this ticket.' *)
  | AlreadyExists      (* 'Feedback already exists for this ticket' *)
  | PolicyViolation    (* 'This product warranty has expired. Please
                          select "Paid Repair" option.' *)
  | RolledBack.        (* an exception in the [try] block:
                          [db.session.rollback()] and an error flash *)

Global Instance Outcome_eq_dec : EqDecision Outcome.
Proof. solve_decision. Defined.

Definition Handler := CurrentUser -> DB -> Outcome * DB.

(** *** The decorators *)

(** [current_user.is_authenticated].  [User] inherits it from
    flask_login's [UserMixin], where it is [self.is_active]; [User]
    declares [is_active] as a column, so for a loaded row the test reads
    that column: a deactivated account is not authenticated. *)
Definition is_authenticated (current_user : CurrentUser) : bool :=
  match current_user with
  | Anonymous => false
  | LoggedIn u => is_active u
  end.

(** flask_login's [login_required]: a user that is not authenticated
    is sent to the login page. *)
Definition login_required (f : Handler) : Handler :=
  fun current_user db =>
    if is_authenticated current_user then f current_user db
    else (LoginRequired, db).

(** routes/customer.py, [customer_required] *)
Definition customer_required (f : User -> DB -> Outcome * DB) : Handler :=
  fun current_user db =>
    match current_user with
    | Anonymous => (Forbidden, db)
    | LoggedIn u =>
        if negb (is_authenticated current_user) || user_is_deleted u
        then (Forbidden, db)
        else if is_admin u then (Forbidden, db)
        else if is_technician u then (Forbidden, db)
        else f u db
    end.

(** routes/technician.py, [technician_required] *)
Definition technician_required (f : User -> DB -> Outcome * DB) : Handler :=
  fun current_user db =>
    match current_user with
    | Anonymous => (Forbidden, db)
    | LoggedIn u =>
        if negb (is_authenticated current_user) || user_is_deleted u
        then (Forbidden, db)
        else if negb (is_technician u) && negb (is_admin u) then (Forbidden, db)
        else f u db
    end.

(** routes/admin.py, [admin_required] *)
Definition admin_required (f : User -> DB -> Outcome * DB) : Handler :=
  fun current_user db =>
    match current_user with
    | Anonymous => (Forbidden, db)
    | LoggedIn u =>
        if negb (is_authenticated current_user) || user_is_deleted u
        then (Forbidden, db)
        else if negb (is_admin u) then (Forbidden, db)
        else f u db
    end.

(** ** Forms (forms.py)

    A form holds the submitted values; [validate_*] is what
    [form.validate_on_submit()] accepts on a POST, and gives the coerced
    data that the handler then reads from [form.<field>.data]. *)

Module Forms.

Definition is_none {A} (o : option A) : bool :=
  match o with None => true | Some _ => false end.

(** A character of a [string] stands for the code point of its number,
    so that a [string] is a text of code points below 256 and
    [String.length] is Python's [len].  [is_space] is [str.isspace] on
    these code points, the characters that [str.strip()] removes: tab
    to carriage return (9-13), the separators 28-31, the space (32),
    next line (133, U+0085) and the no-break space (160, U+00A0). *)
Definition is_space (c : ascii) : bool :=
  let n := N_of_ascii c in
  (((9 <=? n) && (n <=? 13)) || ((28 <=? n) && (n <=? 32))
   || (n =? 133) || (n =? 160))%N.

Definition is_blank (s : string) : bool :=
  forallb is_space (list_ascii_of_string s).

(** [DataRequired()] on a text field: [field.data] non-empty once
    stripped. *)
Definition data_required (s : string) : bool := negb (is_blank s).

(** [Length(min=lo)] and [Length(min=lo, max=hi)] *)
Definition length_min (lo : nat) (s : string) : bool :=
  (lo <=? String.length s)%nat.
Definition length_between (lo hi : nat) (s : string) : bool :=
  (lo <=? String.length s)%nat && (String.length s <=? hi)%nat.

(** What a [FloatField] receives: nothing, text that is not a number,
    or a number. *)
Inductive FloatInput :=
  | Blank
  | NotANumber
  | Number (x : Q).

(** [FloatField(validators=[Optional(), NumberRange(min=0)])]: a blank
    input passes with data [None]; a number has to be at least 0. *)
Definition validate_optional_cost (i : FloatInput) : option (option Q) :=
  match i with
  | Blank => Some None
  | NotANumber => None
  | Number x => if Qle_bool 0 x then Some (Some x) else None
  end.

(** [TicketStatusForm] *)
Record TicketStatusForm := {
  status_data : string;
  repair_cost_data : FloatInput
}.

Definition validate_ticket_status_form (f : TicketStatusForm)
    : option (Status * option Q) :=
  match select_choice status_label status_choices (status_data f),
        validate_optional_cost (repair_cost_data f) with
  | Some s, Some c => Some (s, c)
  | _, _ => None
  end.

(** [PaymentForm] *)
Record PaymentForm := { upi_id_data : string }.

Definition validate_payment_form (f : PaymentForm) : bool :=
  data_required (upi_id_data f) && length_between 3 100 (upi_id_data f).

(** [AssignTechnicianForm]: a [SelectField] with [coerce=int]; [None]
    stands for a submitted value that is not an integer. *)
Record AssignTechnicianForm := { technician_id_data : option nat }.

(** [DataRequired()] needs a non-zero integer, and the field accepts
    only one of [choices]. *)
Definition validate_select_id (choices : list nat) (data : option nat)
    : option nat :=
  match data with
  | Some n =>
      if negb (n =? 0)%nat && bool_decide (n ∈ choices) then Some n else None
  | None => None
  end.

(** [AddRepairNoteForm] *)
Record AddRepairNoteForm := { note_text_data : string }.

Definition validate_add_repair_note_form (f : AddRepairNoteForm) : bool :=
  data_required (note_text_data f) && length_min 5 (note_text_data f).

(** [FeedbackForm]: the rating is a [SelectField] with [coerce=int]
    over the choices '5' down to '1'. *)
Record FeedbackForm := {
  rating_data : option Z;
  comment_data : string
}.

Definition rating_choices : list Z := [5; 4; 3; 2; 1].

Definition validate_feedback_form (f : FeedbackForm) : option (Z * string) :=
  match rating_data f with
  | Some r =>
      if negb (r =? 0) && bool_decide (r ∈ rating_choices)
         && (is_blank (comment_data f)
             || length_between 0 500 (comment_data f))
      then Some (r, comment_data f) else None
  | None => None
  end.

(** [TicketForm] *)
Record TicketForm := {
  product_id_data : option nat;
  issue_description_data : string;
  priority_data : string;
  repair_type_data : string
}.

Definition validate_ticket_form (product_choices : list nat) (f : TicketForm)
    : option (nat * string * Priority * RepairType) :=
  match validate_select_id product_choices (product_id_data f),
        select_choice priority_label priority_choices (priority_data f),
        select_choice repair_type_label repair_type_choices
          (repair_type_data f) with
  | Some pid, Some prio, Some rt =>
      if data_required (issue_description_data f)
         && length_min 10 (issue_description_data f)
      then Some (pid, issue_description_data f, prio, rt) else None
  | _, _, _ => None
  end.

(** [ProductForm]; the description and the invoice image are left
    out.  [None] stands for a date or a number that did not parse. *)
Record ProductForm := {
  product_name_data : string;
  brand_data : string;
  category_data : string;
  serial_number_data : string;
  purchase_date_data : option datetime;
  warranty_months_data : option Z
}.

Definition category_choices : list string :=
  ["laptop"; "desktop"; "mobile"; "tablet"; "smartwatch"; "headphones";
   "other"].

Definition validate_product_form (f : ProductForm)
    : option (datetime * Z) :=
  match purchase_date_data f, warranty_months_data f with
  | Some d, Some m =>
      if data_required (product_name_data f)
         && length_between 3 200 (product_name_data f)
         && data_required (brand_data f)
         && length_between 2 100 (brand_data f)
         && bool_decide (category_data f ∈ category_choices)
         && data_required (serial_number_data f)
         && length_between 3 100 (serial_number_data f)
         && negb (m =? 0) && (1 <=? m) && (m <=? 120)
      then Some (d, m) else None
  | _, _ => None
  end.

End Forms.
Import Forms.

(** ** Customer routes (routes/customer.py) *)

(** [add_product] *)
Definition add_product (req : Request ProductForm) : Handler :=
  login_required (customer_required (fun current_user db =>
    match req with
    | GET => (Rendered, db)
    | POST form =>
        match validate_product_form form with
        | None => (Rendered, db)
        | Some (purchase, months) =>
            (* Calculate warranty expiry *)
            match compute_expiry purchase months with
            | None => (RolledBack, db)
            | Some expiry =>
                let product :=
                  {| product_name := product_name_data form;
                     brand := brand_data form;
                     category := category_data form;
                     serial_number := serial_number_data form;
                     purchase_date := purchase;
                     warranty_months := months;
                     warranty_expiry := expiry;
                     product_is_deleted := false;
                     product_user_id := user_id current_user |} in
                (* [serial_number] is a unique column *)
                if bool_decide (serial_number product
                                  ∈ (serial_number ∘ snd) <$> rows (products db))
                then (RolledBack, db)
                else
                  let id := next_id (products db) in
                  (Created id,
                   with_products (<[id := product]> (products db)) db)
            end
        end
    end)).

(** The choices of the product dropdown of [raise_ticket]: the
    customer's products that are not deleted. *)
Definition product_choices (current_user : User) (db : DB) : list nat :=
  fst <$> filter (fun r => product_user_id r.2 = user_id current_user
                           /\ product_is_deleted r.2 = false)
                 (rows (products db)).

(** [raise_ticket]; [number] is the ticket number that
    [generate_ticket_number] draws. *)
Definition raise_ticket (req : Request TicketForm) (now : datetime)
    (number : string) : Handler :=
  login_required (customer_required (fun current_user db =>
    match req with
    | GET => (Rendered, db)
    | POST form =>
        match validate_ticket_form (product_choices current_user db) form with
        | None => (Rendered, db)
        | Some (form_product_id, description, form_priority, repair_type) =>
            match products db !! form_product_id with
            | None => (Forbidden, db)
            | Some product =>
                if bool_decide (product_user_id product ≠ user_id current_user)
                then (Forbidden, db)
                else
                  (* Check warranty status *)
                  let warranty_expired := warranty_expiry product <? now in
                  (* Validate repair type selection *)
                  if warranty_expired && bool_decide (repair_type = Warranty)
                  then (PolicyViolation, db)
                  else
                    let ticket :=
                      {| ticket_number := number;
                         product_id := form_product_id;
                         customer_id := user_id current_user;
                         technician_id := None;
                         issue_description := description;
                         status := Open;
                         priority := form_priority;
                         repair_cost := None;
                         is_warranty_covered :=
                           bool_decide (repair_type = Warranty)
                           && negb warranty_expired;
                         is_paid := false;
                         is_deleted := false;
                         created_at := now;
                         updated_at := now |} in
                    (* [ticket_number] is a unique column *)
                    if bool_decide (number
                                      ∈ (ticket_number ∘ snd) <$> rows (tickets db))
                    then (RolledBack, db)
                    else
                      let id := next_id (tickets db) in
                      (Created id,
                       with_tickets (<[id := ticket]> (tickets db)) db)
            end
        end
    end)).

(** [pay_ticket] *)
Definition pay_ticket (ticket_id : nat) (req : Request PaymentForm)
    (now : datetime) : Handler :=
  login_required (customer_required (fun current_user db =>
    match tickets db !! ticket_id with
    | None => (NotFound, db)
    | Some ticket =>
        if bool_decide (customer_id ticket ≠ user_id current_user)
        then (Forbidden, db)
        else if negb (bool_decide (status ticket ∈ [Completed; Closed]))
        then (InvalidState, db)
        else if is_warranty_covered ticket then (NotApplicable, db)
        else if is_paid ticket then (AlreadyPaid, db)
        else
          match req with
          | GET => (Rendered, db)
          | POST form =>
              if validate_payment_form form then
                (* mock payment processing *)
                let ticket := set_is_paid true ticket in
                let ticket := set_status Closed ticket in
                let ticket := set_updated_at now ticket in
                let act :=
                  {| log_user_id := user_id current_user;
                     action := "payment_processed";
                     resource_type := "ticket";
                     resource_id := ticket_id;
                     changes := CustomerPaid (repair_cost ticket)
                                  (upi_id_data form);
                     log_created_at := now |} in
                (Success, add_activity act (save_ticket ticket_id ticket db))
              else (Rendered, db)
          end
    end)).

(** [add_feedback] *)
Definition add_feedback (ticket_id : nat) (req : Request FeedbackForm)
    (now : datetime) : Handler :=
  login_required (customer_required (fun current_user db =>
    match tickets db !! ticket_id with
    | None => (NotFound, db)
    | Some ticket =>
        if bool_decide (customer_id ticket ≠ user_id current_user)
        then (Forbidden, db)
        else if negb (bool_decide (status ticket ∈ [Completed; Closed]))
        then (InvalidState, db)
        else
          (* Check if feedback already exists *)
          let existing_feedback :=
            List.find (fun f => (feedback_ticket_id f =? ticket_id)%nat)
                      (feedback db) in
          if negb (is_none existing_feedback) then (AlreadyExists, db)
          else
            match req with
            | GET => (Rendered, db)
            | POST form =>
                match validate_feedback_form form with
                | None => (Rendered, db)
                | Some (form_rating, form_comment) =>
                    let fb :=
                      {| feedback_ticket_id := ticket_id;
                         feedback_user_id := user_id current_user;
                         rating := form_rating;
                         comment := form_comment;
                         feedback_created_at := now |} in
                    (Success, add_feedback_row fb db)
                end
            end
    end)).

(** ** Technician routes (routes/technician.py) *)

(** The order of [Ticket.priority.desc(), Ticket.created_at.asc()]:
    [priority] is a string column, so the database compares the stored
    labels as strings. *)
Definition listing_le (r1 r2 : nat * Ticket) : bool :=
  match String.compare (priority_label (priority r1.2))
                       (priority_label (priority r2.2)) with
  | Gt => true
  | Lt => false
  | Eq => created_at r1.2 <=? created_at r2.2
  end.

Definition listing_order (r1 r2 : nat * Ticket) : Prop :=
  listing_le r1 r2 = true.

Global Instance listing_order_dec r1 r2 : Decision (listing_order r1 r2).
Proof. unfold listing_order. apply _. Defined.

(** [query.paginate(page=page, per_page=n)]: the page's items, or 404
    for a page below 1 or an empty page after the first. *)
Definition paginate {A} (page : Z) (per_page : nat) (l : list A)
    : option (list A) :=
  if page <? 1 then None
  else
    let items := take per_page (drop (Z.to_nat (page - 1) * per_page) l) in
    if Forms.is_none (head items) && negb (page =? 1) then None
    else Some items.

(** [tickets]: the tickets assigned to the technician, with their keys.
    An empty filter string means no filter. *)
Definition technician_tickets (page : Z) (status_filter priority_filter : string)
    (current_user : User) (db : DB) : option (list (nat * Ticket)) :=
  let query :=
    filter (fun r => technician_id r.2 = Some (user_id current_user)
                     /\ is_deleted r.2 = false) (rows (tickets db)) in
  let query :=
    if String.eqb status_filter "" then query
    else filter (fun r => status_label (status r.2) = status_filter) query in
  let query :=
    if String.eqb priority_filter "" then query
    else filter (fun r => priority_label (priority r.2) = priority_filter)
                query in
  paginate page 10 (merge_sort listing_order query).

(** [update_status] *)
Definition update_status (ticket_id : nat) (req : Request TicketStatusForm)
    (now : datetime) : Handler :=
  login_required (technician_required (fun current_user db =>
    match tickets db !! ticket_id with
    | None => (NotFound, db)
    | Some ticket =>
        if bool_decide (technician_id ticket ≠ Some (user_id current_user))
           && negb (is_admin current_user)
        then (Forbidden, db)
        (* do not allow changes once the ticket is completed *)
        else if bool_decide (status ticket = Completed)
        then (InvalidTransition, db)
        else
          match req with
          | GET => (Rendered, db)
          | POST form =>
              match validate_ticket_status_form form with
              | None => (Rendered, db)
              | Some (form_status, form_repair_cost) =>
                  let old_status := status ticket in
                  (* If technician is trying to complete a paid repair,
                     ensure a price exists *)
                  if bool_decide (form_status = Completed)
                     && negb (is_warranty_covered ticket)
                     && is_none form_repair_cost
                     && is_none (repair_cost ticket)
                  then (MissingRepairCost, db)
                  else
                    let ticket := set_status form_status ticket in
                    let ticket :=
                      match form_repair_cost with
                      | Some c => set_repair_cost (Some c) ticket
                      | None => ticket
                      end in
                    let ticket := set_updated_at now ticket in
                    (* if moving to completed and it's a paid repair,
                       ensure repair_cost exists *)
                    if bool_decide (old_status ≠ Completed)
                       && bool_decide (form_status = Completed)
                       && negb (is_warranty_covered ticket)
                       && is_none (repair_cost ticket)
                    then (MissingRepairCost, db)
                    else
                      (* Log status update *)
                      let activity :=
                        {| log_user_id := user_id current_user;
                           action := "ticket_status_updated";
                           resource_type := "ticket";
                           resource_id := ticket_id;
                           changes := StatusChanged old_status form_status;
                           log_created_at := now |} in
                      (Success,
                       add_activity activity (save_ticket ticket_id ticket db))
              end
          end
    end)).

(** [add_note] *)
Definition add_note (ticket_id : nat) (req : Request AddRepairNoteForm)
    (now : datetime) : Handler :=
  login_required (technician_required (fun current_user db =>
    match tickets db !! ticket_id with
    | None => (NotFound, db)
    | Some ticket =>
        if bool_decide (technician_id ticket ≠ Some (user_id current_user))
           && negb (is_admin current_user)
        then (Forbidden, db)
        else
          match req with
          | GET => (Rendered, db)
          | POST form =>
              if validate_add_repair_note_form form then
                let note :=
                  {| note_ticket_id := ticket_id;
                     note_user_id := user_id current_user;
                     note_text := note_text_data form;
                     note_created_at := now |} in
                (* Update ticket updated_at *)
                let ticket := set_updated_at now ticket in
                (Success, add_repair_note note (save_ticket ticket_id ticket db))
              else (Rendered, db)
          end
    end)).

(** ** Admin routes (routes/admin.py) *)

(** The technicians offered by [assign_technician]:
    [User.role == 'technician', User.is_active == True,
     User.is_deleted == False] *)
Definition technician_candidates (db : DB) : list User :=
  filter (fun u => role u = Technician /\ is_active u = true
                   /\ user_is_deleted u = false) (users db).

(** [assign_technician] *)
Definition assign_technician (ticket_id : nat)
    (req : Request AssignTechnicianForm) (now : datetime) : Handler :=
  login_required (admin_required (fun current_user db =>
    match tickets db !! ticket_id with
    | None => (NotFound, db)
    | Some ticket =>
        if is_deleted ticket then (NotFound, db)
        else
          let technicians := technician_candidates db in
          (* prepare form with choices *)
          let choices := user_id <$> technicians in
          match req with
          | GET => (Rendered, db)
          | POST form =>
              match validate_select_id choices (technician_id_data form) with
              | None => (Rendered, db)
              | Some form_technician_id =>
                  let ticket :=
                    set_technician_id (Some form_technician_id) ticket in
                  let ticket := set_status InProgress ticket in
                  let ticket := set_updated_at now ticket in
                  let activity :=
                    {| log_user_id := user_id current_user;
                       action := "ticket_assigned";
                       resource_type := "ticket";
                       resource_id := ticket_id;
                       changes := AssignedTo form_technician_id;
                       log_created_at := now |} in
                  (Success,
                   add_activity activity (save_ticket ticket_id ticket db))
              end
          end
    end)).

(** ** Sequences of requests *)

(** One request to a route that writes the database. *)
Inductive Op :=
  | AddProduct (req : Request ProductForm)
  | RaiseTicket (req : Request TicketForm) (number : string)
  | AssignTechnician (ticket_id : nat) (req : Request AssignTechnicianForm)
  | UpdateStatus (ticket_id : nat) (req : Request TicketStatusForm)
  | AddNote (ticket_id : nat) (req : Request AddRepairNoteForm)
  | PayTicket (ticket_id : nat) (req : Request PaymentForm)
  | AddFeedback (ticket_id : nat) (req : Request FeedbackForm).

(** A request with the user who sends it and the time it is served. *)
Record Call := {
  call_user : CurrentUser;
  call_time : datetime;
  call_op : Op
}.

Definition run (c : Call) (db : DB) : Outcome * DB :=
  let now := call_time c in
  match call_op c with
  | AddProduct req => add_product req (call_user c) db
  | RaiseTicket req number => raise_ticket req now number (call_user c) db
  | AssignTechnician id req => assign_technician id req now (call_user c) db
  | UpdateStatus id req => update_status id req now (call_user c) db
  | AddNote id req => add_note id req now (call_user c) db
  | PayTicket id req => pay_ticket id req now (call_user c) db
  | AddFeedback id req => add_feedback id req now (call_user c) db
  end.

(** The database after serving the requests in order. *)
Fixpoint run_all (cs : list Call) (db : DB) : DB :=
  match cs with
  | [] => db
  | c :: cs => run_all cs (run c db).2
  end.

(** ** Predicates of the statements *)

(** The user passes [login_required], [technician_required] and the
    access check of [update_status] on the ticket: an account that is
    active and not deleted, of the assigned technician or of an
    admin. *)
Definition may_update (u : User) (t : Ticket) : Prop :=
  is_active u = true /\ user_is_deleted u = false
  /\ (role u = Admin
      \/ (role u = Technician /\ technician_id t = Some (user_id u))).

(** The user passes [login_required] and [customer_required] and owns
    the ticket. *)
Definition owns_ticket (u : User) (t : Ticket) : Prop :=
  is_active u = true /\ user_is_deleted u = false /\ role u = Customer
  /\ customer_id t = user_id u.

(** The user passes [login_required] and [admin_required]. *)
Definition acts_as_admin (u : User) : Prop :=
  is_active u = true /\ user_is_deleted u = false /\ role u = Admin.

(** The user passes [login_required] and [customer_required]. *)
Definition acts_as_customer (u : User) : Prop :=
  is_active u = true /\ user_is_deleted u = false /\ role u = Customer.

(** Every ticket of [db] is still in [db'], with the same
    [is_warranty_covered]. *)
Definition coverage_kept (db db' : DB) : Prop :=
  forall id t, tickets db !! id = Some t ->
    exists t', tickets db' !! id = Some t'
      /\ is_warranty_covered t' = is_warranty_covered t.

(** ** Sample rows for the concrete checks *)

Module Sample.

Definition alice : User :=
  {| user_id := 1; username := "alice"; full_name := "Alice";
     role := Customer; is_active := true; user_is_deleted := false |}.

Definition tech : User :=
  {| user_id := 2; username := "tech1"; full_name := "Tech 1";
     role := Technician; is_active := true; user_is_deleted := false |}.

Definition idle_tech : User :=
  {| user_id := 4; username := "tech2"; full_name := "Tech 2";
     role := Technician; is_active := false; user_is_deleted := false |}.

Definition root : User :=
  {| user_id := 3; username := "admin"; full_name := "Administrator";
     role := Admin; is_active := true; user_is_deleted := false |}.

(** Bought on day 738000, twelve months of warranty. *)
Definition laptop : Product :=
  {| product_name := "Laptop 1"; brand := "Dell"; category := "laptop";
     serial_number := "SN1001";
     purchase_date := 738000 * day_us;
     warranty_months := 12;
     warranty_expiry := 738360 * day_us;
     product_is_deleted := false;
     product_user_id := 1 |}.

Definition laptop_form : ProductForm :=
  {| product_name_data := "Laptop 1"; brand_data := "Dell";
     category_data := "laptop"; serial_number_data := "SN1001";
     purchase_date_data := Some (738000 * day_us);
     warranty_months_data := Some 12 |}.

(** A ticket of alice on the laptop, assigned to tech1. *)
Definition ticket (s : Status) (prio : Priority) (covered paid : bool)
    (cost : option Q) (created : datetime) : Ticket :=
  {| ticket_number := "TKT-20211201-0A1B2C";
     product_id := 1; customer_id := 1; technician_id := Some 2%nat;
     issue_description := "Device not powering on";
     status := s; priority := prio; repair_cost := cost;
     is_warranty_covered := covered; is_paid := paid;
     is_deleted := false; created_at := created; updated_at := created |}.

Definition db_with (t : Ticket) : DB :=
  {| users := [alice; tech; root; idle_tech];
     products := {[ 1%nat := laptop ]};
     tickets := {[ 1%nat := t ]};
     repair_notes := []; feedback := []; activity_logs := [] |}.

Definition empty_db : DB :=
  {| users := [alice; tech; root; idle_tech];
     products := ∅; tickets := ∅;
     repair_notes := []; feedback := []; activity_logs := [] |}.

Definition t0 : datetime := 738100 * day_us.

(** Four tickets assigned to tech1, one of each priority, raised one
    hour apart: 'high' first, then 'low', 'medium' and 'urgent'. *)
Definition hour_us : Z := 3600000000.

Definition triage_db : DB :=
  {| users := [alice; tech; root; idle_tech];
     products := {[ 1%nat := laptop ]};
     tickets :=
       {[ 1%nat := ticket InProgress High true false None t0;
          2%nat := ticket InProgress Low true false None (t0 + hour_us);
          3%nat := ticket InProgress Medium true false None
                     (t0 + 2 * hour_us);
          4%nat := ticket InProgress Urgent true false None
                     (t0 + 3 * hour_us) ]};
     repair_notes := []; feedback := []; activity_logs := [] |}.

Definition ticket_form : TicketForm :=
  {| product_id_data := Some 1%nat;
     issue_description_data := "Screen flickers after ten minutes";
     priority_data := "high";
     repair_type_data := "warranty" |}.

Definition feedback_form : FeedbackForm :=
  {| rating_data := Some 5; comment_data := "Quick repair" |}.

End Sample.

(** ** Further routes and model properties

    The routes and properties below complete the files of the ticket
    lifecycle.  A route that only shows data is given as the data it
    hands to its template, for the user that passed its decorators. *)

(** *** models.py *)

(** [Ticket.warranty_status]: read off the ticket's product, with two
    readings of the clock as [Product.warranty_status]; [None] when the
    product row is missing. *)
Definition ticket_warranty_status (db : DB) (t : Ticket)
    (now now' : datetime) : option string :=
  match products db !! product_id t with
  | None => None
  | Some product =>
      Some (if warranty_expiry product <? now then "expired"
            else
              let days_remaining := days (warranty_expiry product - now') in
              if days_remaining <? 30 then "expiring_soon" else "active")
  end.

(** [Ticket.can_claim_warranty] *)
Definition can_claim_warranty (db : DB) (t : Ticket) (now : datetime)
    : option bool :=
  match products db !! product_id t with
  | None => None
  | Some product =>
      Some (if warranty_expiry product <? now then false else true)
  end.

(** *** routes/customer.py *)

Definition set_product_is_deleted (b : bool) (p : Product) : Product :=
  {| product_name := product_name p; brand := brand p;
     category := category p; serial_number := serial_number p;
     purchase_date := purchase_date p;
     warranty_months := warranty_months p;
     warranty_expiry := warranty_expiry p;
     product_is_deleted := b; product_user_id := product_user_id p |}.

(** [edit_product].  'Another product with that serial number already
    exists.' is answered [AlreadyExists].  The commit cannot break the
    uniqueness of [serial_number]: the column is written only when it
    changed, and then no other row holds the new value. *)
Definition edit_product (product_id : nat) (req : Request ProductForm)
    : Handler :=
  login_required (customer_required (fun current_user db =>
    match products db !! product_id with
    | None => (NotFound, db)
    | Some product =>
        if bool_decide (product_user_id product ≠ user_id current_user)
        then (Forbidden, db)
        else
          match req with
          | GET => (Rendered, db)
          | POST form =>
              match validate_product_form form with
              | None => (Rendered, db)
              | Some (purchase, months) =>
                  (* ensure serial number stays unique when changed *)
                  let taken :=
                    bool_decide (serial_number product
                                   ≠ serial_number_data form)
                    && match List.find
                               (fun r => String.eqb (serial_number r.2)
                                           (serial_number_data form))
                               (rows (products db)) with
                       | Some existing =>
                           bool_decide (existing.1 ≠ product_id)
                       | None => false
                       end in
                  if taken then (AlreadyExists, db)
                  else
                    match compute_expiry purchase months with
                    | None => (RolledBack, db)
                    | Some expiry =>
                        let product :=
                          {| product_name := product_name_data form;
                             brand := brand_data form;
                             category := category_data form;
                             serial_number := serial_number_data form;
                             purchase_date := purchase;
                             warranty_months := months;
                             warranty_expiry := expiry;
                             product_is_deleted := product_is_deleted product;
                             product_user_id := product_user_id product |} in
                        (Success,
                         with_products
                           (<[product_id := product]> (products db)) db)
                    end
              end
          end
    end)).

(** [delete_product]: the route takes POST only. *)
Definition delete_product (product_id : nat) : Handler :=
  login_required (customer_required (fun current_user db =>
    match products db !! product_id with
    | None => (NotFound, db)
    | Some product =>
        if bool_decide (product_user_id product ≠ user_id current_user)
        then (Forbidden, db)
        else
          (* Soft delete *)
          let product := set_product_is_deleted true product in
          (Success,
           with_products (<[product_id := product]> (products db)) db)
    end)).

(** [Ticket.created_at.desc()] *)
Definition newest_first (r1 r2 : nat * Ticket) : Prop :=
  created_at r2.2 <= created_at r1.2.

Global Instance newest_first_dec r1 r2 : Decision (newest_first r1 r2).
Proof. unfold newest_first. apply _. Defined.

(** [RepairNote.created_at.desc()] *)
Definition newest_note_first (n1 n2 : RepairNote) : Prop :=
  note_created_at n2 <= note_created_at n1.

Global Instance newest_note_first_dec n1 n2 :
  Decision (newest_note_first n1 n2).
Proof. unfold newest_note_first. apply _. Defined.

(** [tickets] of the customer: the page of the customer's tickets,
    newest first, and the ids of those on the page that have feedback. *)
Definition customer_tickets (page : Z) (status_filter : string)
    (current_user : User) (db : DB)
    : option (list (nat * Ticket) * gset nat) :=
  let query :=
    filter (fun r => customer_id r.2 = user_id current_user
                     /\ is_deleted r.2 = false) (rows (tickets db)) in
  let query :=
    if String.eqb status_filter "" then query
    else filter (fun r => status_label (status r.2) = status_filter) query in
  match paginate page 10 (merge_sort newest_first query) with
  | None => None
  | Some items =>
      (* determine which of the paginated tickets already have feedback *)
      let ticket_ids := fst <$> items in
      let existing :=
        filter (fun f => feedback_ticket_id f ∈ ticket_ids) (feedback db) in
      Some (items, list_to_set (feedback_ticket_id <$> existing))
  end.

(** What [ticket_detail] shows: the ticket, its repair notes newest
    first, and its feedback if one exists. *)
Record TicketDetail := {
  detail_ticket : Ticket;
  detail_repair_notes : list RepairNote;
  detail_feedback : option Feedback
}.

Definition ticket_notes (ticket_id : nat) (db : DB) : list RepairNote :=
  merge_sort newest_note_first
    (filter (fun n => note_ticket_id n = ticket_id) (repair_notes db)).

Definition ticket_feedback (ticket_id : nat) (db : DB) : option Feedback :=
  List.find (fun f => (feedback_ticket_id f =? ticket_id)%nat) (feedback db).

(** A view under [login_required] and a role decorator.  The
    decorators decide as they do around a handler, on the user and
    nothing else: the view runs for the user they let through, and
    otherwise their answer is the answer of the route. *)
Definition decorated {A : Type}
    (role_required : (User -> DB -> Outcome * DB) -> Handler)
    (view : User -> DB -> Outcome + A) (current_user : CurrentUser) (db : DB)
    : Outcome + A :=
  match
    (login_required (role_required (fun _ db => (Rendered, db)))
       current_user db).1, current_user
  with
  | Rendered, LoggedIn u => view u db
  | refusal, _ => inl refusal
  end.

(** [ticket_detail] of the customer *)
Definition customer_ticket_detail (ticket_id : nat) (current_user : CurrentUser)
    (db : DB) : Outcome + TicketDetail :=
  decorated customer_required (fun current_user db =>
    match tickets db !! ticket_id with
    | None => inl NotFound
    | Some ticket =>
        if bool_decide (customer_id ticket ≠ user_id current_user)
        then inl Forbidden
        else inr {| detail_ticket := ticket;
                    detail_repair_notes := ticket_notes ticket_id db;
                    detail_feedback := ticket_feedback ticket_id db |}
    end) current_user db.

(** The figures of the customer's [dashboard].  [now1], [now2] and
    [now3] are the three readings of the clock, in the order of the
    queries. *)
Record CustomerDashboard := {
  total_products : nat;
  active_warranties : nat;
  expired_warranties : Z;
  open_tickets : nat;
  completed_tickets : nat;
  recent_tickets : list (nat * Ticket);
  expiring_soon : list (nat * Product)
}.

Definition customer_dashboard (now1 now2 now3 : datetime)
    (current_user : User) (db : DB) : CustomerDashboard :=
  let own_products :=
    filter (fun r => product_user_id r.2 = user_id current_user
                     /\ product_is_deleted r.2 = false)
           (rows (products db)) in
  let own_tickets :=
    filter (fun r => customer_id r.2 = user_id current_user
                     /\ is_deleted r.2 = false) (rows (tickets db)) in
  let total := length own_products in
  let active :=
    length (filter (fun r => now1 < warranty_expiry r.2) own_products) in
  {| total_products := total;
     active_warranties := active;
     expired_warranties := Z.of_nat total - Z.of_nat active;
     open_tickets :=
       length (filter (fun r => status r.2
                                  ∈ [Open; InProgress; WaitingForParts])
                      own_tickets);
     completed_tickets :=
       length (filter (fun r => status r.2 ∈ [Completed; Closed])
                      own_tickets);
     recent_tickets := take 5 (merge_sort newest_first own_tickets);
     expiring_soon :=
       filter (fun r => now2 < warranty_expiry r.2
                        /\ warranty_expiry r.2 <= now3 + timedelta_days 30)
              own_products |}.

(** *** routes/technician.py *)

(** [Ticket.created_at.asc()] *)
Definition oldest_first (r1 r2 : nat * Ticket) : Prop :=
  created_at r1.2 <= created_at r2.2.

Global Instance oldest_first_dec r1 r2 : Decision (oldest_first r1 r2).
Proof. unfold oldest_first. apply _. Defined.

(** [Ticket.updated_at.desc()] *)
Definition latest_update_first (r1 r2 : nat * Ticket) : Prop :=
  updated_at r2.2 <= updated_at r1.2.

Global Instance latest_update_first_dec r1 r2 :
  Decision (latest_update_first r1 r2).
Proof. unfold latest_update_first. apply _. Defined.

(** The figures of the technician's [dashboard]. *)
Record TechnicianDashboard := {
  assigned_tickets : nat;
  in_progress_tickets : nat;
  waiting_parts : nat;
  tech_completed_tickets : nat;
  high_priority_tickets : list (nat * Ticket);
  tech_recent_tickets : list (nat * Ticket)
}.

Definition technician_dashboard (current_user : User) (db : DB)
    : TechnicianDashboard :=
  let assigned :=
    filter (fun r => technician_id r.2 = Some (user_id current_user)
                     /\ is_deleted r.2 = false) (rows (tickets db)) in
  {| assigned_tickets := length assigned;
     in_progress_tickets :=
       length (filter (fun r => status r.2 = InProgress) assigned);
     waiting_parts :=
       length (filter (fun r => status r.2 = WaitingForParts) assigned);
     tech_completed_tickets :=
       length (filter (fun r => status r.2 ∈ [Completed; Closed]) assigned);
     high_priority_tickets :=
       take 5 (merge_sort oldest_first
                 (filter (fun r => status r.2 ∈ [Open; InProgress]
                                   /\ priority r.2 ∈ [High; Urgent])
                         assigned));
     tech_recent_tickets := take 10 (merge_sort latest_update_first assigned) |}.

(** [ticket_detail] of the technician: the ticket with its notes and
    feedback, and the rows of its customer and product. *)
Definition technician_ticket_detail (ticket_id : nat)
    (current_user : CurrentUser) (db : DB)
    : Outcome + (TicketDetail * option User * option Product) :=
  decorated technician_required (fun current_user db =>
    match tickets db !! ticket_id with
    | None => inl NotFound
    | Some ticket =>
        if bool_decide (technician_id ticket ≠ Some (user_id current_user))
           && negb (is_admin current_user)
        then inl Forbidden
        else
          inr ({| detail_ticket := ticket;
                  detail_repair_notes := ticket_notes ticket_id db;
                  detail_feedback := ticket_feedback ticket_id db |},
               List.find (fun u => (user_id u =? customer_id ticket)%nat)
                         (users db),
               products db !! product_id ticket)
    end) current_user db.

(** *** routes/admin.py *)

(** [tickets] of the admin: every ticket that is not deleted, newest
    first, 15 to a page.  The query orders by [created_at] only and so
    leaves open the order of tickets created at the same instant; the
    sort used here keeps such rows in the order of [rows]. *)
Definition admin_tickets (page : Z) (status_filter priority_filter : string)
    (db : DB) : option (list (nat * Ticket)) :=
  let query := filter (fun r => is_deleted r.2 = false) (rows (tickets db)) in
  let query :=
    if String.eqb status_filter "" then query
    else filter (fun r => status_label (status r.2) = status_filter) query in
  let query :=
    if String.eqb priority_filter "" then query
    else filter (fun r => priority_label (priority r.2) = priority_filter)
                query in
  paginate page 15 (merge_sort newest_first query).

(** What [report_warranty] hands to its template; the clock is read
    once.  The category distribution maps each category of a product
    that is not deleted to the number of such products. *)
Record WarrantyReport := {
  report_active : nat;
  report_expired : nat;
  report_expiring_soon : list (nat * Product);
  report_category_dist : gmap string nat
}.

Definition count_by_category (l : list (nat * Product)) : gmap string nat :=
  foldr (fun r m =>
           <[category r.2 := S (default 0%nat (m !! category r.2))]> m)
        ∅ l.

Definition report_warranty (now : datetime) (db : DB) : WarrantyReport :=
  let live :=
    filter (fun r => product_is_deleted r.2 = false) (rows (products db)) in
  {| report_active :=
       length (filter (fun r => now < warranty_expiry r.2) live);
     report_expired :=
       length (filter (fun r => warranty_expiry r.2 <= now) live);
     report_expiring_soon :=
       filter (fun r => now < warranty_expiry r.2
                        /\ warranty_expiry r.2 <= now + timedelta_days 30)
              live;
     report_category_dist := count_by_category live |}.

(** ** The writes of the system

    [Write db db']: [db'] is [db] after one commit of a route. *)

Inductive Write (db : DB) : DB -> Prop :=
  | Write_add_product (p : Product) :
      serial_number p ∉ (serial_number ∘ snd) <$> rows (products db) ->
      warranty_expiry p
        = purchase_date p + timedelta_days (30 * warranty_months p) ->
      1 <= warranty_months p <= 120 ->
      product_is_deleted p = false ->
      Write db (with_products
                  (<[next_id (products db) := p]> (products db)) db)
  | Write_edit_product (id : nat) (p p' : Product) :
      products db !! id = Some p ->
      serial_number p' = serial_number p
      \/ (forall k q, products db !! k = Some q ->
                      serial_number q ≠ serial_number p') ->
      warranty_expiry p'
        = purchase_date p' + timedelta_days (30 * warranty_months p') ->
      1 <= warranty_months p' <= 120 ->
      product_is_deleted p' = product_is_deleted p ->
      product_user_id p' = product_user_id p ->
      Write db (with_products (<[id := p']> (products db)) db)
  | Write_delete_product (id : nat) (p : Product) :
      products db !! id = Some p ->
      Write db (with_products
                  (<[id := set_product_is_deleted true p]> (products db)) db)
  | Write_raise_ticket (t : Ticket) :
      ticket_number t ∉ (ticket_number ∘ snd) <$> rows (tickets db) ->
      status t = Open -> technician_id t = None -> repair_cost t = None ->
      is_paid t = false -> is_deleted t = false ->
      Write db (with_tickets
                  (<[next_id (tickets db) := t]> (tickets db)) db)
  | Write_assign (id : nat) (t : Ticket) (tech : nat) (now : datetime)
      (a : ActivityLog) :
      tickets db !! id = Some t ->
      action a = "ticket_assigned" -> resource_id a = id ->
      Write db
        (add_activity a
           (save_ticket id
              (set_updated_at now
                 (set_status InProgress (set_technician_id (Some tech) t)))
              db))
  | Write_update_status (id : nat) (t : Ticket) (s : Status)
      (cost : option Q) (now : datetime) (a : ActivityLog) :
      tickets db !! id = Some t ->
      status t ≠ Completed ->
      action a = "ticket_status_updated" -> resource_id a = id ->
      Write db
        (add_activity a
           (save_ticket id
              (set_updated_at now
                 (match cost with
                  | Some c => set_repair_cost (Some c) (set_status s t)
                  | None => set_status s t
                  end))
              db))
  | Write_pay (id : nat) (t : Ticket) (now : datetime) (a : ActivityLog) :
      tickets db !! id = Some t ->
      is_warranty_covered t = false -> is_paid t = false ->
      status t = Completed \/ status t = Closed ->
      action a = "payment_processed" -> resource_id a = id ->
      Write db
        (add_activity a
           (save_ticket id
              (set_updated_at now (set_status Closed (set_is_paid true t)))
              db))
  | Write_note (id : nat) (t : Ticket) (now : datetime) (n : RepairNote) :
      tickets db !! id = Some t ->
      note_ticket_id n = id ->
      Write db (add_repair_note n (save_ticket id (set_updated_at now t) db))
  | Write_feedback (t : Ticket) (f : Feedback) :
      tickets db !! feedback_ticket_id f = Some t ->
      status t = Completed \/ status t = Closed ->
      customer_id t = feedback_user_id f ->
      (forall g, g ∈ feedback db ->
                 feedback_ticket_id g ≠ feedback_ticket_id f) ->
      Write db (add_feedback_row f db).

(** One request to any route that writes: those of [Call], or an edit
    or a deletion of a product. *)
Inductive Step :=
  | Lifecycle (c : Call)
  | EditProduct (current_user : CurrentUser) (product_id : nat)
      (req : Request ProductForm)
  | DeleteProduct (current_user : CurrentUser) (product_id : nat).

Definition step (s : Step) (db : DB) : Outcome * DB :=
  match s with
  | Lifecycle c => run c db
  | EditProduct cu id req => edit_product id req cu db
  | DeleteProduct cu id => delete_product id cu db
  end.

Fixpoint steps (ss : list Step) (db : DB) : DB :=
  match ss with
  | [] => db
  | s :: ss => steps ss (step s db).2
  end.

(** The request was committed. *)
Definition committed (o : Outcome) : Prop :=
  o = Success \/ exists id, o = Created id.

(** The answer of a request: committed with a write, or not committed
    and the database untouched. *)
Definition commits_or_leaves (r : Outcome * DB) (db : DB) : Prop :=
  (committed r.1 /\ Write db r.2) \/ (~ committed r.1 /\ r.2 = db).

(** *** Invariants of the tables *)

(** Every stored product has the expiry computed from its purchase date
    and duration, and a duration of 1 to 120 months. *)
Definition products_consistent (db : DB) : Prop :=
  forall id p, products db !! id = Some p ->
    warranty_expiry p
      = purchase_date p + timedelta_days (30 * warranty_months p)
    /\ 1 <= warranty_months p <= 120.

(** No two products share a serial number. *)
Definition serial_numbers_unique (db : DB) : Prop :=
  forall i j p q, products db !! i = Some p -> products db !! j = Some q ->
    serial_number p = serial_number q -> i = j.

(** No two tickets share a ticket number. *)
Definition ticket_numbers_unique (db : DB) : Prop :=
  forall i j t u, tickets db !! i = Some t -> tickets db !! j = Some u ->
    ticket_number t = ticket_number u -> i = j.

(** At most one feedback row per ticket. *)
Definition feedback_unique (db : DB) : Prop :=
  NoDup (feedback_ticket_id <$> feedback db).

(** What a later state keeps of a ticket: the columns that no route
    writes after creation, a payment once made and a repair cost once
    set. *)
Definition ticket_kept (t t' : Ticket) : Prop :=
  ticket_number t' = ticket_number t
  /\ product_id t' = product_id t
  /\ customer_id t' = customer_id t
  /\ issue_description t' = issue_description t
  /\ priority t' = priority t
  /\ is_warranty_covered t' = is_warranty_covered t
  /\ is_deleted t' = is_deleted t
  /\ created_at t' = created_at t
  /\ (is_paid t = true -> is_paid t' = true)
  /\ (repair_cost t ≠ None -> repair_cost t' ≠ None).

(** The later state extends the earlier one: tickets and products are
    still there, tickets keep what [ticket_kept] says, products keep
    their owner, and the three logs only grew at the end. *)
Definition extends (db db' : DB) : Prop :=
  (forall id t, tickets db !! id = Some t ->
     exists t', tickets db' !! id = Some t' /\ ticket_kept t t')
  /\ (forall id p, products db !! id = Some p ->
        exists p', products db' !! id = Some p'
          /\ product_user_id p' = product_user_id p
          /\ (product_is_deleted p = true -> product_is_deleted p' = true))
  /\ activity_logs db `prefix_of` activity_logs db'
  /\ repair_notes db `prefix_of` repair_notes db'
  /\ feedback db `prefix_of` feedback db'
  /\ users db' = users db.

(** ** More sample rows *)

Module Fixtures.

Definition bob : User :=
  {| user_id := 5; username := "bob"; full_name := "Bob";
     role := Customer; is_active := true; user_is_deleted := false |}.

Definition phone_form : ProductForm :=
  {| product_name_data := "Phone 7"; brand_data := "Samsung";
     category_data := "mobile"; serial_number_data := "SN2002";
     purchase_date_data := Some (738050 * day_us);
     warranty_months_data := Some 24 |}.

Definition status_form (s : string) (c : FloatInput) : TicketStatusForm :=
  {| status_data := s; repair_cost_data := c |}.

Definition note_form : AddRepairNoteForm :=
  {| note_text_data := "Replaced the power board" |}.

Definition payment_form : PaymentForm := {| upi_id_data := "alice@upi" |}.

Definition paid_repair_done : Ticket :=
  Sample.ticket Completed High false false (Some 250%Q) Sample.t0.

End Fixtures.

(** * Properties *)

(** ** Time *)

Lemma days_lt (td n : Z) : days td < n <-> td < n * day_us.
Proof.
  unfold days, day_us. split; intros H.
  - destruct (Z_lt_le_dec td (n * 86400000000)) as [Hlt | Hge]; [exact Hlt |].
    assert (n <= td / 86400000000) by (apply Z.div_le_lower_bound; lia).
    lia.
  - apply Z.div_lt_upper_bound; lia.
Qed.

Lemma datetime_add_Some dt td r :
  datetime_add dt td = Some r -> r = dt + td.
Proof.
  unfold datetime_add. destruct (_ && _); congruence.
Qed.

(** ** Warranty calculator *)

Lemma warranty_status_cases (p : Product) (now : datetime) :
  product_is_deleted p = false ->
  (warranty_expiry p < now /\ warranty_status_at p now = "expired")
  \/ (now <= warranty_expiry p /\ warranty_expiry p - now < 30 * day_us
      /\ warranty_status_at p now = "expiring_soon")
  \/ (30 * day_us <= warranty_expiry p - now
      /\ warranty_status_at p now = "active").
Proof.
  intros Hd. unfold warranty_status_at, warranty_status. rewrite Hd.
  destruct (Z.ltb_spec (warranty_expiry p) now) as [Hlt | Hge].
  - left. split; [lia | reflexivity].
  - right.
    destruct (Z.ltb_spec (days (warranty_expiry p - now)) 30) as [Hs | Hs].
    + left. apply days_lt in Hs. repeat split; [lia | lia].
    + right. split; [| reflexivity].
      destruct (Z_lt_le_dec (warranty_expiry p - now) (30 * day_us)) as [H | H];
        [| exact H].
      apply days_lt in H. lia.
Qed.

(** The expiry stored by a successful [add_product]. *)
Lemma add_product_created req cu db id db' :
  add_product req cu db = (Created id, db') ->
  exists p, products db' !! id = Some p
    /\ warranty_expiry p
       = purchase_date p + timedelta_days (30 * warranty_months p)
    /\ 1 <= warranty_months p <= 120.
Proof.
  unfold add_product, login_required, customer_required.
  destruct cu as [| u]; cbn [is_authenticated]; [congruence |].
  destruct (is_active u) eqn:Hlive; cbn [negb orb]; [| congruence].
  destruct (user_is_deleted u); [congruence |].
  destruct (is_admin u); [congruence |].
  destruct (is_technician u); [congruence |].
  destruct req as [| form]; [congruence |].
  destruct (validate_product_form form) as [[purchase months] |] eqn:Hv;
    [| congruence].
  destruct (compute_expiry purchase months) as [expiry |] eqn:He;
    [| congruence].
  case_bool_decide; [congruence |].
  intros [= <- <-]. eexists. split.
  - cbn. apply lookup_insert_eq.
  - cbn. apply datetime_add_Some in He. split; [exact He |].
    unfold validate_product_form in Hv.
    destruct (purchase_date_data form), (warranty_months_data form);
      try congruence.
    destruct (_ && _) eqn:Hb in Hv; [| congruence].
    injection Hv as <- <-.
    repeat (apply andb_prop in Hb as [Hb ?]). lia.
Qed.

(** What [Product.warranty_status] computes at one instant, for a
    product that is not deleted: 'expired' iff [expiry < now]
    (strictly), 'expiring_soon' iff it is not expired and
    [expiry - now] is less than 30 days, 'active' iff at least 30 days
    remain. *)
Lemma warranty_status_at_boundaries (p : Product) (now : datetime) :
  product_is_deleted p = false ->
  (warranty_status_at p now = "expired" <-> warranty_expiry p < now)
  /\ (warranty_status_at p now = "expiring_soon"
      <-> now <= warranty_expiry p /\ warranty_expiry p - now < 30 * day_us)
  /\ (warranty_status_at p now = "active"
      <-> 30 * day_us <= warranty_expiry p - now).
Proof.
  intros Hd.
  assert (Hday : 0 < day_us) by (unfold day_us; lia).
  destruct (warranty_status_cases p now Hd)
    as [[H1 H2] | [(H1 & H2 & H3) | [H1 H2]]];
    rewrite ?H2, ?H3;
    (repeat split; intros; try discriminate; try lia; try reflexivity).
Qed.

(** C8, at the boundary.  The laptop of the samples is not deleted,
    was bought on day 738000 with twelve months of warranty, and its
    expiry is the purchase date plus 30 x 12 days.  Read at the very
    instant of the expiry ([now = warranty_expiry], so that
    [now >= expiry]), [Product.warranty_status] answers 'expiring_soon'
    and not 'expired', with 0 days remaining; at the same instant the
    admin's warranty report counts the product as expired and not as
    active, and the dashboard of its owner counts no active warranty
    and one expired. *)
Theorem warranty_status_at_expiry_instant :
  let p := Sample.laptop in
  let now := warranty_expiry p in
  let db :=
    Sample.db_with (Sample.ticket Open Medium true false None Sample.t0) in
  products db !! 1%nat = Some p
  /\ product_is_deleted p = false
  /\ warranty_expiry p
     = purchase_date p + timedelta_days (30 * warranty_months p)
  /\ now >= warranty_expiry p
  /\ warranty_status p now now = "expiring_soon"
  /\ warranty_status p now now <> "expired"
  /\ days_remaining p now now = 0
  /\ report_expired (report_warranty now db) = 1%nat
  /\ report_active (report_warranty now db) = 0%nat
  /\ active_warranties (customer_dashboard now now now Sample.alice db)
     = 0%nat
  /\ expired_warranties (customer_dashboard now now now Sample.alice db) = 1.
Proof.
  intros p now db.
  split; [reflexivity |].
  split; [reflexivity |].
  split; [vm_compute; reflexivity |].
  split; [lia |].
  split; [vm_compute; reflexivity |].
  split; [vm_compute; discriminate |].
  split; [vm_compute; reflexivity |].
  split; [vm_compute; reflexivity |].
  split; [vm_compute; reflexivity |].
  split; vm_compute; reflexivity.
Qed.

(** ** Tables *)

Lemma next_id_fresh {A} (table : gmap nat A) : table !! next_id table = None.
Proof.
  destruct (table !! next_id table) as [x |] eqn:E; [| reflexivity].
  exfalso.
  assert (Hin : next_id table ∈ elements (dom table)).
  { apply elem_of_elements, elem_of_dom. eauto. }
  apply max_list_elem_of_le in Hin. unfold next_id in Hin. lia.
Qed.

Lemma elem_of_rows {A} (table : gmap nat A) (k : nat) (v : A) :
  (k, v) ∈ rows table <-> table !! k = Some v.
Proof.
  unfold rows. rewrite merge_sort_Permutation. apply elem_of_map_to_list.
Qed.

(** ** The warranty snapshot of a ticket (C1) *)

Lemma coverage_kept_refl db : coverage_kept db db.
Proof. intros id t H. eauto. Qed.

Lemma coverage_kept_trans db1 db2 db3 :
  coverage_kept db1 db2 -> coverage_kept db2 db3 -> coverage_kept db1 db3.
Proof.
  intros H12 H23 id t H.
  destruct (H12 id t H) as (t2 & H2 & E2).
  destruct (H23 id t2 H2) as (t3 & H3 & E3).
  exists t3. split; [exact H3 | congruence].
Qed.

Lemma coverage_kept_tickets db db' :
  tickets db' = tickets db -> coverage_kept db db'.
Proof. intros E id t H. rewrite E. eauto. Qed.

Lemma coverage_kept_save db db' id t t' :
  tickets db' = <[id := t']> (tickets db) ->
  tickets db !! id = Some t ->
  is_warranty_covered t' = is_warranty_covered t ->
  coverage_kept db db'.
Proof.
  intros Hdb Hid E k u Hk. rewrite Hdb.
  destruct (decide (id = k)) as [<- | Hne].
  - rewrite lookup_insert_eq. exists t'. split; [reflexivity | congruence].
  - rewrite lookup_insert_ne by exact Hne. eauto.
Qed.

Lemma coverage_kept_insert_fresh db t' :
  coverage_kept db
    (with_tickets (<[next_id (tickets db) := t']> (tickets db)) db).
Proof.
  intros k u Hk. unfold with_tickets. cbn [tickets].
  destruct (decide (next_id (tickets db) = k)) as [<- | Hne].
  - rewrite next_id_fresh in Hk. discriminate.
  - rewrite lookup_insert_ne by exact Hne. eauto.
Qed.

(** Steps shared by the proofs about handlers: open the decorators and
    split on what the handler tests. *)
Ltac open_handler :=
  unfold login_required, customer_required, technician_required,
    admin_required.

Ltac split_handler :=
  open_handler; unfold is_authenticated;
  repeat case_match; simplify_eq; cbn [fst snd].

Lemma add_product_coverage req cu db :
  coverage_kept db (add_product req cu db).2.
Proof.
  unfold add_product. split_handler;
    apply coverage_kept_tickets; reflexivity.
Qed.

Lemma raise_ticket_coverage req now number cu db :
  coverage_kept db (raise_ticket req now number cu db).2.
Proof.
  unfold raise_ticket. split_handler;
    first [apply coverage_kept_refl | apply coverage_kept_insert_fresh].
Qed.

Lemma assign_technician_coverage id req now cu db :
  coverage_kept db (assign_technician id req now cu db).2.
Proof.
  unfold assign_technician. split_handler;
    first [ apply coverage_kept_refl
          | eapply coverage_kept_save; [reflexivity | eassumption | reflexivity] ].
Qed.

Lemma update_status_coverage id req now cu db :
  coverage_kept db (update_status id req now cu db).2.
Proof.
  unfold update_status. split_handler;
    first [ apply coverage_kept_refl
          | eapply coverage_kept_save; [reflexivity | eassumption | reflexivity] ].
Qed.

Lemma add_note_coverage id req now cu db :
  coverage_kept db (add_note id req now cu db).2.
Proof.
  unfold add_note. split_handler;
    first [ apply coverage_kept_refl
          | eapply coverage_kept_save; [reflexivity | eassumption | reflexivity] ].
Qed.

Lemma pay_ticket_coverage id req now cu db :
  coverage_kept db (pay_ticket id req now cu db).2.
Proof.
  unfold pay_ticket. split_handler;
    first [ apply coverage_kept_refl
          | eapply coverage_kept_save; [reflexivity | eassumption | reflexivity] ].
Qed.

Lemma add_feedback_coverage id req now cu db :
  coverage_kept db (add_feedback id req now cu db).2.
Proof.
  unfold add_feedback. split_handler;
    first [ apply coverage_kept_refl
          | apply coverage_kept_tickets; reflexivity ].
Qed.

Lemma run_coverage c db : coverage_kept db (run c db).2.
Proof.
  unfold run. destruct (call_op c);
    auto using add_product_coverage, raise_ticket_coverage,
      assign_technician_coverage, update_status_coverage, add_note_coverage,
      pay_ticket_coverage, add_feedback_coverage.
Qed.

(** C1: whatever requests are served after a ticket exists - status
    updates, payments, assignments, notes, feedback, new products and
    new tickets, by any user and at any later time - the ticket is still
    there with the [is_warranty_covered] it had. *)
Theorem is_warranty_covered_snapshot (cs : list Call) (db : DB) :
  forall id t, tickets db !! id = Some t ->
    exists t', tickets (run_all cs db) !! id = Some t'
      /\ is_warranty_covered t' = is_warranty_covered t.
Proof.
  revert db. induction cs as [| c cs IH]; intros db id t H.
  - cbn. eauto.
  - cbn. destruct (run_coverage c db id t H) as (t1 & H1 & E1).
    destruct (IH _ id t1 H1) as (t' & H' & E').
    exists t'. split; [exact H' | congruence].
Qed.

Lemma is_warranty_covered_snapshot_witness :
  let t := Sample.ticket InProgress Medium true false None Sample.t0 in
  let later := 739000 * day_us in
  let cs :=
    [ {| call_user := LoggedIn Sample.tech; call_time := later;
         call_op := UpdateStatus 1
           (POST {| status_data := "completed"; repair_cost_data := Blank |}) |};
      {| call_user := LoggedIn Sample.alice; call_time := later + 1;
         call_op := PayTicket 1 (POST {| upi_id_data := "alice@upi" |}) |} ] in
  warranty_status_at Sample.laptop later = "expired"
  /\ exists t', tickets (run_all cs (Sample.db_with t)) !! 1%nat = Some t'
       /\ is_warranty_covered t' = is_warranty_covered t.
Proof.
  split; [reflexivity |].
  apply (is_warranty_covered_snapshot _ (Sample.db_with _) 1%nat).
  reflexivity.
Defined.

(** ** Status updates (C2, C4, C5) *)

Lemma technician_required_pass u t f db :
  may_update u t ->
  login_required (technician_required f) (LoggedIn u) db = f u db.
Proof.
  intros (Ha & Hd & Hr).
  unfold login_required, technician_required, is_technician, is_admin.
  cbn [is_authenticated]. rewrite Ha, Hd.
  destruct Hr as [-> | [-> _]]; reflexivity.
Qed.

(** A deactivated account is not authenticated: every route under
    [login_required] sends it to the login page and writes nothing. *)
Lemma login_required_deactivated f u db :
  is_active u = false -> login_required f (LoggedIn u) db = (LoginRequired, db).
Proof.
  intros Ha. unfold login_required. cbn [is_authenticated]. rewrite Ha.
  reflexivity.
Qed.

(** The deactivated technician of the samples, on a ticket assigned to
    that account. *)
Example update_status_deactivated_technician :
  let t := Sample.ticket InProgress Medium true false None Sample.t0 in
  let db := Sample.db_with (set_technician_id (Some 4%nat) t) in
  let form := {| status_data := "completed"; repair_cost_data := Blank |} in
  update_status 1 (POST form) (Sample.t0 + 1) (LoggedIn Sample.idle_tech) db
  = (LoginRequired, db).
Proof. reflexivity. Qed.

(** Text of no-break spaces, or of next-line characters, is blank:
    [DataRequired] refuses it. *)
Example blank_text_refused :
  let nbsp := String (ascii_of_nat 160) EmptyString in
  let nel := String (ascii_of_nat 133) EmptyString in
  validate_payment_form {| upi_id_data := nbsp ++ nbsp ++ nbsp |} = false
  /\ validate_add_repair_note_form
       {| note_text_data := nel ++ nel ++ nel ++ nel ++ nel |} = false.
Proof. split; reflexivity. Qed.

Lemma may_update_access u t :
  may_update u t ->
  bool_decide (technician_id t ≠ Some (user_id u)) && negb (is_admin u) = false.
Proof.
  intros (_ & _ & [Hr | [_ Ht]]); unfold is_admin.
  - rewrite Hr. apply andb_false_r.
  - rewrite bool_decide_eq_false_2; [reflexivity | tauto].
Qed.

(** A form that submits 'completed' is valid exactly when its cost
    field is, and its status data is [Completed]. *)
Lemma validate_completed_form form :
  status_data form = "completed" ->
  validate_ticket_status_form form
  = match validate_optional_cost (repair_cost_data form) with
    | Some c => Some (Completed, c)
    | None => None
    end.
Proof.
  intros E. unfold validate_ticket_status_form. rewrite E. reflexivity.
Qed.

(** What [update_status] does once the request passed the access checks
    and the ticket is not completed. *)
Lemma update_status_authorized id t u form now db :
  tickets db !! id = Some t ->
  may_update u t ->
  status t ≠ Completed ->
  update_status id (POST form) now (LoggedIn u) db
  = match validate_ticket_status_form form with
    | None => (Rendered, db)
    | Some (form_status, form_repair_cost) =>
        if bool_decide (form_status = Completed)
           && negb (is_warranty_covered t)
           && is_none form_repair_cost && is_none (repair_cost t)
        then (MissingRepairCost, db)
        else
          let t' :=
            set_updated_at now
              (match form_repair_cost with
               | Some c => set_repair_cost (Some c) (set_status form_status t)
               | None => set_status form_status t
               end) in
          (Success,
           add_activity
             {| log_user_id := user_id u;
                action := "ticket_status_updated";
                resource_type := "ticket";
                resource_id := id;
                changes := StatusChanged (status t) form_status;
                log_created_at := now |}
             (save_ticket id t' db))
    end.
Proof.
  intros Hid Hu Hs. unfold update_status.
  rewrite (technician_required_pass u t) by exact Hu.
  rewrite Hid, (may_update_access u t Hu).
  rewrite (bool_decide_eq_false_2 _ Hs). cbn [andb].
  destruct (validate_ticket_status_form form) as [[fs fc] |]; [| reflexivity].
  destruct (bool_decide (fs = Completed) && negb (is_warranty_covered t)
            && is_none fc && is_none (repair_cost t)) eqn:Hgate;
    [reflexivity |].
  (* the second test of the cost cannot fire after the first passed *)
  destruct fc as [c |]; cbn [set_updated_at set_repair_cost set_status
    is_warranty_covered repair_cost is_none].
  - rewrite !andb_false_r. reflexivity.
  - cbn [is_none] in Hgate. rewrite andb_true_r in Hgate.
    rewrite (bool_decide_eq_true_2 _ Hs). cbn [andb].
    rewrite Hgate. reflexivity.
Qed.

(** Evaluates the test [form.status.data == 'completed'] once the form
    data is known to be [Completed]. *)
Ltac completed_guard :=
  cbn;
  rewrite ?(bool_decide_eq_true_2 (Completed = Completed)) by reflexivity;
  cbn; rewrite ?andb_false_r.

(** A completed ticket is never changed by [update_status]. *)
Lemma update_status_completed id t req now cu db :
  tickets db !! id = Some t ->
  status t = Completed ->
  (update_status id req now cu db).2 = db
  /\ (update_status id req now cu db).1 <> Success.
Proof.
  intros Hid Hs. unfold update_status. open_handler.
  rewrite Hid, (bool_decide_eq_true_2 _ Hs).
  repeat case_match; cbn; split; congruence.
Qed.

(** An update into 'completed' of a paid repair with no cost on the
    ticket and none in the form changes nothing and does not succeed,
    whoever sends it and whatever the ticket's status. *)
Lemma update_status_no_cost id t form now cu db :
  tickets db !! id = Some t ->
  is_warranty_covered t = false ->
  repair_cost t = None ->
  status_data form = "completed" ->
  repair_cost_data form = Blank ->
  (update_status id (POST form) now cu db).2 = db
  /\ (update_status id (POST form) now cu db).1 <> Success.
Proof.
  intros Hid Hc Hcost Hst Hblank.
  destruct (decide (status t = Completed)) as [Hs | Hs].
  { apply update_status_completed with t; assumption. }
  unfold update_status. open_handler.
  rewrite Hid, (bool_decide_eq_false_2 _ Hs).
  rewrite (validate_completed_form form Hst), Hblank, Hc, Hcost. cbn.
  rewrite (bool_decide_eq_true_2 (Completed = Completed)) by reflexivity.
  cbn [andb].
  repeat case_match; cbn; split; congruence.
Qed.

(** C2: completion gate.  For a ticket that is not warranty covered and
    a form that submits 'completed':
    - with no repair cost on the ticket and none in the form, the
      database (hence status, repair_cost and updated_at of the ticket)
      is unchanged and the update does not succeed, and the request of
      the assigned technician or an admin (an account that is active
      and not deleted) on a ticket that is not yet completed is
      answered MissingRepairCost;
    - an update that succeeds leaves the ticket completed with a repair
      cost, the one supplied in the call or else the one already
      present;
    - and with a cost supplied (at least 0) or already present, the
      update of an authorised user does succeed. *)
Theorem completion_gate (id : nat) (t : Ticket) (u : User)
    (form : TicketStatusForm) (now : datetime) (db : DB) :
  tickets db !! id = Some t ->
  is_warranty_covered t = false ->
  status_data form = "completed" ->
  (repair_cost t = None -> repair_cost_data form = Blank ->
     (forall cu, (update_status id (POST form) now cu db).2 = db
                 /\ (update_status id (POST form) now cu db).1 <> Success)
     /\ (may_update u t -> status t ≠ Completed ->
         update_status id (POST form) now (LoggedIn u) db
         = (MissingRepairCost, db)))
  /\ (forall cu db',
        update_status id (POST form) now cu db = (Success, db') ->
        exists t' c,
          tickets db' !! id = Some t' /\ status t' = Completed
          /\ repair_cost t' = Some c
          /\ (repair_cost_data form = Number c
              \/ (repair_cost_data form = Blank /\ repair_cost t = Some c)))
  /\ (forall c,
        may_update u t -> status t ≠ Completed ->
        (repair_cost_data form = Number c /\ Qle_bool 0 c = true)
        \/ (repair_cost_data form = Blank /\ repair_cost t = Some c) ->
        (update_status id (POST form) now (LoggedIn u) db).1 = Success).
Proof.
  intros Hid Hc Hst. split; [| split].
  - intros Hcost Hblank. split.
    + intros cu. apply update_status_no_cost with t; assumption.
    + intros Hu Hs.
      rewrite (update_status_authorized id t u form now db Hid Hu Hs).
      rewrite (validate_completed_form form Hst), Hblank, Hc, Hcost.
      reflexivity.
  - intros cu db' Hrun.
    destruct (decide (status t = Completed)) as [Hs | Hs].
    { destruct (update_status_completed id t (POST form) now cu db Hid Hs)
        as [_ Hne]. rewrite Hrun in Hne. cbn in Hne. congruence. }
    revert Hrun. unfold update_status. open_handler.
    rewrite Hid, (bool_decide_eq_false_2 _ Hs).
    rewrite (validate_completed_form form Hst), Hc.
    destruct cu as [| w]; cbn [is_authenticated]; [congruence |].
    destruct (is_active w) eqn:Hlive; cbn [negb orb]; [| congruence].
    destruct (user_is_deleted w); [congruence |].
    destruct (negb (is_technician w) && negb (is_admin w)); [congruence |].
    destruct (_ && negb (is_admin w)); [congruence |].
    destruct (repair_cost_data form) as [| | x] eqn:Hin; cbn.
    + destruct (repair_cost t) as [c |] eqn:Hcost; completed_guard;
        [| congruence].
      intros [= <-]. eexists _, c. cbn. rewrite lookup_insert_eq.
      repeat split; [exact Hcost | right; split; reflexivity].
    + congruence.
    + destruct (Qle_bool 0 x); completed_guard; [| congruence].
      intros [= <-]. eexists _, x. cbn. rewrite lookup_insert_eq.
      repeat split. left. reflexivity.
  - intros c Hu Hs Hcost.
    rewrite (update_status_authorized id t u form now db Hid Hu Hs).
    rewrite (validate_completed_form form Hst), Hc.
    destruct Hcost as [[-> Hle] | [-> Hcost]]; cbn.
    + rewrite Hle. completed_guard. reflexivity.
    + rewrite Hcost. completed_guard. reflexivity.
Qed.

Lemma completion_gate_witness :
  let t := Sample.ticket InProgress Medium false false None Sample.t0 in
  let form := {| status_data := "completed"; repair_cost_data := Blank |} in
  update_status 1 (POST form) (Sample.t0 + 1) (LoggedIn Sample.tech)
    (Sample.db_with t)
  = (MissingRepairCost, Sample.db_with t).
Proof.
  intros t form.
  refine (proj2 (proj1 (completion_gate 1 t Sample.tech form (Sample.t0 + 1)
                          (Sample.db_with t) _ _ _) _ _) _ _).
  - reflexivity.
  - reflexivity.
  - reflexivity.
  - reflexivity.
  - reflexivity.
  - unfold may_update. cbn. split; [reflexivity |]. split; [reflexivity |].
    right. split; reflexivity.
  - cbn. discriminate.
Defined.

(** C5, as stated, fails for 'rejected' and 'closed': the assigned
    technician moves a rejected ticket, and a closed one, back to
    'in_progress'. *)
Lemma update_status_edits_rejected_and_closed :
  let form := {| status_data := "in_progress"; repair_cost_data := Blank |} in
  let edit s :=
    update_status 1 (POST form) (Sample.t0 + 1) (LoggedIn Sample.tech)
      (Sample.db_with (Sample.ticket s Medium true false None Sample.t0)) in
  ((edit Rejected).1 = Success
   /\ status <$> tickets (edit Rejected).2 !! 1%nat = Some InProgress)
  /\ ((edit Closed).1 = Success
      /\ status <$> tickets (edit Closed).2 !! 1%nat = Some InProgress).
Proof.
  cbv zeta. repeat split; vm_compute; reflexivity.
Qed.

(** C5, as the code has it: once a ticket is 'completed', a status edit
    by its technician (or an admin), an account that is active and not
    deleted, is answered InvalidTransition, and no request to
    [update_status], by anyone, changes the database.
    (Tickets that are 'closed' or 'rejected' stay editable.) *)
Theorem completed_ticket_not_editable (id : nat) (t : Ticket) (u : User)
    (req : Request TicketStatusForm) (now : datetime) (db : DB) :
  tickets db !! id = Some t ->
  status t = Completed ->
  (may_update u t ->
   update_status id req now (LoggedIn u) db = (InvalidTransition, db))
  /\ (forall cu, (update_status id req now cu db).2 = db
                 /\ (update_status id req now cu db).1 <> Success).
Proof.
  intros Hid Hs. split.
  - intros Hu. unfold update_status.
    rewrite (technician_required_pass u t) by exact Hu.
    rewrite Hid, (may_update_access u t Hu), (bool_decide_eq_true_2 _ Hs).
    reflexivity.
  - intros cu. apply update_status_completed with t; assumption.
Qed.

Lemma completed_ticket_not_editable_witness :
  let t := Sample.ticket Completed Medium true false None Sample.t0 in
  let form := {| status_data := "in_progress"; repair_cost_data := Blank |} in
  update_status 1 (POST form) (Sample.t0 + 1) (LoggedIn Sample.tech)
    (Sample.db_with t)
  = (InvalidTransition, Sample.db_with t).
Proof.
  intros t form.
  refine (proj1 (completed_ticket_not_editable 1 t Sample.tech (POST form)
                   (Sample.t0 + 1) (Sample.db_with t) _ _) _).
  - reflexivity.
  - reflexivity.
  - unfold may_update. cbn. split; [reflexivity |]. split; [reflexivity |].
    right. split; reflexivity.
Defined.

(** ** Payment (C3, C4) *)

(** The test [status in ['completed', 'closed']]. *)
Lemma done_status_iff (s : Status) :
  s ∈ [Completed; Closed] <-> s = Completed \/ s = Closed.
Proof.
  rewrite !elem_of_cons, elem_of_nil. tauto.
Qed.

Lemma customer_required_pass u f db :
  is_active u = true -> user_is_deleted u = false -> role u = Customer ->
  login_required (customer_required f) (LoggedIn u) db = f u db.
Proof.
  intros Ha Hd Hr.
  unfold login_required, customer_required, is_admin, is_technician.
  cbn [is_authenticated]. rewrite Ha, Hd, Hr. reflexivity.
Qed.

(** C3, as stated, fails outside {completed, closed}: the owner's
    payment on a warranty-covered ticket that is still 'open' is
    answered InvalidState, not NotApplicable. *)
Lemma pay_ticket_covered_open_ticket :
  let t := Sample.ticket Open Medium true false None Sample.t0 in
  is_warranty_covered t = true
  /\ pay_ticket 1 (POST {| upi_id_data := "alice@upi" |}) (Sample.t0 + 1)
       (LoggedIn Sample.alice) (Sample.db_with t)
     = (InvalidState, Sample.db_with t).
Proof.
  split; reflexivity.
Qed.

(** C3, as the code has it: a payment attempt by the owning customer
    (an account that is active and not deleted) on a warranty-covered
    ticket always fails and leaves the database
    unchanged; it is answered NotApplicable when the ticket's status is
    'completed' or 'closed', and InvalidState for any other status (the
    status is tested first). *)
Theorem pay_ticket_warranty_covered (id : nat) (t : Ticket) (u : User)
    (req : Request PaymentForm) (now : datetime) (db : DB) :
  tickets db !! id = Some t ->
  is_warranty_covered t = true ->
  owns_ticket u t ->
  (status t = Completed \/ status t = Closed ->
   pay_ticket id req now (LoggedIn u) db = (NotApplicable, db))
  /\ (status t ≠ Completed -> status t ≠ Closed ->
      pay_ticket id req now (LoggedIn u) db = (InvalidState, db)).
Proof.
  intros Hid Hc (Ha & Hd & Hr & Ho).
  unfold pay_ticket.
  rewrite (customer_required_pass u) by assumption.
  rewrite Hid, Hc.
  rewrite (bool_decide_eq_false_2 (customer_id t ≠ user_id u)) by tauto.
  split.
  - intros Hs. rewrite bool_decide_eq_true_2; [reflexivity |].
    apply done_status_iff. exact Hs.
  - intros H1 H2. rewrite bool_decide_eq_false_2; [reflexivity |].
    rewrite done_status_iff. tauto.
Qed.

Lemma pay_ticket_warranty_covered_witness :
  let t := Sample.ticket Completed Medium true false None Sample.t0 in
  pay_ticket 1 (POST {| upi_id_data := "alice@upi" |}) (Sample.t0 + 1)
    (LoggedIn Sample.alice) (Sample.db_with t)
  = (NotApplicable, Sample.db_with t).
Proof.
  intros t.
  refine (proj1 (pay_ticket_warranty_covered 1 t Sample.alice _ _ _ _ _ _) _).
  - reflexivity.
  - reflexivity.
  - unfold owns_ticket. cbn. repeat split.
  - left. reflexivity.
Defined.

Lemma select_choice_label {A} (label : A -> string) choices raw c :
  select_choice label choices raw = Some c -> label c = raw.
Proof.
  unfold select_choice. intros H.
  apply List.find_some in H as [_ H]. apply String.eqb_eq in H. exact H.
Qed.

(** What a successful [update_status] stores. *)
Lemma update_status_success id t req now cu db db' :
  tickets db !! id = Some t ->
  update_status id req now cu db = (Success, db') ->
  status t ≠ Completed
  /\ exists form new_status t',
       req = POST form
       /\ status_data form = status_label new_status
       /\ tickets db' !! id = Some t'
       /\ status t' = new_status
       /\ is_paid t' = is_paid t
       /\ activity_logs db' =
          (activity_logs db ++
            [{| log_user_id :=
                  match cu with LoggedIn u => user_id u | Anonymous => 0%nat end;
                action := "ticket_status_updated";
                resource_type := "ticket";
                resource_id := id;
                changes := StatusChanged (status t) new_status;
                log_created_at := now |}])%list.
Proof.
  intros Hid. unfold update_status. open_handler. rewrite Hid.
  destruct cu as [| u]; cbn [is_authenticated]; [congruence |].
  destruct (is_active u) eqn:Hlive; cbn [negb orb]; [| congruence].
  destruct (user_is_deleted u); [congruence |].
  destruct (_ && negb (is_admin u)); [congruence |].
  destruct (_ && negb (is_admin u)); [congruence |].
  case_bool_decide as Hs; [congruence |].
  destruct req as [| form]; [congruence |].
  destruct (validate_ticket_status_form form) as [[fs fc] |] eqn:Hv;
    [| congruence].
  destruct (_ && is_none (repair_cost t)); [congruence |].
  match goal with |- (if ?b then _ else _) = _ -> _ => destruct b end;
    [congruence |].
  intros [= <-]. split; [exact Hs |].
  exists form, fs. eexists. split; [reflexivity |].
  split.
  { unfold validate_ticket_status_form in Hv.
    destruct (select_choice _ _ _) as [s |] eqn:Hsel; [| congruence].
    destruct (validate_optional_cost _); [| congruence].
    injection Hv as -> _. symmetry.
    apply (select_choice_label _ _ _ _ Hsel). }
  split; [cbn; apply lookup_insert_eq |].
  destruct fc; repeat split.
Qed.

(** C4, as stated, fails: 'closed' is one of the choices of the status
    form, and the assigned technician closes a paid repair that is in
    progress without any payment. *)
Lemma update_status_closes_paid_repair :
  let t := Sample.ticket InProgress Medium false false None Sample.t0 in
  let form := {| status_data := "closed"; repair_cost_data := Blank |} in
  let r := update_status 1 (POST form) (Sample.t0 + 1) (LoggedIn Sample.tech)
             (Sample.db_with t) in
  is_warranty_covered t = false
  /\ r.1 = Success
  /\ status <$> tickets r.2 !! 1%nat = Some Closed
  /\ is_paid <$> tickets r.2 !! 1%nat = Some false.
Proof.
  cbv zeta. repeat split; vm_compute; reflexivity.
Qed.

(** C4, as the code has it, for a ticket that is not warranty covered:
    - a successful payment leaves the ticket with [is_paid = true] and
      status 'closed', and the valid payment of the owner (an account
      that is active and not deleted) on an unpaid completed or closed
      ticket does succeed;
    - while the ticket is 'completed', no request to [update_status]
      changes it, so of the two operations only the payment closes a
      completed ticket;
    - a status update that leaves the ticket 'closed' is one that
      submitted 'closed' on a ticket that was not 'completed', and it
      leaves [is_paid] as it was. *)
Theorem closing_a_paid_repair (id : nat) (t : Ticket) (now : datetime)
    (db : DB) :
  tickets db !! id = Some t ->
  is_warranty_covered t = false ->
  (forall req cu db',
      pay_ticket id req now cu db = (Success, db') ->
      exists t', tickets db' !! id = Some t'
        /\ is_paid t' = true /\ status t' = Closed)
  /\ (forall u form,
        owns_ticket u t -> status t = Completed \/ status t = Closed ->
        is_paid t = false -> validate_payment_form form = true ->
        (pay_ticket id (POST form) now (LoggedIn u) db).1 = Success)
  /\ (status t = Completed ->
      forall req cu, (update_status id req now cu db).2 = db)
  /\ (forall req cu db' t',
        update_status id req now cu db = (Success, db') ->
        tickets db' !! id = Some t' -> status t' = Closed ->
        status t ≠ Completed /\ is_paid t' = is_paid t
        /\ exists form, req = POST form /\ status_data form = "closed").
Proof.
  intros Hid Hc. repeat apply conj.
  - intros req cu db'. unfold pay_ticket. open_handler. rewrite Hid.
    repeat case_match; try congruence.
    intros [= <-]. eexists. split; [cbn; apply lookup_insert_eq |].
    split; reflexivity.
  - intros u form (Ha & Hd & Hr & Ho) Hs Hp Hv.
    unfold pay_ticket.
    rewrite (customer_required_pass u) by assumption.
    rewrite Hid, Hc, Hp, Hv.
    rewrite (bool_decide_eq_false_2 (customer_id t ≠ user_id u)) by tauto.
    rewrite (bool_decide_eq_true_2 (status t ∈ [Completed; Closed]))
      by (apply done_status_iff; exact Hs).
    reflexivity.
  - intros Hs req cu.
    apply (update_status_completed id t req now cu db Hid Hs).
  - intros req cu db' t' Hrun Hid' Hs'.
    destruct (update_status_success id t req now cu db db' Hid Hrun)
      as (Hs & form & ns & t1 & -> & Hlab & Ht1 & Hst & Hpaid & _).
    rewrite Hid' in Ht1. injection Ht1 as <-.
    split; [exact Hs |]. split; [exact Hpaid |].
    exists form. split; [reflexivity |].
    rewrite Hlab, <- Hst, Hs'. reflexivity.
Qed.

Lemma closing_a_paid_repair_witness :
  let t := Sample.ticket Completed Medium false false (Some 250%Q) Sample.t0 in
  (pay_ticket 1 (POST {| upi_id_data := "alice@upi" |}) (Sample.t0 + 1)
     (LoggedIn Sample.alice) (Sample.db_with t)).1 = Success.
Proof.
  intros t.
  refine (proj1 (proj2 (closing_a_paid_repair 1 t (Sample.t0 + 1)
                          (Sample.db_with t) _ _)) Sample.alice _ _ _ _ _).
  - reflexivity.
  - reflexivity.
  - unfold owns_ticket. cbn. repeat split.
  - left. reflexivity.
  - reflexivity.
  - reflexivity.
Defined.

(** ** Assignment (C6) *)

Lemma technician_candidates_spec (db : DB) (w : User) :
  w ∈ technician_candidates db
  <-> w ∈ users db /\ role w = Technician /\ is_active w = true
      /\ user_is_deleted w = false.
Proof.
  unfold technician_candidates. rewrite list_elem_of_filter. tauto.
Qed.

Lemma validate_select_id_Some choices data n :
  validate_select_id choices data = Some n <->
  data = Some n /\ n ≠ 0%nat /\ n ∈ choices.
Proof.
  unfold validate_select_id. destruct data as [m |]; [| split; [congruence | tauto]].
  destruct (Nat.eqb_spec m 0) as [E | E]; cbn.
  - split; [congruence |]. intros ([= ->] & H & _). contradiction.
  - case_bool_decide as Hin.
    + split.
      * intros [= <-]. auto.
      * intros ([= ->] & _). reflexivity.
    + split; [congruence |]. intros ([= ->] & _ & H). contradiction.
Qed.

(** C6, as stated, fails past 'open': assigning a technician to a
    ticket that is waiting for parts resets its status to
    'in_progress'. *)
Lemma assign_technician_resets_status :
  let t := Sample.ticket WaitingForParts Medium true false None Sample.t0 in
  let r := assign_technician 1 (POST {| technician_id_data := Some 2%nat |})
             (Sample.t0 + 1) (LoggedIn Sample.root) (Sample.db_with t) in
  r.1 = Success
  /\ status <$> tickets r.2 !! 1%nat = Some InProgress
  /\ status <$> tickets r.2 !! 1%nat <> Some (status t).
Proof.
  cbv zeta. repeat split; vm_compute; [reflexivity .. | discriminate].
Qed.

(** C6, as the code has it.  A successful [assign_technician]:
    - stores the chosen technician on the ticket and sets the status to
      'in_progress' whatever it was (an 'open' ticket moves to
      'in_progress', one already in progress stays so, any other status
      is reset to 'in_progress');
    - appends exactly one ActivityLog entry, with action
      'ticket_assigned';
    - the chosen technician is one of the candidates, and the
      candidates are exactly the users with role technician that are
      active and not deleted;
    and the request of an admin (an account that is active and not
    deleted) that names a candidate does succeed. *)
Theorem assign_technician_success (id : nat) (t : Ticket)
    (req : Request AssignTechnicianForm) (now : datetime) (cu : CurrentUser)
    (db : DB) :
  tickets db !! id = Some t ->
  (forall db',
      assign_technician id req now cu db = (Success, db') ->
      exists admin tech t',
        cu = LoggedIn admin
        /\ req = POST {| technician_id_data := Some (user_id tech) |}
        /\ tech ∈ technician_candidates db
        /\ tickets db' !! id = Some t'
        /\ technician_id t' = Some (user_id tech)
        /\ status t' = InProgress
        /\ activity_logs db' =
           (activity_logs db ++
             [{| log_user_id := user_id admin;
                 action := "ticket_assigned";
                 resource_type := "ticket";
                 resource_id := id;
                 changes := AssignedTo (user_id tech);
                 log_created_at := now |}])%list)
  /\ (forall w, w ∈ technician_candidates db
        <-> w ∈ users db /\ role w = Technician /\ is_active w = true
            /\ user_is_deleted w = false)
  /\ (forall admin tech,
        cu = LoggedIn admin -> acts_as_admin admin -> is_deleted t = false ->
        tech ∈ technician_candidates db -> user_id tech ≠ 0%nat ->
        req = POST {| technician_id_data := Some (user_id tech) |} ->
        (assign_technician id req now cu db).1 = Success).
Proof.
  intros Hid. repeat apply conj.
  - intros db'. unfold assign_technician. open_handler. rewrite Hid.
    destruct cu as [| admin]; cbn [is_authenticated]; [congruence |].
    destruct (is_active admin) eqn:Hlive; cbn [negb orb]; [| congruence].
    destruct (user_is_deleted admin); [congruence |].
    destruct (negb (is_admin admin)); [congruence |].
    destruct (is_deleted t); [congruence |].
    destruct req as [| form]; [congruence |].
    destruct (validate_select_id _ _) as [n |] eqn:Hv; [| congruence].
    apply validate_select_id_Some in Hv as (Hdata & _ & Hin).
    apply list_elem_of_fmap in Hin as (tech & -> & Hin).
    intros [= <-]. exists admin, tech. eexists.
    split; [reflexivity |].
    split; [destruct form; cbn in Hdata; congruence |].
    split; [exact Hin |].
    split; [cbn; apply lookup_insert_eq |].
    repeat split.
  - apply technician_candidates_spec.
  - intros admin tech -> (Ha & Hd & Hr) Hdel Hin Hnz ->.
    unfold assign_technician, login_required, admin_required, is_admin.
    cbn [is_authenticated]. rewrite Ha, Hd, Hr, Hid, Hdel. cbn [bool_decide negb technician_id_data].
    assert (Hv : validate_select_id (user_id <$> technician_candidates db)
                   (Some (user_id tech)) = Some (user_id tech)).
    { apply validate_select_id_Some. repeat split; [exact Hnz |].
      apply list_elem_of_fmap. eauto. }
    rewrite Hv. reflexivity.
Qed.

Lemma assign_technician_success_witness :
  let t := Sample.ticket Open Medium true false None Sample.t0 in
  (assign_technician 1 (POST {| technician_id_data := Some 2%nat |})
     (Sample.t0 + 1) (LoggedIn Sample.root) (Sample.db_with t)).1 = Success.
Proof.
  intros t.
  refine (proj2 (proj2 (assign_technician_success 1 t _ (Sample.t0 + 1)
                          (LoggedIn Sample.root) (Sample.db_with t) _))
            Sample.root Sample.tech _ _ _ _ _ _).
  - reflexivity.
  - reflexivity.
  - repeat split.
  - reflexivity.
  - apply technician_candidates_spec. cbn.
    split; [| repeat split]. apply elem_of_cons. right.
    apply elem_of_cons. left. reflexivity.
  - cbn. discriminate.
  - reflexivity.
Defined.

(** ** Ticket creation (C7) *)

Lemma product_choices_spec (u : User) (db : DB) (pid : nat) :
  pid ∈ product_choices u db <->
  exists p, products db !! pid = Some p
    /\ product_user_id p = user_id u /\ product_is_deleted p = false.
Proof.
  unfold product_choices. rewrite list_elem_of_fmap. split.
  - intros ([k p] & -> & Hin).
    apply list_elem_of_filter in Hin as [[Ho Hd] Hin].
    apply elem_of_rows in Hin. exists p. auto.
  - intros (p & Hp & Ho & Hd). exists (pid, p). split; [reflexivity |].
    apply list_elem_of_filter. split; [split; assumption |].
    apply elem_of_rows. exact Hp.
Qed.

Lemma validate_ticket_form_Some choices form pid desc prio rt :
  validate_ticket_form choices form = Some (pid, desc, prio, rt) ->
  pid ∈ choices
  /\ priority_label prio = priority_data form
  /\ repair_type_label rt = repair_type_data form.
Proof.
  unfold validate_ticket_form.
  destruct (validate_select_id _ _) as [n |] eqn:Hn; [| congruence].
  destruct (select_choice priority_label _ _) as [p |] eqn:Hp; [| congruence].
  destruct (select_choice repair_type_label _ _) as [r |] eqn:Hr;
    [| congruence].
  destruct (_ && _); [| congruence].
  intros [= <- <- <- <-].
  apply validate_select_id_Some in Hn as (_ & _ & Hin).
  split; [exact Hin |].
  split; [exact (select_choice_label _ _ _ _ Hp)
         | exact (select_choice_label _ _ _ _ Hr)].
Qed.

(** C7: for a ticket-creation request of a customer (an account that
    is active and not deleted) whose form validates (so that the product is one of the customer's own):
    - if the customer selected 'warranty' while the product's warranty
      expiry is in the past, the answer is PolicyViolation and the
      database is unchanged (no ticket is created);
    - otherwise a ticket is created under a key that was free (unless
      the drawn ticket number is already taken, which rolls the insert
      back): the new table holds it under that key and every other row
      as before, its [is_warranty_covered] is true exactly when the
      choice was 'warranty' and the product was not expired at creation
      time, and its status is 'open'. *)
Theorem raise_ticket_snapshot (u : User) (form : TicketForm) (now : datetime)
    (number : string) (db : DB) (pid : nat) (desc : string) (prio : Priority)
    (rt : RepairType) :
  acts_as_customer u ->
  validate_ticket_form (product_choices u db) form
  = Some (pid, desc, prio, rt) ->
  exists product,
    products db !! pid = Some product
    /\ repair_type_label rt = repair_type_data form
    /\ (rt = Warranty /\ warranty_expiry product < now ->
        raise_ticket (POST form) now number (LoggedIn u) db
        = (PolicyViolation, db))
    /\ (~ (rt = Warranty /\ warranty_expiry product < now) ->
        number ∉ (ticket_number ∘ snd) <$> rows (tickets db) ->
        exists id t db',
          raise_ticket (POST form) now number (LoggedIn u) db
          = (Created id, db')
          /\ tickets db !! id = None
          /\ tickets db' !! id = Some t
          /\ (forall k, k ≠ id -> tickets db' !! k = tickets db !! k)
          /\ products db' = products db
          /\ status t = Open
          /\ (is_warranty_covered t = true
              <-> rt = Warranty /\ ~ warranty_expiry product < now)
          /\ customer_id t = user_id u /\ product_id t = pid
          /\ is_paid t = false)
    /\ (~ (rt = Warranty /\ warranty_expiry product < now) ->
        number ∈ (ticket_number ∘ snd) <$> rows (tickets db) ->
        raise_ticket (POST form) now number (LoggedIn u) db
        = (RolledBack, db)).
Proof.
  intros (Ha & Hd & Hr) Hv.
  destruct (validate_ticket_form_Some _ _ _ _ _ _ Hv) as (Hin & _ & Hrt).
  apply product_choices_spec in Hin as (product & Hp & Ho & _).
  exists product. split; [exact Hp |]. split; [exact Hrt |].
  unfold raise_ticket.
  rewrite (customer_required_pass u) by assumption.
  rewrite Hv, Hp.
  rewrite (bool_decide_eq_false_2 (product_user_id product ≠ user_id u))
    by tauto.
  destruct (Z.ltb_spec (warranty_expiry product) now) as [Hexp | Hok];
    destruct rt; cbn [andb negb].
  all: rewrite ?(bool_decide_eq_true_2 (Warranty = Warranty)) by reflexivity.
  all: rewrite ?(bool_decide_eq_false_2 (Paid = Warranty)) by discriminate.
  all: repeat apply conj.
  all: try (intros [? ?]; first [reflexivity | discriminate | lia]).
  all: try (intros Hn Hnum; exfalso; apply Hn; split; [reflexivity | lia]).
  all: intros _ Hnum.
  all: try (rewrite (bool_decide_eq_true_2 _ Hnum); reflexivity).
  all: rewrite (bool_decide_eq_false_2 _ Hnum).
  all: eexists _, _, _; split; [reflexivity |].
  all: split; [apply next_id_fresh |].
  all: split; [cbn; apply lookup_insert_eq |].
  all: split; [intros k Hk; cbn; apply lookup_insert_ne; congruence |].
  all: cbn; repeat apply conj; try reflexivity.
  all: try (intros [? ?]; first [discriminate | lia]).
  all: try discriminate.
  all: intros _; split; [reflexivity | lia].
Qed.

Lemma raise_ticket_snapshot_witness :
  let db := Sample.db_with
              (Sample.ticket Open Medium true false None Sample.t0) in
  exists id t db',
    raise_ticket (POST Sample.ticket_form) Sample.t0 "TKT-20211202-FFFFFF"
      (LoggedIn Sample.alice) db
    = (Created id, db')
    /\ tickets db' !! id = Some t
    /\ status t = Open /\ is_warranty_covered t = true.
Proof.
  intros db.
  destruct (raise_ticket_snapshot Sample.alice Sample.ticket_form Sample.t0
              "TKT-20211202-FFFFFF" db 1%nat
              "Screen flickers after ten minutes" High Warranty)
    as (product & Hp & _ & _ & Hcreate & _).
  - repeat split.
  - vm_compute. reflexivity.
  - assert (Hlaptop : product = Sample.laptop).
    { assert (E : Some Sample.laptop = Some product)
        by (rewrite <- Hp; reflexivity).
      injection E as <-. reflexivity. }
    subst product.
    destruct Hcreate as (id & t & db' & Hrun & _ & Hnew & _ & _ & Hs & Hcov & _).
    + intros [_ Hlt]. vm_compute in Hlt. discriminate.
    + apply (bool_decide_unpack _). vm_compute. exact I.
    + exists id, t, db'. split; [exact Hrun |]. split; [exact Hnew |].
      split; [exact Hs |].
      apply Hcov. split; [reflexivity |].
      intros Hlt. vm_compute in Hlt. discriminate.
Defined.

(** ** The technician's listing (C9) *)

Global Instance listing_order_total : Total listing_order.
Proof.
  intros [i a] [j b]. unfold listing_order, listing_le. cbn [snd].
  destruct (priority a), (priority b); cbn;
    try (left; reflexivity); try (right; reflexivity);
    destruct (Z.leb_spec (created_at a) (created_at b));
    [left | right | left | right | left | right | left | right];
    first [reflexivity | apply Z.leb_le; lia].
Qed.

(** The listing is sorted by the order that the database applies. *)
Lemma listing_sorted (l : list (nat * Ticket)) :
  Sorted listing_order (merge_sort listing_order l).
Proof. apply Sorted_merge_sort; apply _. Qed.

(** That order compares the labels of the priorities as strings:
    a 'low' ticket precedes a 'high' one, whenever they were raised. *)
Lemma listing_low_before_high (r1 r2 : nat * Ticket) :
  priority r1.2 = Low -> priority r2.2 = High ->
  listing_le r1 r2 = true /\ listing_le r2 r1 = false.
Proof.
  intros H1 H2. unfold listing_le. rewrite H1, H2. split; reflexivity.
Qed.

(** C9 on the code: with one ticket of each priority assigned to the
    technician, the first page lists them urgent, medium, low, high -
    the descending order of the labels - so the 'high' ticket, raised
    first, comes last, behind 'medium' and 'low'. *)
Theorem technician_tickets_label_order :
  fmap (M := list) (fun r => (r.1, priority r.2))
    <$> technician_tickets 1 "" "" Sample.tech Sample.triage_db
  = Some [(4%nat, Urgent); (3%nat, Medium); (2%nat, Low); (1%nat, High)].
Proof. vm_compute. reflexivity. Qed.

(** ** Feedback (C10) *)

Lemma find_feedback_None (id : nat) (l : list Feedback) :
  (forall f, f ∈ l -> feedback_ticket_id f ≠ id) ->
  List.find (fun f => (feedback_ticket_id f =? id)%nat) l = None.
Proof.
  induction l as [| f l IH]; intros H; [reflexivity |].
  cbn. destruct (Nat.eqb_spec (feedback_ticket_id f) id) as [E | _].
  - exfalso. apply (H f); [apply elem_of_cons; left; reflexivity | exact E].
  - apply IH. intros g Hg. apply H. apply elem_of_cons. right. exact Hg.
Qed.

(** [add_feedback] reads the owner and the status of the ticket, and
    the feedback table: its answer is the same on two databases that
    agree on these, whatever [is_paid] is in either. *)
Lemma add_feedback_is_paid_irrelevant id t t2 req now cu db db2 :
  tickets db !! id = Some t ->
  tickets db2 !! id = Some t2 ->
  customer_id t2 = customer_id t -> status t2 = status t ->
  feedback db2 = feedback db ->
  (add_feedback id req now cu db2).1 = (add_feedback id req now cu db).1.
Proof.
  intros Hid Hid2 Hc Hs Hf. unfold add_feedback. open_handler.
  rewrite Hid, Hid2, Hc, Hs, Hf.
  repeat case_match; reflexivity.
Qed.

(** C10: for a ticket owned by the calling customer (an account that
    is active and not deleted), with status
    'completed' or 'closed' and no feedback yet, a valid feedback form
    is accepted and the feedback row is appended to the feedback table,
    the tickets staying as they are - whatever [is_warranty_covered]
    and [is_paid] are, in particular for a paid repair that is still
    unpaid; and the answer of [add_feedback] to any request is the same
    on every database that agrees on the ticket's owner and status and
    on the feedback table, so it does not depend on [is_paid]. *)
Theorem add_feedback_without_payment (id : nat) (t : Ticket) (u : User)
    (form : FeedbackForm) (r : Z) (c : string) (now : datetime) (db : DB) :
  tickets db !! id = Some t ->
  owns_ticket u t ->
  status t = Completed \/ status t = Closed ->
  (forall f, f ∈ feedback db -> feedback_ticket_id f ≠ id) ->
  validate_feedback_form form = Some (r, c) ->
  (exists db',
      add_feedback id (POST form) now (LoggedIn u) db = (Success, db')
      /\ feedback db' =
         (feedback db ++
           [{| feedback_ticket_id := id; feedback_user_id := user_id u;
               rating := r; comment := c; feedback_created_at := now |}])%list
      /\ tickets db' = tickets db)
  /\ (forall req cu db2 t2,
        tickets db2 !! id = Some t2 ->
        customer_id t2 = customer_id t -> status t2 = status t ->
        feedback db2 = feedback db ->
        (add_feedback id req now cu db2).1 = (add_feedback id req now cu db).1).
Proof.
  intros Hid (Ha & Hd & Hr & Ho) Hs Hnone Hv. split.
  - eexists. split.
    + unfold add_feedback.
      rewrite (customer_required_pass u) by assumption.
      rewrite Hid.
      rewrite (bool_decide_eq_false_2 (customer_id t ≠ user_id u)) by tauto.
      rewrite (bool_decide_eq_true_2 (status t ∈ [Completed; Closed]))
        by (apply done_status_iff; exact Hs).
      rewrite (find_feedback_None id (feedback db) Hnone), Hv.
      reflexivity.
    + split; reflexivity.
  - intros req cu db2 t2 Hid2 Hc Hst Hf.
    exact (add_feedback_is_paid_irrelevant _ _ _ _ _ _ _ _ Hid Hid2 Hc Hst Hf).
Qed.

Lemma add_feedback_without_payment_witness :
  let t := Sample.ticket Completed Medium false false (Some 250%Q) Sample.t0 in
  is_warranty_covered t = false /\ is_paid t = false
  /\ exists db',
       add_feedback 1 (POST Sample.feedback_form) (Sample.t0 + 1)
         (LoggedIn Sample.alice) (Sample.db_with t) = (Success, db')
       /\ feedback db' =
          [{| feedback_ticket_id := 1; feedback_user_id := 1;
              rating := 5; comment := "Quick repair";
              feedback_created_at := Sample.t0 + 1 |}].
Proof.
  intros t. split; [reflexivity |]. split; [reflexivity |].
  destruct (proj1 (add_feedback_without_payment 1 t Sample.alice
                     Sample.feedback_form 5 "Quick repair" (Sample.t0 + 1)
                     (Sample.db_with t) eq_refl
                     (conj eq_refl (conj eq_refl (conj eq_refl eq_refl)))
                     (or_introl eq_refl)
                     (fun f Hf _ => proj1 (elem_of_nil f) Hf)
                     eq_refl))
    as (db' & Hrun & Hfb & _).
  exists db'. split; [exact Hrun | exact Hfb].
Defined.

(** ** Every request commits one write or nothing *)

Lemma validate_product_form_Some form d m :
  validate_product_form form = Some (d, m) ->
  purchase_date_data form = Some d /\ warranty_months_data form = Some m
  /\ 1 <= m <= 120.
Proof.
  unfold validate_product_form.
  destruct (purchase_date_data form), (warranty_months_data form);
    try congruence.
  destruct (_ && _) eqn:Hb; [| congruence].
  intros [= <- <-].
  repeat (apply andb_prop in Hb as [Hb ?]).
  repeat split; lia.
Qed.

Ltac leaves :=
  right; split; [intros [? | [? ?]]; discriminate | reflexivity].

Lemma add_product_write req cu db :
  commits_or_leaves (add_product req cu db) db.
Proof.
  unfold add_product. open_handler.
  destruct cu as [| u]; cbn [is_authenticated]; [leaves |].
  destruct (is_active u) eqn:Hlive; cbn [negb orb]; [| leaves].
  destruct (user_is_deleted u); [leaves |].
  destruct (is_admin u); [leaves |].
  destruct (is_technician u); [leaves |].
  destruct req as [| form]; [leaves |].
  destruct (validate_product_form form) as [[purchase months] |] eqn:Hv;
    [| leaves].
  destruct (compute_expiry purchase months) as [expiry |] eqn:He; [| leaves].
  case_bool_decide as Hs; [leaves |].
  left. split; [right; eexists; reflexivity |].
  apply validate_product_form_Some in Hv as (_ & _ & Hm).
  apply Write_add_product; cbn;
    [exact Hs | exact (datetime_add_Some _ _ _ He) | exact Hm | reflexivity].
Qed.

Lemma raise_ticket_write req now number cu db :
  commits_or_leaves (raise_ticket req now number cu db) db.
Proof.
  unfold raise_ticket. open_handler.
  destruct cu as [| u]; cbn [is_authenticated]; [leaves |].
  destruct (is_active u) eqn:Hlive; cbn [negb orb]; [| leaves].
  destruct (user_is_deleted u); [leaves |].
  destruct (is_admin u); [leaves |].
  destruct (is_technician u); [leaves |].
  destruct req as [| form]; [leaves |].
  destruct (validate_ticket_form _ form) as [[[[pid desc] prio] rt] |];
    [| leaves].
  destruct (products db !! pid) as [product |]; [| leaves].
  case_bool_decide; [leaves |].
  destruct (_ && bool_decide (rt = Warranty)); [leaves |].
  case_bool_decide as Hn; [leaves |].
  left. split; [right; eexists; reflexivity |].
  apply Write_raise_ticket; cbn; first [exact Hn | reflexivity].
Qed.

Lemma assign_technician_write id req now cu db :
  commits_or_leaves (assign_technician id req now cu db) db.
Proof.
  unfold assign_technician. open_handler.
  destruct cu as [| u]; cbn [is_authenticated]; [leaves |].
  destruct (is_active u) eqn:Hlive; cbn [negb orb]; [| leaves].
  destruct (user_is_deleted u); [leaves |].
  destruct (negb (is_admin u)); [leaves |].
  destruct (tickets db !! id) as [t |] eqn:Hid; [| leaves].
  destruct (is_deleted t); [leaves |].
  destruct req as [| form]; [leaves |].
  destruct (validate_select_id _ _) as [n |]; [| leaves].
  left. split; [left; reflexivity |].
  eapply Write_assign; [exact Hid | reflexivity | reflexivity].
Qed.

Lemma update_status_write id req now cu db :
  commits_or_leaves (update_status id req now cu db) db.
Proof.
  unfold update_status. open_handler.
  destruct cu as [| u]; cbn [is_authenticated]; [leaves |].
  destruct (is_active u) eqn:Hlive; cbn [negb orb]; [| leaves].
  destruct (user_is_deleted u); [leaves |].
  destruct (_ && negb (is_admin u)); [leaves |].
  destruct (tickets db !! id) as [t |] eqn:Hid; [| leaves].
  destruct (_ && negb (is_admin u)); [leaves |].
  case_bool_decide as Hs; [leaves |].
  destruct req as [| form]; [leaves |].
  destruct (validate_ticket_status_form form) as [[fs fc] |]; [| leaves].
  destruct (_ && is_none (repair_cost t)); [leaves |].
  match goal with
  | |- commits_or_leaves (if ?b then _ else _) _ => destruct b
  end; [leaves |].
  left. split; [left; reflexivity |].
  eapply Write_update_status;
    [exact Hid | exact Hs | reflexivity | reflexivity].
Qed.

Lemma add_note_write id req now cu db :
  commits_or_leaves (add_note id req now cu db) db.
Proof.
  unfold add_note. open_handler.
  destruct cu as [| u]; cbn [is_authenticated]; [leaves |].
  destruct (is_active u) eqn:Hlive; cbn [negb orb]; [| leaves].
  destruct (user_is_deleted u); [leaves |].
  destruct (_ && negb (is_admin u)); [leaves |].
  destruct (tickets db !! id) as [t |] eqn:Hid; [| leaves].
  destruct (_ && negb (is_admin u)); [leaves |].
  destruct req as [| form]; [leaves |].
  destruct (validate_add_repair_note_form form); [| leaves].
  left. split; [left; reflexivity |].
  eapply Write_note; [exact Hid | reflexivity].
Qed.

Lemma pay_ticket_write id req now cu db :
  commits_or_leaves (pay_ticket id req now cu db) db.
Proof.
  unfold pay_ticket. open_handler.
  destruct cu as [| u]; cbn [is_authenticated]; [leaves |].
  destruct (is_active u) eqn:Hlive; cbn [negb orb]; [| leaves].
  destruct (user_is_deleted u); [leaves |].
  destruct (is_admin u); [leaves |].
  destruct (is_technician u); [leaves |].
  destruct (tickets db !! id) as [t |] eqn:Hid; [| leaves].
  case_bool_decide; [leaves |].
  case_bool_decide as Hs; cbn [negb]; [| leaves].
  destruct (is_warranty_covered t) eqn:Hc; [leaves |].
  destruct (is_paid t) eqn:Hp; [leaves |].
  destruct req as [| form]; [leaves |].
  destruct (validate_payment_form form); [| leaves].
  left. split; [left; reflexivity |].
  eapply Write_pay;
    [exact Hid | exact Hc | exact Hp | apply done_status_iff; exact Hs
    | reflexivity | reflexivity].
Qed.

Lemma find_feedback_Some_None (id : nat) (l : list Feedback) :
  List.find (fun f => (feedback_ticket_id f =? id)%nat) l = None ->
  forall g, g ∈ l -> feedback_ticket_id g ≠ id.
Proof.
  intros H g Hg E.
  apply list_elem_of_In in Hg.
  pose proof (List.find_none _ _ H g Hg) as Hf. cbn in Hf.
  apply Nat.eqb_neq in Hf. contradiction.
Qed.

Lemma add_feedback_write id req now cu db :
  commits_or_leaves (add_feedback id req now cu db) db.
Proof.
  unfold add_feedback. open_handler.
  destruct cu as [| u]; cbn [is_authenticated]; [leaves |].
  destruct (is_active u) eqn:Hlive; cbn [negb orb]; [| leaves].
  destruct (user_is_deleted u); [leaves |].
  destruct (is_admin u); [leaves |].
  destruct (is_technician u); [leaves |].
  destruct (tickets db !! id) as [t |] eqn:Hid; [| leaves].
  case_bool_decide as Ho; [leaves |].
  case_bool_decide as Hs; cbn [negb]; [| leaves].
  destruct (List.find _ (feedback db)) eqn:Hf; cbn [is_none negb]; [leaves |].
  destruct req as [| form]; [leaves |].
  destruct (validate_feedback_form form) as [[r c] |]; [| leaves].
  left. split; [left; reflexivity |].
  eapply Write_feedback; cbn.
  - exact Hid.
  - apply done_status_iff. exact Hs.
  - destruct (decide (customer_id t = user_id u)); [assumption | tauto].
  - apply find_feedback_Some_None. exact Hf.
Qed.

Lemma edit_product_write id req cu db :
  commits_or_leaves (edit_product id req cu db) db.
Proof.
  unfold edit_product. open_handler.
  destruct cu as [| u]; cbn [is_authenticated]; [leaves |].
  destruct (is_active u) eqn:Hlive; cbn [negb orb]; [| leaves].
  destruct (user_is_deleted u); [leaves |].
  destruct (is_admin u); [leaves |].
  destruct (is_technician u); [leaves |].
  destruct (products db !! id) as [p |] eqn:Hid; [| leaves].
  case_bool_decide; [leaves |].
  destruct req as [| form]; [leaves |].
  destruct (validate_product_form form) as [[purchase months] |] eqn:Hv;
    [| leaves].
  destruct (_ && _) eqn:Htaken; [leaves |].
  destruct (compute_expiry purchase months) as [expiry |] eqn:He; [| leaves].
  left. split; [left; reflexivity |].
  apply validate_product_form_Some in Hv as (_ & _ & Hm).
  eapply Write_edit_product; cbn;
    [ exact Hid | | exact (datetime_add_Some _ _ _ He) | exact Hm
    | reflexivity | reflexivity ].
  apply andb_false_iff in Htaken as [Hsame | Hfind].
  - left. apply bool_decide_eq_false in Hsame.
    destruct (decide (serial_number p = serial_number_data form));
      [congruence | tauto].
  - destruct (List.find _ (rows (products db))) as [existing |] eqn:Hf.
    + apply bool_decide_eq_false in Hfind.
      apply List.find_some in Hf as [Hin Heq].
      apply list_elem_of_In in Hin. destruct existing as [k q].
      apply elem_of_rows in Hin. cbn in Hfind, Heq.
      assert (k = id) by (destruct (decide (k = id)); [assumption | tauto]).
      subst k. rewrite Hid in Hin. injection Hin as <-.
      apply String.eqb_eq in Heq. left. symmetry. exact Heq.
    + right. intros k q Hk E.
      apply elem_of_rows, list_elem_of_In in Hk.
      pose proof (List.find_none _ _ Hf (k, q) Hk) as Hne. cbn in Hne.
      apply String.eqb_neq in Hne. contradiction.
Qed.

Lemma delete_product_write id cu db :
  commits_or_leaves (delete_product id cu db) db.
Proof.
  unfold delete_product. open_handler.
  destruct cu as [| u]; cbn [is_authenticated]; [leaves |].
  destruct (is_active u) eqn:Hlive; cbn [negb orb]; [| leaves].
  destruct (user_is_deleted u); [leaves |].
  destruct (is_admin u); [leaves |].
  destruct (is_technician u); [leaves |].
  destruct (products db !! id) as [p |] eqn:Hid; [| leaves].
  case_bool_decide; [leaves |].
  left. split; [left; reflexivity |].
  eapply Write_delete_product. exact Hid.
Qed.

Lemma step_write (s : Step) (db : DB) : commits_or_leaves (step s db) db.
Proof.
  destruct s as [c | cu id req | cu id]; cbn [step].
  - unfold run. destruct (call_op c).
    + apply add_product_write.
    + apply raise_ticket_write.
    + apply assign_technician_write.
    + apply update_status_write.
    + apply add_note_write.
    + apply pay_ticket_write.
    + apply add_feedback_write.
  - apply edit_product_write.
  - apply delete_product_write.
Qed.

(** X1: each of the nine routes of [Step] ([add_product],
    [edit_product], [delete_product], [raise_ticket], [pay_ticket],
    [add_feedback], [update_status], [add_note], [assign_technician])
    is all-or-nothing.  A request to one of them answered with anything
    but success (a refusal, a 404, a failed validation, a rollback)
    leaves the database exactly as it was, and a request answered with
    success committed exactly one write of [Write].  (The other routes
    that write, such as the admin's user management, are not among the
    steps.) *)
Theorem step_commits_or_leaves (s : Step) (db : DB) :
  (committed (step s db).1 /\ Write db (step s db).2)
  \/ (~ committed (step s db).1 /\ (step s db).2 = db).
Proof.
  change (commits_or_leaves (step s db) db).
  destruct s as [c | cu id req | cu id]; cbn [step].
  - unfold run.
    destruct (call_op c);
      auto using add_product_write, raise_ticket_write,
        assign_technician_write, update_status_write, add_note_write,
        pay_ticket_write, add_feedback_write.
  - apply edit_product_write.
  - apply delete_product_write.
Qed.

(** ** What later states keep *)

Lemma ticket_kept_refl t : ticket_kept t t.
Proof. unfold ticket_kept. tauto. Qed.

Lemma ticket_kept_trans t1 t2 t3 :
  ticket_kept t1 t2 -> ticket_kept t2 t3 -> ticket_kept t1 t3.
Proof.
  unfold ticket_kept.
  intros (A1 & A2 & A3 & A4 & A5 & A6 & A7 & A8 & A9 & A10)
         (B1 & B2 & B3 & B4 & B5 & B6 & B7 & B8 & B9 & B10).
  repeat split; try congruence; auto.
Qed.

Lemma extends_refl db : extends db db.
Proof.
  unfold extends. repeat split; try reflexivity.
  - intros id t H. exists t. split; [exact H | apply ticket_kept_refl].
  - intros id p H. exists p. tauto.
Qed.

Lemma extends_trans db1 db2 db3 :
  extends db1 db2 -> extends db2 db3 -> extends db1 db3.
Proof.
  intros (T1 & P1 & A1 & N1 & F1 & U1) (T2 & P2 & A2 & N2 & F2 & U2).
  unfold extends. repeat split.
  - intros id t H. destruct (T1 id t H) as (t2 & H2 & K2).
    destruct (T2 id t2 H2) as (t3 & H3 & K3).
    exists t3. split; [exact H3 | eapply ticket_kept_trans; eassumption].
  - intros id p H. destruct (P1 id p H) as (p2 & H2 & O2 & D2).
    destruct (P2 id p2 H2) as (p3 & H3 & O3 & D3).
    exists p3. split; [exact H3 |]. split; [congruence | auto].
  - etrans; eassumption.
  - etrans; eassumption.
  - etrans; eassumption.
  - congruence.
Qed.

(** A write to the row [id] of the tickets that keeps what
    [ticket_kept] says. *)
Lemma extends_save_ticket db db' id t t' :
  tickets db !! id = Some t ->
  ticket_kept t t' ->
  tickets db' = <[id := t']> (tickets db) ->
  products db' = products db ->
  activity_logs db `prefix_of` activity_logs db' ->
  repair_notes db `prefix_of` repair_notes db' ->
  feedback db' = feedback db ->
  users db' = users db ->
  extends db db'.
Proof.
  intros Hid Hk Ht Hp Ha Hn Hf Hu. unfold extends. repeat split.
  - intros k u Hku. rewrite Ht.
    destruct (decide (id = k)) as [<- | Hne].
    + rewrite lookup_insert_eq. exists t'. split; [reflexivity |].
      rewrite Hid in Hku. injection Hku as <-. exact Hk.
    + rewrite lookup_insert_ne by exact Hne.
      exists u. split; [exact Hku | apply ticket_kept_refl].
  - intros k p Hkp. rewrite Hp. exists p. tauto.
  - exact Ha.
  - exact Hn.
  - rewrite Hf. reflexivity.
  - exact Hu.
Qed.

(** A write to the products only. *)
Lemma extends_products db tbl :
  (forall id p, products db !! id = Some p ->
     exists p', tbl !! id = Some p'
       /\ product_user_id p' = product_user_id p
       /\ (product_is_deleted p = true -> product_is_deleted p' = true)) ->
  extends db (with_products tbl db).
Proof.
  intros H. unfold extends. cbn. repeat split; try reflexivity; [| exact H].
  intros id t Ht. exists t. split; [exact Ht | apply ticket_kept_refl].
Qed.

Lemma Write_extends db db' : Write db db' -> extends db db'.
Proof.
  destruct 1.
  - apply extends_products. intros id q Hq.
    exists q. rewrite lookup_insert_ne; [tauto |].
    intros <-. rewrite next_id_fresh in Hq. discriminate.
  - apply extends_products. intros k q Hq.
    destruct (decide (id = k)) as [<- | Hne].
    + rewrite lookup_insert_eq. exists p'.
      assert (q = p) by congruence. subst q.
      split; [reflexivity |]. split; [assumption | congruence].
    + rewrite lookup_insert_ne by exact Hne. exists q. tauto.
  - apply extends_products. intros k q Hq.
    destruct (decide (id = k)) as [<- | Hne].
    + rewrite lookup_insert_eq. eexists. split; [reflexivity |].
      assert (q = p) by congruence. subst q. cbn. tauto.
    + rewrite lookup_insert_ne by exact Hne. exists q. tauto.
  - unfold extends. cbn. repeat split; try reflexivity.
    + intros id u Hu. exists u. split; [| apply ticket_kept_refl].
      rewrite lookup_insert_ne; [exact Hu |].
      intros <-. rewrite next_id_fresh in Hu. discriminate.
    + intros id p Hp. exists p. tauto.
  - eapply extends_save_ticket; try reflexivity; try eassumption.
    + unfold ticket_kept. cbn. repeat split; tauto.
    + cbn. eexists. reflexivity.
  - eapply extends_save_ticket; try reflexivity; try eassumption.
    + unfold ticket_kept.
      destruct cost; cbn; repeat split;
        first [tauto | intros _; discriminate].
    + cbn. eexists. reflexivity.
  - eapply extends_save_ticket; try reflexivity; try eassumption.
    + unfold ticket_kept. cbn. repeat split; tauto.
    + cbn. eexists. reflexivity.
  - eapply extends_save_ticket; try reflexivity; try eassumption.
    + unfold ticket_kept. cbn. repeat split; tauto.
    + cbn. eexists. reflexivity.
  - unfold extends. cbn. repeat split; try reflexivity.
    + intros id u Hu. exists u. split; [exact Hu | apply ticket_kept_refl].
    + intros id p Hp. exists p. tauto.
    + eexists. reflexivity.
Qed.

Lemma step_extends s db : extends db (step s db).2.
Proof.
  destruct (step_write s db) as [[_ Hw] | [_ ->]].
  - apply Write_extends. exact Hw.
  - apply extends_refl.
Qed.

Lemma steps_extends ss db : extends db (steps ss db).
Proof.
  revert db. induction ss as [| s ss IH]; intros db; cbn.
  - apply extends_refl.
  - eapply extends_trans; [apply step_extends | apply IH].
Qed.

(** X2: after any sequence of requests (the ticket routes, and edits
    and deletions of products), by any users at any times, a ticket
    that existed is still in the table with the ticket number, product,
    customer, issue description, priority, warranty flag, deleted flag
    and creation time it had: no route writes these columns after the
    ticket was raised. *)
Theorem ticket_columns_immutable (ss : list Step) (db : DB) (id : nat)
    (t : Ticket) :
  tickets db !! id = Some t ->
  exists t', tickets (steps ss db) !! id = Some t'
    /\ ticket_number t' = ticket_number t
    /\ product_id t' = product_id t
    /\ customer_id t' = customer_id t
    /\ issue_description t' = issue_description t
    /\ priority t' = priority t
    /\ is_warranty_covered t' = is_warranty_covered t
    /\ is_deleted t' = is_deleted t
    /\ created_at t' = created_at t.
Proof.
  intros H. destruct (steps_extends ss db) as (HT & _).
  destruct (HT id t H) as (t' & H' & K). exists t'. split; [exact H' |].
  unfold ticket_kept in K. tauto.
Qed.

Lemma ticket_columns_immutable_witness :
  let t := Sample.ticket InProgress High true false None Sample.t0 in
  let ss :=
    [ Lifecycle {| call_user := LoggedIn Sample.tech;
                   call_time := Sample.t0 + 5;
                   call_op := UpdateStatus 1
                     (POST (Fixtures.status_form "closed" Blank)) |};
      EditProduct (LoggedIn Sample.alice) 1 (POST Fixtures.phone_form);
      DeleteProduct (LoggedIn Sample.alice) 1 ] in
  exists t', tickets (steps ss (Sample.db_with t)) !! 1%nat = Some t'
    /\ priority t' = High /\ product_id t' = 1%nat.
Proof.
  intros t ss.
  destruct (ticket_columns_immutable ss (Sample.db_with t) 1%nat t eq_refl)
    as (t' & H & _ & Hp & _ & _ & Hprio & _).
  exists t'. split; [exact H |]. split; [exact Hprio | exact Hp].
Defined.

(** X3: a payment once recorded is never undone and a repair cost once
    set is never removed: whatever requests follow, a ticket with
    [is_paid] true keeps it true, and a ticket with a repair cost still
    has one (a later status update may overwrite the amount). *)
Theorem payment_and_cost_persist (ss : list Step) (db : DB) (id : nat)
    (t : Ticket) :
  tickets db !! id = Some t ->
  exists t', tickets (steps ss db) !! id = Some t'
    /\ (is_paid t = true -> is_paid t' = true)
    /\ (repair_cost t ≠ None -> repair_cost t' ≠ None).
Proof.
  intros H. destruct (steps_extends ss db) as (HT & _).
  destruct (HT id t H) as (t' & H' & K). exists t'. split; [exact H' |].
  unfold ticket_kept in K. tauto.
Qed.

Lemma payment_and_cost_persist_witness :
  let t := Sample.ticket Closed High false true (Some 250%Q) Sample.t0 in
  let ss :=
    [ Lifecycle {| call_user := LoggedIn Sample.tech;
                   call_time := Sample.t0 + 5;
                   call_op := UpdateStatus 1
                     (POST (Fixtures.status_form "in_progress" Blank)) |} ] in
  exists t', tickets (steps ss (Sample.db_with t)) !! 1%nat = Some t'
    /\ is_paid t' = true /\ repair_cost t' ≠ None.
Proof.
  intros t ss.
  destruct (payment_and_cost_persist ss (Sample.db_with t) 1%nat t eq_refl)
    as (t' & H & Hp & Hc).
  exists t'. split; [exact H |].
  split; [apply Hp; reflexivity | apply Hc; discriminate].
Defined.

(** X4: the activity log, the repair notes and the feedback table are
    append-only: after any sequence of requests each of them is the
    earlier list followed by the rows added since, and no route touches
    the users table. *)
Theorem logs_append_only (ss : list Step) (db : DB) :
  activity_logs db `prefix_of` activity_logs (steps ss db)
  /\ repair_notes db `prefix_of` repair_notes (steps ss db)
  /\ feedback db `prefix_of` feedback (steps ss db)
  /\ users (steps ss db) = users db.
Proof.
  destruct (steps_extends ss db) as (_ & _ & A & N & F & U). tauto.
Qed.

(** X5: products are only soft-deleted, and for good: after any
    sequence of requests a product that existed is still in the table,
    with the same owner, and if it was deleted it still is (no route
    restores a deleted product). *)
Theorem products_never_removed (ss : list Step) (db : DB) (id : nat)
    (p : Product) :
  products db !! id = Some p ->
  exists p', products (steps ss db) !! id = Some p'
    /\ product_user_id p' = product_user_id p
    /\ (product_is_deleted p = true -> product_is_deleted p' = true).
Proof.
  intros H. destruct (steps_extends ss db) as (_ & HP & _).
  exact (HP id p H).
Qed.

Lemma products_never_removed_witness :
  let t := Sample.ticket InProgress High true false None Sample.t0 in
  let ss :=
    [ DeleteProduct (LoggedIn Sample.alice) 1;
      EditProduct (LoggedIn Sample.alice) 1 (POST Fixtures.phone_form) ] in
  exists p', products (steps ss (Sample.db_with t)) !! 1%nat = Some p'
    /\ product_user_id p' = 1%nat.
Proof.
  intros t ss.
  destruct (products_never_removed ss (Sample.db_with t) 1%nat Sample.laptop
              eq_refl) as (p' & H & Ho & _).
  exists p'. split; [exact H | exact Ho].
Defined.

(** ** Invariants of the tables *)

Lemma elem_of_rows_fmap {A B} (f : A -> B) (table : gmap nat A) (b : B) :
  b ∈ (f ∘ snd) <$> rows table
  <-> exists k a, table !! k = Some a /\ f a = b.
Proof.
  rewrite list_elem_of_fmap. split.
  - intros ([k a] & -> & Hin). apply elem_of_rows in Hin. eauto.
  - intros (k & a & Hk & <-). exists (k, a). split; [reflexivity |].
    apply elem_of_rows. exact Hk.
Qed.

Lemma Write_products_consistent db db' :
  Write db db' -> products_consistent db -> products_consistent db'.
Proof.
  destruct 1; intros HI k q Hq; cbn in Hq; try (exact (HI k q Hq)).
  - apply lookup_insert_Some in Hq as [[_ <-] | [_ Hq]]; [tauto | eauto].
  - apply lookup_insert_Some in Hq as [[_ <-] | [_ Hq]]; [tauto | eauto].
  - apply lookup_insert_Some in Hq as [[_ <-] | [_ Hq]]; [| eauto].
    cbn. eauto.
Qed.

Lemma Write_serial_numbers_unique db db' :
  Write db db' -> serial_numbers_unique db -> serial_numbers_unique db'.
Proof.
  destruct 1 as [p Hfresh _ _ _ | id p p' Hid Hser _ _ _ _ | id p Hid
                | | | | | |];
    intros HI i j x y Hx Hy E; cbn in Hx, Hy;
    try (exact (HI i j x y Hx Hy E)).
  - assert (Hnew : forall k q, products db !! k = Some q ->
                               serial_number q ≠ serial_number p).
    { intros k q Hk Hq. apply Hfresh. apply elem_of_rows_fmap. eauto. }
    apply lookup_insert_Some in Hx as [[<- <-] | [Hi Hx]];
      apply lookup_insert_Some in Hy as [[<- <-] | [Hj Hy]].
    + reflexivity.
    + exfalso. apply (Hnew j y Hy). congruence.
    + exfalso. apply (Hnew i x Hx). congruence.
    + exact (HI i j x y Hx Hy E).
  - assert (Hother : forall k q, k ≠ id -> products db !! k = Some q ->
                                 serial_number q ≠ serial_number p').
    { intros k q Hk Hq Hs. destruct Hser as [Hsame | Hnone].
      - apply Hk. apply (HI k id q p Hq Hid). congruence.
      - exact (Hnone k q Hq Hs). }
    apply lookup_insert_Some in Hx as [[<- <-] | [Hi Hx]];
      apply lookup_insert_Some in Hy as [[<- <-] | [Hj Hy]].
    + reflexivity.
    + exfalso. apply (Hother j y); [congruence | exact Hy | congruence].
    + exfalso. apply (Hother i x); [congruence | exact Hx | congruence].
    + exact (HI i j x y Hx Hy E).
  - apply lookup_insert_Some in Hx as [[<- <-] | [Hi Hx]];
      apply lookup_insert_Some in Hy as [[<- <-] | [Hj Hy]].
    + reflexivity.
    + exact (HI id j p y Hid Hy E).
    + exact (HI i id x p Hx Hid E).
    + exact (HI i j x y Hx Hy E).
Qed.

Lemma Write_ticket_numbers_unique db db' :
  Write db db' -> ticket_numbers_unique db -> ticket_numbers_unique db'.
Proof.
  assert (Hsave : forall db id t t',
    tickets db !! id = Some t -> ticket_number t' = ticket_number t ->
    ticket_numbers_unique db ->
    forall i j a b, <[id := t']> (tickets db) !! i = Some a ->
      <[id := t']> (tickets db) !! j = Some b ->
      ticket_number a = ticket_number b -> i = j).
  { intros d id t t' Hid Hnum HI i j a b Ha Hb E.
    apply lookup_insert_Some in Ha as [[<- <-] | [Hi Ha]];
      apply lookup_insert_Some in Hb as [[<- <-] | [Hj Hb]].
    - reflexivity.
    - apply (HI id j t b Hid Hb). congruence.
    - apply (HI i id a t Ha Hid). congruence.
    - exact (HI i j a b Ha Hb E). }
  destruct 1 as [| | | t Hfresh _ _ _ _ _ | | | | |];
    intros HI i j x y Hx Hy E; cbn in Hx, Hy;
    try (exact (HI i j x y Hx Hy E));
    try (eapply Hsave; [eassumption | | exact HI | exact Hx | exact Hy | exact E];
         try destruct cost; reflexivity).
  assert (Hnew : forall k q, tickets db !! k = Some q ->
                             ticket_number q ≠ ticket_number t).
  { intros k q Hk Hq. apply Hfresh. apply elem_of_rows_fmap. eauto. }
  apply lookup_insert_Some in Hx as [[<- <-] | [Hi Hx]];
    apply lookup_insert_Some in Hy as [[<- <-] | [Hj Hy]].
  - reflexivity.
  - exfalso. apply (Hnew j y Hy). congruence.
  - exfalso. apply (Hnew i x Hx). congruence.
  - exact (HI i j x y Hx Hy E).
Qed.

Lemma Write_feedback_unique db db' :
  Write db db' -> feedback_unique db -> feedback_unique db'.
Proof.
  unfold feedback_unique.
  destruct 1; intros HI; cbn; try exact HI.
  rewrite fmap_app. apply NoDup_app. split; [exact HI |].
  split; [| apply NoDup_singleton].
  intros x Hx Hin. cbn in Hin.
  apply list_elem_of_singleton in Hin. subst x.
  apply list_elem_of_fmap in Hx as (g & Hg & Hin).
  match goal with
  | Hnone : forall g, g ∈ feedback db -> _ |- _ => apply (Hnone g Hin)
  end. congruence.
Qed.

(** The sample database satisfies the invariants. *)
Lemma sample_products_consistent t : products_consistent (Sample.db_with t).
Proof.
  intros id p H. cbn in H. apply lookup_singleton_Some in H as [_ <-].
  split; [reflexivity | cbn; lia].
Qed.

Lemma sample_serial_numbers_unique t :
  serial_numbers_unique (Sample.db_with t).
Proof.
  intros i j p q Hp Hq _. cbn in Hp, Hq.
  apply lookup_singleton_Some in Hp as [<- _].
  apply lookup_singleton_Some in Hq as [<- _]. reflexivity.
Qed.

Lemma sample_ticket_numbers_unique t :
  ticket_numbers_unique (Sample.db_with t).
Proof.
  intros i j a b Ha Hb _. cbn in Ha, Hb.
  apply lookup_singleton_Some in Ha as [<- _].
  apply lookup_singleton_Some in Hb as [<- _]. reflexivity.
Qed.

(** X6: every stored product keeps
    [warranty_expiry = purchase_date + 30 x warranty_months days] with
    1 to 120 months: [add_product] and [edit_product] both store the
    expiry they compute from the form, and no other route writes these
    columns. *)
Theorem product_expiry_invariant (ss : list Step) (db : DB) :
  products_consistent db -> products_consistent (steps ss db).
Proof.
  revert db. induction ss as [| s ss IH]; intros db HI; cbn [steps].
  - exact HI.
  - apply IH. destruct (step_write s db) as [[_ Hw] | [_ ->]].
    + exact (Write_products_consistent _ _ Hw HI).
    + exact HI.
Qed.

Lemma product_expiry_invariant_witness :
  let t := Sample.ticket InProgress High true false None Sample.t0 in
  let ss :=
    [ EditProduct (LoggedIn Sample.alice) 1 (POST Fixtures.phone_form);
      Lifecycle {| call_user := LoggedIn Sample.alice;
                   call_time := Sample.t0;
                   call_op := AddProduct (POST Sample.laptop_form) |} ] in
  products_consistent (steps ss (Sample.db_with t)).
Proof.
  intros t ss. apply (product_expiry_invariant ss (Sample.db_with t)).
  apply sample_products_consistent.
Defined.

(** X7: serial numbers stay unique over all products, deleted ones
    included: [add_product] is rolled back on a serial number that is
    in the table, and [edit_product] refuses one that another product
    holds. *)
Theorem serial_numbers_stay_unique (ss : list Step) (db : DB) :
  serial_numbers_unique db -> serial_numbers_unique (steps ss db).
Proof.
  revert db. induction ss as [| s ss IH]; intros db HI; cbn [steps].
  - exact HI.
  - apply IH. destruct (step_write s db) as [[_ Hw] | [_ ->]].
    + exact (Write_serial_numbers_unique _ _ Hw HI).
    + exact HI.
Qed.

Lemma serial_numbers_stay_unique_witness :
  let t := Sample.ticket InProgress High true false None Sample.t0 in
  let ss :=
    [ Lifecycle {| call_user := LoggedIn Fixtures.bob;
                   call_time := Sample.t0;
                   call_op := AddProduct (POST Fixtures.phone_form) |};
      EditProduct (LoggedIn Sample.alice) 1 (POST Fixtures.phone_form) ] in
  serial_numbers_unique (steps ss (Sample.db_with t)).
Proof.
  intros t ss. apply (serial_numbers_stay_unique ss (Sample.db_with t)).
  apply sample_serial_numbers_unique.
Defined.

(** X8: ticket numbers stay unique: [raise_ticket] is rolled back when
    the number it drew is already in the table, and no route rewrites
    the number of a ticket. *)
Theorem ticket_numbers_stay_unique (ss : list Step) (db : DB) :
  ticket_numbers_unique db -> ticket_numbers_unique (steps ss db).
Proof.
  revert db. induction ss as [| s ss IH]; intros db HI; cbn [steps].
  - exact HI.
  - apply IH. destruct (step_write s db) as [[_ Hw] | [_ ->]].
    + exact (Write_ticket_numbers_unique _ _ Hw HI).
    + exact HI.
Qed.

Lemma ticket_numbers_stay_unique_witness :
  let t := Sample.ticket InProgress High true false None Sample.t0 in
  let ss :=
    [ Lifecycle {| call_user := LoggedIn Sample.alice;
                   call_time := Sample.t0 + 1;
                   call_op := RaiseTicket (POST Sample.ticket_form)
                                "TKT-20211201-0A1B2C" |} ] in
  ticket_numbers_unique (steps ss (Sample.db_with t)).
Proof.
  intros t ss. apply (ticket_numbers_stay_unique ss (Sample.db_with t)).
  apply sample_ticket_numbers_unique.
Defined.

(** X9: at most one feedback per ticket: if no two feedback rows are
    on the same ticket, that is still so after any sequence of
    requests, because [add_feedback] answers AlreadyExists when the
    ticket has a feedback row. *)
Theorem one_feedback_per_ticket (ss : list Step) (db : DB) :
  feedback_unique db -> feedback_unique (steps ss db).
Proof.
  revert db. induction ss as [| s ss IH]; intros db HI; cbn [steps].
  - exact HI.
  - apply IH. destruct (step_write s db) as [[_ Hw] | [_ ->]].
    + exact (Write_feedback_unique _ _ Hw HI).
    + exact HI.
Qed.

Lemma one_feedback_per_ticket_witness :
  let ask :=
    Lifecycle {| call_user := LoggedIn Sample.alice;
                 call_time := Sample.t0 + 1;
                 call_op := AddFeedback 1 (POST Sample.feedback_form) |} in
  feedback_unique (steps [ask; ask] (Sample.db_with Fixtures.paid_repair_done)).
Proof.
  intros ask.
  apply (one_feedback_per_ticket [ask; ask]
           (Sample.db_with Fixtures.paid_repair_done)).
  unfold feedback_unique. cbn. apply NoDup_nil. exact I.
Defined.

(** ** When the routes of a ticket succeed *)

Lemma is_admin_role u :
  is_admin u = match role u with Admin => true | _ => false end.
Proof. unfold is_admin. destruct (role u); reflexivity. Qed.

Lemma is_technician_role u :
  is_technician u = match role u with Technician => true | _ => false end.
Proof. unfold is_technician. destruct (role u); reflexivity. Qed.

(** X10: [pay_ticket] succeeds exactly when the caller is a customer
    (active and not deleted) who owns the ticket, the ticket's status is
    'completed' or 'closed', it is not warranty covered, it is not yet
    paid, and the request is a POST with a valid UPI id; the repair
    cost plays no part (a paid repair with no cost recorded can be
    paid). *)
Theorem pay_ticket_succeeds_iff (id : nat) (req : Request PaymentForm)
    (now : datetime) (cu : CurrentUser) (db : DB) :
  (pay_ticket id req now cu db).1 = Success
  <-> exists u t form,
        cu = LoggedIn u /\ req = POST form
        /\ tickets db !! id = Some t /\ owns_ticket u t
        /\ (status t = Completed \/ status t = Closed)
        /\ is_warranty_covered t = false /\ is_paid t = false
        /\ validate_payment_form form = true.
Proof.
  split.
  - unfold pay_ticket, login_required, customer_required.
    destruct cu as [| w]; cbn [is_authenticated]; [discriminate |].
    rewrite is_admin_role, is_technician_role.
    destruct (is_active w) eqn:Hlive; cbn [negb orb]; [| discriminate].
    destruct (user_is_deleted w) eqn:Hd; [discriminate |].
    destruct (role w) eqn:Hr; [| discriminate ..].
    destruct (tickets db !! id) as [t |] eqn:Hid; [| discriminate].
    case_bool_decide as Ho; [discriminate |].
    case_bool_decide as Hs; cbn [negb]; [| discriminate].
    destruct (is_warranty_covered t) eqn:Hc; [discriminate |].
    destruct (is_paid t) eqn:Hp; [discriminate |].
    destruct req as [| form]; [discriminate |].
    destruct (validate_payment_form form) eqn:Hv; [| discriminate].
    intros _. exists w, t, form.
    assert (Hown : customer_id t = user_id w)
      by (destruct (decide (customer_id t = user_id w)); [assumption | tauto]).
    apply done_status_iff in Hs.
    unfold owns_ticket. tauto.
  - intros (u & t & form & -> & -> & Hid & (Ha & Hd & Hr & Ho) & Hs & Hc & Hp
              & Hv).
    unfold pay_ticket.
    rewrite (customer_required_pass u) by assumption.
    rewrite Hid, Hc, Hp, Hv.
    rewrite (bool_decide_eq_false_2 (customer_id t ≠ user_id u)) by tauto.
    rewrite (bool_decide_eq_true_2 (status t ∈ [Completed; Closed]))
      by (apply done_status_iff; exact Hs).
    reflexivity.
Qed.

(** X11: [update_status] succeeds exactly when the caller is the
    ticket's assigned technician or an admin (active and not deleted), the
    ticket is not 'completed', the form is valid, and the request is
    not the completion of a paid repair with no repair cost anywhere.
    No order of the statuses is enforced: any of the six statuses can
    be submitted on any ticket that is not completed. *)
Theorem update_status_succeeds_iff (id : nat)
    (req : Request TicketStatusForm) (now : datetime) (cu : CurrentUser)
    (db : DB) :
  (update_status id req now cu db).1 = Success
  <-> exists u t form s c,
        cu = LoggedIn u /\ req = POST form
        /\ tickets db !! id = Some t /\ may_update u t
        /\ status t ≠ Completed
        /\ validate_ticket_status_form form = Some (s, c)
        /\ ~ (s = Completed /\ is_warranty_covered t = false
              /\ c = None /\ repair_cost t = None).
Proof.
  split.
  - unfold update_status, login_required, technician_required.
    destruct cu as [| u]; cbn [is_authenticated]; [discriminate |].
    rewrite is_admin_role, is_technician_role.
    destruct (is_active u) eqn:Hlive; cbn [negb orb]; [| discriminate].
    destruct (user_is_deleted u) eqn:Hd; [discriminate |].
    assert (Hfin : forall t form s c,
      tickets db !! id = Some t -> may_update u t -> status t ≠ Completed ->
      validate_ticket_status_form form = Some (s, c) ->
      bool_decide (s = Completed) && negb (is_warranty_covered t)
        && is_none c && is_none (repair_cost t) = false ->
      exists u0 t0 form0 s0 c0,
        LoggedIn u = LoggedIn u0 /\ POST form = POST form0
        /\ tickets db !! id = Some t0 /\ may_update u0 t0
        /\ status t0 ≠ Completed
        /\ validate_ticket_status_form form0 = Some (s0, c0)
        /\ ~ (s0 = Completed /\ is_warranty_covered t0 = false
              /\ c0 = None /\ repair_cost t0 = None)).
    { intros t form s c Hid Hu Hs Hv Hg. exists u, t, form, s, c.
      repeat split; try assumption; try reflexivity; try apply Hu.
      intros (-> & Hc & -> & Hcost). rewrite Hc, Hcost in Hg.
      revert Hg. completed_guard. discriminate. }
    destruct (role u) eqn:Hr; cbn [negb andb]; [discriminate | |].
    + destruct (tickets db !! id) as [t |] eqn:Hid; [| discriminate].
      case_bool_decide as Ht; cbn [negb andb]; [discriminate |].
      case_bool_decide as Hs; [discriminate |].
      destruct req as [| form]; [discriminate |].
      destruct (validate_ticket_status_form form) as [[s c] |] eqn:Hv;
        [| discriminate].
      destruct (_ && is_none (repair_cost t)) eqn:Hg; [discriminate |].
      intros _. apply (Hfin t form s c); try assumption; try reflexivity.
      split; [exact Hlive |]. split; [exact Hd |]. right. split; [exact Hr |].
      destruct (decide (technician_id t = Some (user_id u)));
        [assumption | tauto].
    + destruct (tickets db !! id) as [t |] eqn:Hid; [| discriminate].
      rewrite andb_false_r.
      case_bool_decide as Hs; [discriminate |].
      destruct req as [| form]; [discriminate |].
      destruct (validate_ticket_status_form form) as [[s c] |] eqn:Hv;
        [| discriminate].
      destruct (_ && is_none (repair_cost t)) eqn:Hg; [discriminate |].
      intros _. apply (Hfin t form s c); try assumption; try reflexivity.
      split; [exact Hlive |]. split; [exact Hd |]. left. exact Hr.
  - intros (u & t & form & s & c & -> & -> & Hid & Hu & Hs & Hv & Hgate).
    rewrite (update_status_authorized id t u form now db Hid Hu Hs), Hv.
    destruct (_ && is_none (repair_cost t)) eqn:Hb; [| reflexivity].
    exfalso. apply Hgate.
    repeat (apply andb_prop in Hb as [Hb ?]).
    apply bool_decide_eq_true in Hb.
    destruct c; [discriminate |].
    destruct (repair_cost t); [discriminate |].
    destruct (is_warranty_covered t); [discriminate |]. tauto.
Qed.

Lemma find_is_Some {A} (f : A -> bool) (l : list A) (x : A) :
  x ∈ l -> f x = true -> exists y, List.find f l = Some y.
Proof.
  intros Hx Hf. destruct (List.find f l) as [y |] eqn:E; [eauto |].
  apply list_elem_of_In in Hx.
  rewrite (List.find_none _ _ E x Hx) in Hf. discriminate.
Qed.

Lemma pay_ticket_of_paid id t req now cu db :
  tickets db !! id = Some t -> is_paid t = true ->
  (pay_ticket id req now cu db).1 ≠ Success
  /\ (pay_ticket id req now cu db).2 = db.
Proof.
  intros Hid Hp. unfold pay_ticket. open_handler. rewrite Hid, Hp.
  repeat case_match; cbn [fst snd]; split; first [discriminate | reflexivity].
Qed.

(** X12: a ticket is paid once.  After a payment that succeeded, a
    further request of the same customer to [pay_ticket] on the ticket
    (GET or POST) is answered AlreadyPaid and changes nothing; and in
    every later state, whatever requests were served in between (the
    technician may have reopened the ticket, so that the answer is then
    'only after repair is completed'), no request of anyone to
    [pay_ticket] on that ticket succeeds or changes the database. *)
Theorem second_payment_refused (id : nat) (req : Request PaymentForm)
    (now : datetime) (cu : CurrentUser) (db db' : DB) :
  pay_ticket id req now cu db = (Success, db') ->
  (forall req' now', pay_ticket id req' now' cu db' = (AlreadyPaid, db'))
  /\ (forall ss req' now' cu',
        (pay_ticket id req' now' cu' (steps ss db')).1 ≠ Success
        /\ (pay_ticket id req' now' cu' (steps ss db')).2 = steps ss db').
Proof.
  intros Hrun.
  assert (Hpaid : exists t u, cu = LoggedIn u /\ tickets db' !! id = Some t
                   /\ is_paid t = true /\ status t = Closed
                   /\ is_warranty_covered t = false
                   /\ customer_id t = user_id u
                   /\ is_active u = true /\ user_is_deleted u = false
                   /\ role u = Customer).
  { revert Hrun. unfold pay_ticket, login_required, customer_required.
    destruct cu as [| u]; cbn [is_authenticated]; [discriminate |].
    rewrite is_admin_role, is_technician_role.
    destruct (is_active u) eqn:Hlive; cbn [negb orb]; [| discriminate].
    destruct (user_is_deleted u) eqn:Hd; [discriminate |].
    destruct (role u) eqn:Hr; [| discriminate ..].
    destruct (tickets db !! id) as [t |] eqn:Hid; [| discriminate].
    case_bool_decide as Ho; [discriminate |].
    case_bool_decide as Hs; cbn [negb]; [| discriminate].
    destruct (is_warranty_covered t) eqn:Hc; [discriminate |].
    destruct (is_paid t); [discriminate |].
    destruct req as [| form]; [discriminate |].
    destruct (validate_payment_form form); [| discriminate].
    intros [= <-]. eexists _, u. split; [reflexivity |].
    split; [cbn; apply lookup_insert_eq |].
    cbn. repeat split; assumption. }
  destruct Hpaid as (t & u & -> & Hid & Hp & Hs & Hc & Ho & Ha & Hd & Hr).
  split.
  - intros req' now'. unfold pay_ticket.
    rewrite (customer_required_pass u) by assumption.
    rewrite Hid, Hc, Hp, Hs.
    rewrite (bool_decide_eq_false_2 (customer_id t ≠ user_id u)) by tauto.
    rewrite (bool_decide_eq_true_2 (Closed ∈ [Completed; Closed]))
      by (apply done_status_iff; tauto).
    reflexivity.
  - intros ss req' now' cu'.
    destruct (steps_extends ss db') as (HT & _).
    destruct (HT id t Hid) as (t' & Hid' & K).
    apply (pay_ticket_of_paid id t'); [exact Hid' |].
    unfold ticket_kept in K. tauto.
Qed.

Lemma second_payment_refused_witness :
  let db' :=
    (pay_ticket 1 (POST Fixtures.payment_form) (Sample.t0 + 1)
       (LoggedIn Sample.alice) (Sample.db_with Fixtures.paid_repair_done)).2 in
  let reopen :=
    Lifecycle {| call_user := LoggedIn Sample.tech;
                 call_time := Sample.t0 + 2;
                 call_op := UpdateStatus 1
                              (POST (Fixtures.status_form "in_progress"
                                       Forms.Blank)) |} in
  pay_ticket 1 GET (Sample.t0 + 3) (LoggedIn Sample.alice) db'
  = (AlreadyPaid, db')
  /\ (pay_ticket 1 (POST Fixtures.payment_form) (Sample.t0 + 3)
        (LoggedIn Sample.alice) (steps [reopen] db')).1 ≠ Success.
Proof.
  intros db' reopen.
  destruct (second_payment_refused 1 (POST Fixtures.payment_form)
              (Sample.t0 + 1) (LoggedIn Sample.alice)
              (Sample.db_with Fixtures.paid_repair_done) db')
    as [Hnow Hlater].
  - reflexivity.
  - split; [apply Hnow | apply (Hlater [reopen])].
Defined.

(** After the payment the technician can move the closed ticket back
    to 'in_progress'; the customer's next request to [pay_ticket] is
    then answered 'only after repair is completed', not 'already
    paid'. *)
Example pay_ticket_after_reopen :
  let db' :=
    (pay_ticket 1 (POST Fixtures.payment_form) (Sample.t0 + 1)
       (LoggedIn Sample.alice) (Sample.db_with Fixtures.paid_repair_done)).2 in
  let reopened :=
    (update_status 1 (POST (Fixtures.status_form "in_progress" Forms.Blank))
       (Sample.t0 + 2) (LoggedIn Sample.tech) db') in
  reopened.1 = Success
  /\ (pay_ticket 1 (POST Fixtures.payment_form) (Sample.t0 + 3)
        (LoggedIn Sample.alice) reopened.2).1 = InvalidState.
Proof. vm_compute. split; reflexivity. Qed.

Lemma find_app_last {A} (f : A -> bool) (l : list A) (x : A) :
  f x = true -> List.find f (l ++ [x]) <> None.
Proof.
  intros Hx. induction l as [| y l IH]; cbn.
  - rewrite Hx. discriminate.
  - destruct (f y); [discriminate | exact IH].
Qed.

Lemma add_feedback_of_rated id f req now cu db :
  f ∈ feedback db -> feedback_ticket_id f = id ->
  (add_feedback id req now cu db).1 ≠ Success
  /\ (add_feedback id req now cu db).2 = db.
Proof.
  intros Hin Hf.
  destruct (find_is_Some (fun f => (feedback_ticket_id f =? id)%nat)
              (feedback db) f Hin) as [g Hg]; [apply Nat.eqb_eq; exact Hf |].
  unfold add_feedback. open_handler. rewrite Hg. cbn [is_none negb].
  repeat case_match; cbn [fst snd]; split; first [discriminate | reflexivity].
Qed.

(** X13: a ticket gets feedback once.  After a feedback that was
    stored, a further request of the same customer to [add_feedback] on
    the ticket is answered AlreadyExists and changes nothing; and in
    every later state, whatever requests were served in between (the
    ticket may have been reassigned or reopened, so that the answer is
    then 'only after repair is completed'), no request of anyone to
    [add_feedback] on that ticket succeeds or changes the database. *)
Theorem second_feedback_refused (id : nat) (req : Request FeedbackForm)
    (now : datetime) (cu : CurrentUser) (db db' : DB) :
  add_feedback id req now cu db = (Success, db') ->
  (forall req' now', add_feedback id req' now' cu db' = (AlreadyExists, db'))
  /\ (forall ss req' now' cu',
        (add_feedback id req' now' cu' (steps ss db')).1 ≠ Success
        /\ (add_feedback id req' now' cu' (steps ss db')).2 = steps ss db').
Proof.
  intros Hrun.
  assert (Hdone : exists t u fb, cu = LoggedIn u /\ tickets db' !! id = Some t
                   /\ feedback db' = (feedback db ++ [fb])%list
                   /\ feedback_ticket_id fb = id
                   /\ status t ∈ [Completed; Closed]
                   /\ customer_id t = user_id u
                   /\ is_active u = true /\ user_is_deleted u = false
                   /\ role u = Customer).
  { revert Hrun. unfold add_feedback, login_required, customer_required.
    destruct cu as [| u]; cbn [is_authenticated]; [discriminate |].
    rewrite is_admin_role, is_technician_role.
    destruct (is_active u) eqn:Hlive; cbn [negb orb]; [| discriminate].
    destruct (user_is_deleted u) eqn:Hd; [discriminate |].
    destruct (role u) eqn:Hr; [| discriminate ..].
    destruct (tickets db !! id) as [t |] eqn:Hid; [| discriminate].
    case_bool_decide as Ho; [discriminate |].
    case_bool_decide as Hs; cbn [negb]; [| discriminate].
    destruct (List.find _ (feedback db)); cbn [is_none negb]; [discriminate |].
    destruct req as [| form]; [discriminate |].
    destruct (validate_feedback_form form) as [[r c] |]; [| discriminate].
    intros [= <-]. exists t, u. eexists. split; [reflexivity |].
    split; [exact Hid |]. split; [reflexivity |].
    cbn. repeat split; assumption. }
  destruct Hdone as (t & u & fb & -> & Hid & Hfb & Hfid & Hs & Ho & Ha & Hd & Hr).
  split.
  - intros req' now'. unfold add_feedback.
    rewrite (customer_required_pass u) by assumption.
    rewrite Hid, (bool_decide_eq_true_2 _ Hs), Hfb.
    rewrite (bool_decide_eq_false_2 (customer_id t ≠ user_id u)) by tauto.
    cbn [negb].
    match goal with
    | |- context [List.find ?f (?l ++ [?x])] =>
        pose proof (find_app_last f l x) as Hfound;
        destruct (List.find f (l ++ [x]))
    end.
    + reflexivity.
    + exfalso. apply Hfound; [apply Nat.eqb_eq; exact Hfid | reflexivity].
  - intros ss req' now' cu'.
    destruct (steps_extends ss db') as (_ & _ & _ & _ & HF & _).
    apply (add_feedback_of_rated id fb); [| exact Hfid].
    destruct HF as [more ->]. rewrite Hfb.
    apply elem_of_app. left. apply elem_of_app. right.
    apply elem_of_cons. left. reflexivity.
Qed.

Lemma second_feedback_refused_witness :
  let db' :=
    (add_feedback 1 (POST Sample.feedback_form) (Sample.t0 + 1)
       (LoggedIn Sample.alice) (Sample.db_with Fixtures.paid_repair_done)).2 in
  let reassign :=
    Lifecycle {| call_user := LoggedIn Sample.root;
                 call_time := Sample.t0 + 2;
                 call_op := AssignTechnician 1
                              (POST {| technician_id_data := Some 2%nat |}) |} in
  add_feedback 1 GET (Sample.t0 + 3) (LoggedIn Sample.alice) db'
  = (AlreadyExists, db')
  /\ (add_feedback 1 (POST Sample.feedback_form) (Sample.t0 + 3)
        (LoggedIn Sample.alice) (steps [reassign] db')).1 ≠ Success.
Proof.
  intros db' reassign.
  destruct (second_feedback_refused 1 (POST Sample.feedback_form)
              (Sample.t0 + 1) (LoggedIn Sample.alice)
              (Sample.db_with Fixtures.paid_repair_done) db')
    as [Hnow Hlater].
  - reflexivity.
  - split; [apply Hnow | apply (Hlater [reassign])].
Defined.

(** After the feedback an admin can reassign the ticket, which sets it
    to 'in_progress'; the customer's next request to [add_feedback] is
    then answered 'only after repair is completed', not 'already
    submitted'. *)
Example add_feedback_after_reassign :
  let db' :=
    (add_feedback 1 (POST Sample.feedback_form) (Sample.t0 + 1)
       (LoggedIn Sample.alice) (Sample.db_with Fixtures.paid_repair_done)).2 in
  let reassigned :=
    (assign_technician 1 (POST {| technician_id_data := Some 2%nat |})
       (Sample.t0 + 2) (LoggedIn Sample.root) db') in
  reassigned.1 = Success
  /\ (add_feedback 1 (POST Sample.feedback_form) (Sample.t0 + 3)
        (LoggedIn Sample.alice) reassigned.2).1 = InvalidState.
Proof. vm_compute. split; reflexivity. Qed.

(** X14: [add_note] by the assigned technician or an admin (active
    and not deleted) with a valid note is accepted whatever the ticket's
    status (a completed or
    closed ticket too); it appends the note, sets the ticket's
    [updated_at] to the time of the request and changes nothing else:
    the other columns of the ticket, the other tickets, and the
    activity log (a note writes no audit entry). *)
Theorem add_note_effect (id : nat) (t : Ticket) (u : User)
    (form : AddRepairNoteForm) (now : datetime) (db : DB) :
  tickets db !! id = Some t ->
  may_update u t ->
  validate_add_repair_note_form form = true ->
  exists db',
    add_note id (POST form) now (LoggedIn u) db = (Success, db')
    /\ tickets db' = <[id := set_updated_at now t]> (tickets db)
    /\ repair_notes db' =
       (repair_notes db ++
         [{| note_ticket_id := id; note_user_id := user_id u;
             note_text := note_text_data form; note_created_at := now |}])%list
    /\ activity_logs db' = activity_logs db
    /\ feedback db' = feedback db
    /\ products db' = products db.
Proof.
  intros Hid Hu Hv. eexists. split.
  - unfold add_note.
    rewrite (technician_required_pass u t) by exact Hu.
    rewrite Hid, (may_update_access u t Hu), Hv. reflexivity.
  - repeat split.
Qed.

Lemma add_note_effect_witness :
  let t := Sample.ticket Completed Medium true false None Sample.t0 in
  exists db',
    add_note 1 (POST Fixtures.note_form) (Sample.t0 + 9)
      (LoggedIn Sample.tech) (Sample.db_with t) = (Success, db')
    /\ status <$> tickets db' !! 1%nat = Some Completed.
Proof.
  intros t.
  destruct (add_note_effect 1 t Sample.tech Fixtures.note_form
              (Sample.t0 + 9) (Sample.db_with t))
    as (db' & Hrun & Ht & _).
  - reflexivity.
  - split; [reflexivity |]. split; [reflexivity |]. right. split; reflexivity.
  - reflexivity.
  - exists db'. split; [exact Hrun |]. rewrite Ht. reflexivity.
Defined.

(** ** Listings *)

Lemma paginate_Some {A} (page : Z) (n : nat) (l items : list A) :
  paginate page n l = Some items ->
  items `sublist_of` l /\ (length items <= n)%nat.
Proof.
  unfold paginate. destruct (page <? 1); [discriminate |].
  destruct (_ && _); [discriminate |].
  intros [= <-]. split.
  - etrans; [apply sublist_take | apply sublist_drop].
  - rewrite length_take. lia.
Qed.

Lemma StronglySorted_sublist {A} (R : relation A) (k l : list A) :
  k `sublist_of` l -> StronglySorted R l -> StronglySorted R k.
Proof.
  induction 1 as [| x k l Hs IH | x k l Hs IH]; intros Hl.
  - constructor.
  - apply StronglySorted_inv in Hl as [Hl Hx]. constructor; [auto |].
    apply Forall_forall. intros y Hy.
    rewrite Forall_forall in Hx. apply Hx.
    apply (sublist_subseteq _ _ Hs). exact Hy.
  - apply StronglySorted_inv in Hl as [Hl _]. auto.
Qed.

(** A page of a sorted query: its rows are rows of the query, at most
    [n] of them, in the order of the sort. *)
Lemma page_of_sorted {A} (R : relation A) `{!forall x y, Decision (R x y)}
    `{!Total R} `{!Transitive R} (page : Z) (n : nat) (q items : list A) :
  paginate page n (merge_sort R q) = Some items ->
  (forall x, x ∈ items -> x ∈ q) /\ (length items <= n)%nat
  /\ StronglySorted R items.
Proof.
  intros Hpage. apply paginate_Some in Hpage as [Hs Hn]. repeat split.
  - intros x Hx. apply (sublist_subseteq _ _ Hs) in Hx.
    rewrite merge_sort_Permutation in Hx. exact Hx.
  - exact Hn.
  - apply (StronglySorted_sublist R _ _ Hs).
    apply StronglySorted_merge_sort; assumption.
Qed.

(** The labels of the priorities compare as their alphabetical ranks:
    high, low, medium, urgent. *)
Lemma priority_label_compare (p q : Priority) :
  String.compare (priority_label p) (priority_label q)
  = Nat.compare
      (match p with High => 0 | Low => 1 | Medium => 2 | Urgent => 3 end)
      (match q with High => 0 | Low => 1 | Medium => 2 | Urgent => 3 end).
Proof. destruct p, q; vm_compute; reflexivity. Qed.

Global Instance listing_order_trans : Transitive listing_order.
Proof.
  intros [i a] [j b] [k c]. unfold listing_order, listing_le. cbn [snd].
  rewrite !priority_label_compare.
  destruct (priority a), (priority b), (priority c); cbn;
    intros H1 H2; try discriminate; try reflexivity;
    rewrite ?Z.leb_le in *; lia.
Qed.

Global Instance newest_first_total : Total newest_first.
Proof. intros [i a] [j b]. unfold newest_first. cbn. lia. Qed.

Global Instance newest_first_trans : Transitive newest_first.
Proof. intros [i a] [j b] [k c]. unfold newest_first. cbn. lia. Qed.

(** X15: the technician's listing shows only rows of the tickets table
    that are assigned to that technician, not deleted, and match the
    status and priority filters when given; a page has at most 10 rows
    and any row on it precedes the rows after it in the order of the
    query (priority label descending, then creation time ascending). *)
Theorem technician_tickets_sound (page : Z) (status_filter priority_filter : string)
    (u : User) (db : DB) (items : list (nat * Ticket)) :
  technician_tickets page status_filter priority_filter u db = Some items ->
  (forall r, r ∈ items ->
     tickets db !! r.1 = Some r.2
     /\ technician_id r.2 = Some (user_id u)
     /\ is_deleted r.2 = false
     /\ (status_filter ≠ "" -> status_label (status r.2) = status_filter)
     /\ (priority_filter ≠ "" ->
         priority_label (priority r.2) = priority_filter))
  /\ (length items <= 10)%nat
  /\ StronglySorted listing_order items.
Proof.
  unfold technician_tickets. intros H.
  apply page_of_sorted in H as (Hin & Hn & Hsorted); try apply _.
  split; [| split; assumption].
  intros [k v] Hr. apply Hin in Hr. cbn [fst snd].
  destruct (String.eqb_spec priority_filter "") as [-> | Hp];
    destruct (String.eqb_spec status_filter "") as [-> | Hs];
    repeat (apply list_elem_of_filter in Hr as [? Hr]);
    apply elem_of_rows in Hr; tauto.
Qed.

Lemma technician_tickets_sound_witness :
  exists items,
    technician_tickets 1 "in_progress" "" Sample.tech Sample.triage_db
    = Some items
    /\ (length items <= 10)%nat.
Proof.
  eexists. split; [vm_compute; reflexivity |].
  refine (proj1 (proj2 (technician_tickets_sound 1 "in_progress" ""
                          Sample.tech Sample.triage_db _ _))).
  vm_compute. reflexivity.
Defined.

(** X16: the customer's listing shows only the customer's own tickets
    that are not deleted (and match the status filter when given), at
    most 10 to a page, newest first; and the feedback ids handed to the
    page are exactly the ids of the tickets on the page that have a
    feedback row. *)
Theorem customer_tickets_sound (page : Z) (status_filter : string)
    (u : User) (db : DB) (items : list (nat * Ticket)) (ids : gset nat) :
  customer_tickets page status_filter u db = Some (items, ids) ->
  (forall r, r ∈ items ->
     tickets db !! r.1 = Some r.2
     /\ customer_id r.2 = user_id u
     /\ is_deleted r.2 = false
     /\ (status_filter ≠ "" -> status_label (status r.2) = status_filter))
  /\ (length items <= 10)%nat
  /\ StronglySorted newest_first items
  /\ (forall k, k ∈ ids <->
        k ∈ items.*1
        /\ exists f, f ∈ feedback db /\ feedback_ticket_id f = k).
Proof.
  unfold customer_tickets. intros H.
  destruct (paginate page 10 _) as [page_items |] eqn:Hpage; [| discriminate].
  injection H as <- <-.
  apply page_of_sorted in Hpage as (Hin & Hn & Hsorted); try apply _.
  split; [| split; [assumption | split; [assumption |]]].
  - intros [k v] Hr. apply Hin in Hr. cbn [fst snd].
    destruct (String.eqb_spec status_filter "") as [-> | Hs];
      repeat (apply list_elem_of_filter in Hr as [? Hr]);
      apply elem_of_rows in Hr; tauto.
  - intros k. rewrite elem_of_list_to_set, list_elem_of_fmap. split.
    + intros (f & -> & Hf). apply list_elem_of_filter in Hf as [Hk Hf].
      split; [exact Hk | eauto].
    + intros (Hk & f & Hf & <-). exists f. split; [reflexivity |].
      apply list_elem_of_filter. split; assumption.
Qed.

Lemma customer_tickets_sound_witness :
  exists items ids,
    customer_tickets 1 "" Sample.alice Sample.triage_db = Some (items, ids)
    /\ StronglySorted newest_first items.
Proof.
  destruct (customer_tickets 1 "" Sample.alice Sample.triage_db)
    as [[items ids] |] eqn:E; [| vm_compute in E; discriminate].
  exists items, ids. split; [reflexivity |].
  exact (proj1 (proj2 (proj2 (customer_tickets_sound 1 "" Sample.alice
                                Sample.triage_db items ids E)))).
Defined.

(** X17: the admin's listing never shows a deleted ticket; it shows
    rows of the tickets table that match the filters when given, at
    most 15 to a page, newest first. *)
Theorem admin_tickets_sound (page : Z) (status_filter priority_filter : string)
    (db : DB) (items : list (nat * Ticket)) :
  admin_tickets page status_filter priority_filter db = Some items ->
  (forall r, r ∈ items ->
     tickets db !! r.1 = Some r.2
     /\ is_deleted r.2 = false
     /\ (status_filter ≠ "" -> status_label (status r.2) = status_filter)
     /\ (priority_filter ≠ "" ->
         priority_label (priority r.2) = priority_filter))
  /\ (length items <= 15)%nat
  /\ StronglySorted newest_first items.
Proof.
  unfold admin_tickets. intros H.
  apply page_of_sorted in H as (Hin & Hn & Hsorted); try apply _.
  split; [| split; assumption].
  intros [k v] Hr. apply Hin in Hr. cbn [fst snd].
  destruct (String.eqb_spec priority_filter "") as [-> | Hp];
    destruct (String.eqb_spec status_filter "") as [-> | Hs];
    repeat (apply list_elem_of_filter in Hr as [? Hr]);
    apply elem_of_rows in Hr; tauto.
Qed.

Lemma admin_tickets_sound_witness :
  exists items,
    admin_tickets 1 "" "urgent" Sample.triage_db = Some items
    /\ (length items <= 15)%nat.
Proof.
  eexists. split; [vm_compute; reflexivity |].
  refine (proj1 (proj2 (admin_tickets_sound 1 "" "urgent"
                          Sample.triage_db _ _))).
  vm_compute. reflexivity.
Defined.

(** X18: pagination.  With a positive page size, a page is a 404
    exactly when its number is below 1, or above 1 and past the end of
    the list; page 1 always exists (and is empty for an empty list);
    and the rows of page [p] are the rows of the list at positions
    [(p-1)*n] to [p*n-1], so consecutive pages neither skip nor repeat
    a row. *)
Theorem paginate_pages {A} (page : Z) (n : nat) (l : list A) :
  (0 < n)%nat ->
  (paginate page n l = None
   <-> page < 1 \/ (1 < page /\ (length l <= Z.to_nat (page - 1) * n)%nat))
  /\ paginate 1 n l = Some (take n l)
  /\ (forall items i,
        paginate page n l = Some items -> (i < n)%nat ->
        items !! i = l !! (Z.to_nat (page - 1) * n + i)%nat).
Proof.
  intros Hn. split; [| split].
  - unfold paginate. destruct (Z.ltb_spec page 1) as [Hp | Hp].
    { split; [auto | reflexivity]. }
    set (k := (Z.to_nat (page - 1) * n)%nat).
    destruct (take n (drop k l)) as [| x items] eqn:E; cbn.
    + apply take_nil_inv in E as [E | E]; [lia |].
      assert (Hlen : (length l <= k)%nat).
      { pose proof (length_drop l k) as Hd. rewrite E in Hd. cbn in Hd. lia. }
      destruct (Z.eqb_spec page 1) as [-> | Hne]; cbn.
      * split; [discriminate | lia].
      * split; [intros _; right; split; [lia | exact Hlen] | reflexivity].
    + split; [discriminate |].
      intros [Hlt | [_ Hlen]]; [lia |].
      rewrite (drop_ge l k Hlen), take_nil in E. discriminate.
  - unfold paginate. change (Z.to_nat (1 - 1)) with 0%nat.
    cbn. rewrite andb_false_r. reflexivity.
  - intros items i H Hi. unfold paginate in H.
    destruct (page <? 1); [discriminate |].
    destruct (_ && _); [discriminate |].
    injection H as <-.
    rewrite lookup_take_lt by exact Hi. apply lookup_drop.
Qed.

Lemma paginate_pages_witness :
  paginate 3 2 [10; 20; 30; 40] = None
  /\ paginate 2 2 [10; 20; 30; 40] = Some [30; 40].
Proof.
  split; [| reflexivity].
  apply (proj1 (paginate_pages 3 2 [10; 20; 30; 40] ltac:(lia))).
  right. cbn. lia.
Defined.

(** ** Reports and dashboards *)

Lemma length_filter_split {A} (P Q : A -> Prop) `{!forall x, Decision (P x)}
    `{!forall x, Decision (Q x)} (l : list A) :
  (forall x, P x <-> ~ Q x) ->
  (length (filter P l) + length (filter Q l) = length l)%nat.
Proof.
  intros HPQ. induction l as [| x l IH]; [reflexivity |].
  rewrite !filter_cons.
  destruct (decide (P x)) as [HP | HP], (decide (Q x)) as [HQ | HQ]; cbn.
  - exfalso. apply HPQ in HP. contradiction.
  - lia.
  - lia.
  - exfalso. apply HP. apply HPQ. exact HQ.
Qed.

Lemma length_filter_impl {A} (P Q : A -> Prop) `{!forall x, Decision (P x)}
    `{!forall x, Decision (Q x)} (l : list A) :
  (forall x, P x -> Q x) ->
  (length (filter P l) <= length (filter Q l))%nat.
Proof.
  intros HPQ. induction l as [| x l IH]; [reflexivity |].
  rewrite !filter_cons.
  destruct (decide (P x)) as [HP | HP], (decide (Q x)) as [HQ | HQ]; cbn;
    try lia.
  exfalso. apply HQ. apply HPQ. exact HP.
Qed.

Lemma length_filter_disjoint3 {A} (P Q R : A -> Prop)
    `{!forall x, Decision (P x)} `{!forall x, Decision (Q x)}
    `{!forall x, Decision (R x)} (l : list A) :
  (forall x, P x -> ~ Q x) -> (forall x, P x -> ~ R x) ->
  (forall x, Q x -> ~ R x) ->
  (length (filter P l) + length (filter Q l) + length (filter R l)
   <= length l)%nat.
Proof.
  intros HPQ HPR HQR. induction l as [| x l IH]; [reflexivity |].
  rewrite !filter_cons.
  destruct (decide (P x)) as [HP | HP], (decide (Q x)) as [HQ | HQ],
    (decide (R x)) as [HR | HR]; cbn; try lia.
  - exfalso. exact (HPQ x HP HQ).
  - exfalso. exact (HPQ x HP HQ).
  - exfalso. exact (HPR x HP HR).
  - exfalso. exact (HQR x HQ HR).
Qed.

Lemma pending_status_iff (s : Status) :
  s ∈ [Open; InProgress; WaitingForParts]
  <-> s = Open \/ s = InProgress \/ s = WaitingForParts.
Proof.
  rewrite !elem_of_cons, elem_of_nil. tauto.
Qed.

(** X19: the warranty report.  Every product that is not deleted is
    counted once, as active or as expired; the products listed as
    expiring soon are among the active ones.  The report draws its
    lines at [expiry <= now] and [expiry <= now + 30 days], the
    product's own status at [expiry < now] and fewer than 30 days left:
    a listed product never has status 'expired', and has status
    'active' only when it expires in exactly 30 days; a product is
    counted expired exactly when its status is 'expired' or it expires
    at this very instant. *)
Theorem report_warranty_counts (now : datetime) (db : DB) :
  let live :=
    filter (fun r : nat * Product => product_is_deleted r.2 = false)
           (rows (products db)) in
  let r := report_warranty now db in
  (report_active r + report_expired r = length live)%nat
  /\ (length (report_expiring_soon r) <= report_active r)%nat
  /\ (forall k p, (k, p) ∈ report_expiring_soon r ->
        products db !! k = Some p
        /\ warranty_status_at p now <> "expired"
        /\ (warranty_status_at p now = "active" ->
            warranty_expiry p = now + timedelta_days 30))
  /\ (forall k p, (k, p) ∈ live ->
        (warranty_expiry p <= now
         <-> warranty_status_at p now = "expired" \/ warranty_expiry p = now)).
Proof.
  cbv zeta. unfold report_warranty. cbn [report_active report_expired
    report_expiring_soon]. repeat split.
  - apply length_filter_split. intros [k p]. cbn. lia.
  - apply length_filter_impl. intros [k p]. cbn. tauto.
  - apply list_elem_of_filter in H as [_ H].
    apply list_elem_of_filter in H as [_ H].
    apply elem_of_rows in H. exact H.
  - apply list_elem_of_filter in H as [[Hlt _] H].
    apply list_elem_of_filter in H as [Hd _]. cbn in Hlt, Hd.
    destruct (warranty_status_cases p now Hd)
      as [[H1 _] | [(_ & _ & ->) | [_ ->]]]; [lia | discriminate ..].
  - apply list_elem_of_filter in H as [[_ Hle] H].
    apply list_elem_of_filter in H as [Hd _]. cbn in Hle, Hd.
    intros Hact.
    destruct (warranty_status_cases p now Hd)
      as [[_ E] | [(_ & _ & E) | [Hge _]]];
      [rewrite E in Hact; discriminate .. |].
    unfold timedelta_days in *. lia.
  - apply list_elem_of_filter in H as [Hd _]. cbn in Hd.
    intros Hle.
    destruct (warranty_status_cases p now Hd)
      as [[_ E] | [(? & _ & _) | [? _]]]; [left; exact E | right; lia |].
    unfold day_us in *. lia.
  - apply list_elem_of_filter in H as [Hd _]. cbn in Hd.
    intros [E | E]; [| lia].
    destruct (warranty_status_cases p now Hd)
      as [[? _] | [(_ & _ & E') | [_ E']]];
      [lia | rewrite E' in E; discriminate ..].
Qed.

(** X20: the customer's dashboard.  The expired count (total minus
    active) is never negative and is the number of the customer's
    products, not deleted, with [expiry <= now]; open and completed
    tickets together are at most the customer's tickets (a rejected
    ticket is in neither count); at most 5 recent tickets are shown. *)
Theorem customer_dashboard_counts (now1 now2 now3 : datetime) (u : User)
    (db : DB) :
  let own_products :=
    filter (fun r : nat * Product =>
              product_user_id r.2 = user_id u
              /\ product_is_deleted r.2 = false) (rows (products db)) in
  let own_tickets :=
    filter (fun r : nat * Ticket =>
              customer_id r.2 = user_id u /\ is_deleted r.2 = false)
           (rows (tickets db)) in
  let d := customer_dashboard now1 now2 now3 u db in
  expired_warranties d
  = Z.of_nat (length (filter (fun r : nat * Product =>
                                warranty_expiry r.2 <= now1) own_products))
  /\ 0 <= expired_warranties d
  /\ (open_tickets d + completed_tickets d <= length own_tickets)%nat
  /\ (length (recent_tickets d) <= 5)%nat.
Proof.
  cbv zeta. unfold customer_dashboard.
  cbn [expired_warranties open_tickets completed_tickets recent_tickets].
  set (own := filter _ (rows (products db))).
  set (mine := filter _ (rows (tickets db))).
  pose proof (length_filter_split
                (fun r : nat * Product => now1 < warranty_expiry r.2)
                (fun r : nat * Product => warranty_expiry r.2 <= now1) own)
    as Hsplit.
  specialize (Hsplit ltac:(intros [k p]; cbn; lia)).
  repeat split.
  - lia.
  - lia.
  - pose proof (length_filter_disjoint3
                  (fun r : nat * Ticket =>
                     status r.2 ∈ [Open; InProgress; WaitingForParts])
                  (fun r : nat * Ticket => status r.2 ∈ [Completed; Closed])
                  (fun _ : nat * Ticket => False) mine) as Hd.
    cbn in Hd. etrans; [| apply Hd].
    + lia.
    + intros [k t] Ho Hc. cbn in Ho, Hc.
      apply pending_status_iff in Ho. apply done_status_iff in Hc.
      destruct Ho as [Ho | [Ho | Ho]], Hc as [Hc | Hc]; congruence.
    + tauto.
    + tauto.
  - rewrite length_take. lia.
Qed.

(** X21: the technician's dashboard.  The in-progress, waiting and
    completed counts are over disjoint statuses and sum to at most the
    assigned count; the high-priority list has at most 5 rows, each an
    assigned ticket that is not deleted, 'open' or 'in_progress', and
    'high' or 'urgent'. *)
Theorem technician_dashboard_counts (u : User) (db : DB) :
  let d := technician_dashboard u db in
  (in_progress_tickets d + waiting_parts d + tech_completed_tickets d
   <= assigned_tickets d)%nat
  /\ (length (high_priority_tickets d) <= 5)%nat
  /\ (forall k t, (k, t) ∈ high_priority_tickets d ->
        tickets db !! k = Some t
        /\ technician_id t = Some (user_id u) /\ is_deleted t = false
        /\ (status t = Open \/ status t = InProgress)
        /\ (priority t = High \/ priority t = Urgent)).
Proof.
  cbv zeta. unfold technician_dashboard.
  cbn [in_progress_tickets waiting_parts tech_completed_tickets
       assigned_tickets high_priority_tickets].
  set (assigned := filter _ (rows (tickets db))).
  split; [| split].
  - apply length_filter_disjoint3.
    + intros [k t]. cbn. congruence.
    + intros [k t]. cbn. intros Hs Hc. apply done_status_iff in Hc.
      destruct Hc as [Hc | Hc]; congruence.
    + intros [k t]. cbn. intros Hs Hc. apply done_status_iff in Hc.
      destruct Hc as [Hc | Hc]; congruence.
  - rewrite length_take. lia.
  - intros k t Hin.
    apply (sublist_subseteq _ _ (sublist_take _ _)) in Hin.
    rewrite merge_sort_Permutation in Hin.
    apply list_elem_of_filter in Hin as [[Hs Hp] Hin]. cbn in Hs, Hp.
    apply list_elem_of_filter in Hin as [[Ht Hd] Hin]. cbn in Ht, Hd.
    apply elem_of_rows in Hin.
    assert (status t = Open \/ status t = InProgress)
      by (revert Hs; rewrite !elem_of_cons, elem_of_nil; tauto).
    assert (priority t = High \/ priority t = Urgent)
      by (revert Hp; rewrite !elem_of_cons, elem_of_nil; tauto).
    tauto.
Qed.

(** ** More on the warranty calculator *)

Lemma days_neg (td : Z) : days td < 0 <-> td < 0.
Proof. rewrite (days_lt td 0). lia. Qed.

Lemma days_mono (a b : Z) : a <= b -> days a <= days b.
Proof. intros H. unfold days, day_us. apply Z.div_le_mono; lia. Qed.

(** X22: the coverage of a product only runs out.  Both properties
    read the clock twice ([now] for the test of the expiry, [now'] for
    the days).  For a product that is not deleted and two calls, the
    readings of the second not before those of the first: if the status
    is 'expired' in the first call it is 'expired' in the second; if it
    is 'active' in the second it was 'active' in the first; the days
    remaining are negative exactly when the expiry falls between the
    two readings of a call (from the first reading on, before the
    second), and otherwise they do not grow from the first call to the
    second; and the status is 'active' exactly when at least 30 days
    remain. *)
Theorem warranty_runs_out (p : Product) (now now' later later' : datetime) :
  product_is_deleted p = false ->
  now <= later -> now' <= later' ->
  (warranty_status p now now' = "expired" ->
   warranty_status p later later' = "expired")
  /\ (warranty_status p later later' = "active" ->
      warranty_status p now now' = "active")
  /\ (days_remaining p now now' < 0
      <-> now <= warranty_expiry p /\ warranty_expiry p < now')
  /\ (0 <= days_remaining p now now' ->
      days_remaining p later later' <= days_remaining p now now')
  /\ (warranty_status p now now' = "active"
      <-> 30 <= days_remaining p now now').
Proof.
  intros Hd Hle Hle'.
  pose proof (days_mono (warranty_expiry p - later') (warranty_expiry p - now')
                ltac:(lia)) as Hmono.
  pose proof (days_neg (warranty_expiry p - now')) as Hneg.
  unfold warranty_status, days_remaining. rewrite Hd. cbv zeta.
  destruct (Z.ltb_spec (warranty_expiry p) now) as [He | He],
           (Z.ltb_spec (warranty_expiry p) later) as [Hl | Hl];
    try lia;
    destruct (Z.ltb_spec (days (warranty_expiry p - now')) 30) as [Hs | Hs],
             (Z.ltb_spec (days (warranty_expiry p - later')) 30) as [Ht | Ht];
    try lia.
  all: repeat split; intros; try discriminate; try reflexivity; try lia.
Qed.

Lemma warranty_runs_out_witness :
  warranty_status Sample.laptop (738400 * day_us) (738400 * day_us + 5)
  = "expired"
  /\ (days_remaining Sample.laptop (738361 * day_us) (738361 * day_us + 5) < 0
      <-> 738361 * day_us <= warranty_expiry Sample.laptop
          /\ warranty_expiry Sample.laptop < 738361 * day_us + 5).
Proof.
  destruct (warranty_runs_out Sample.laptop (738361 * day_us)
              (738361 * day_us + 5) (738400 * day_us)
              (738400 * day_us + 5)) as (Hexp & _ & Hneg & _).
  - reflexivity.
  - unfold day_us. lia.
  - unfold day_us. lia.
  - split; [apply Hexp; reflexivity | exact Hneg].
Defined.

(** The days remaining are negative when the expiry falls between the
    two readings of the clock. *)
Example days_remaining_between_readings :
  days_remaining Sample.laptop (warranty_expiry Sample.laptop)
    (warranty_expiry Sample.laptop + 1) = -1.
Proof. vm_compute. reflexivity. Qed.

(** X23: [Ticket.warranty_status] and [Ticket.can_claim_warranty] are
    read off the product at the time of reading, not off the ticket:
    for a ticket whose product row exists they are the product's status
    at that instant with the deleted flag ignored, and depend on the
    ticket only through its product (so not on the
    [is_warranty_covered] snapshot: a covered ticket reads 'expired'
    once the product's warranty has run out); and a warranty cannot be
    claimed exactly when that status is 'expired'. *)
Theorem ticket_warranty_status_is_live (db : DB) (t : Ticket) (p : Product)
    (now : datetime) :
  products db !! product_id t = Some p ->
  ticket_warranty_status db t now now
  = Some (warranty_status_at (set_product_is_deleted false p) now)
  /\ (forall t', product_id t' = product_id t ->
        ticket_warranty_status db t' now now
        = ticket_warranty_status db t now now)
  /\ (can_claim_warranty db t now = Some false
      <-> ticket_warranty_status db t now now = Some "expired").
Proof.
  intros Hp. split; [| split].
  - unfold ticket_warranty_status, warranty_status_at, warranty_status.
    rewrite Hp. reflexivity.
  - intros t' E. unfold ticket_warranty_status. rewrite E. reflexivity.
  - unfold ticket_warranty_status, can_claim_warranty. rewrite Hp.
    destruct (warranty_expiry p <? now); [tauto |].
    destruct (days _ <? 30); split; discriminate.
Qed.

Lemma ticket_warranty_status_is_live_witness :
  let t := Sample.ticket InProgress High true false None Sample.t0 in
  is_warranty_covered t = true
  /\ ticket_warranty_status (Sample.db_with t) t (738400 * day_us)
       (738400 * day_us) = Some "expired".
Proof.
  intros t. split; [reflexivity |].
  rewrite (proj1 (ticket_warranty_status_is_live (Sample.db_with t) t
                    Sample.laptop (738400 * day_us) eq_refl)).
  reflexivity.
Defined.

(** ** Forms *)

(** X24: the select fields accept exactly their labels: a submitted
    value is accepted as a choice exactly when it is that choice's
    label, for the status, the priority and the repair type (so the
    stored label read back gives the same choice, and any other text,
    such as a label in capitals or the empty string, is refused). *)
Theorem select_fields_accept_labels :
  (forall raw s, select_choice status_label status_choices raw = Some s
                 <-> status_label s = raw)
  /\ (forall raw p, select_choice priority_label priority_choices raw = Some p
                    <-> priority_label p = raw)
  /\ (forall raw r,
        select_choice repair_type_label repair_type_choices raw = Some r
        <-> repair_type_label r = raw).
Proof.
  repeat split; try apply select_choice_label.
  - intros <-. destruct s; reflexivity.
  - intros <-. destruct p; reflexivity.
  - intros <-. destruct r; reflexivity.
Qed.

(** ** Products *)

Lemma validate_select_id_not_in choices id :
  id ∉ choices -> validate_select_id choices (Some id) = None.
Proof.
  intros Hn. unfold validate_select_id.
  rewrite (bool_decide_eq_false_2 _ Hn), andb_false_r. reflexivity.
Qed.

(** X25: deleting a product is a soft delete by its owner (a customer
    account that is active and not deleted).  The row stays in the
    table under its key with [is_deleted] set and every other column as
    it was, the other products and the tickets are not touched;
    another customer is refused.  Afterwards the product is no longer
    offered in the ticket form, so a ticket request that names it is
    not accepted and creates nothing; and its serial number stays
    taken: [add_product] with that serial number never creates a
    product. *)
Theorem delete_product_effect (id : nat) (p : Product) (u : User) (db : DB) :
  products db !! id = Some p ->
  acts_as_customer u ->
  product_user_id p = user_id u ->
  exists db',
    delete_product id (LoggedIn u) db = (Success, db')
    /\ products db' !! id
       = Some {| product_name := product_name p; brand := brand p;
                 category := category p; serial_number := serial_number p;
                 purchase_date := purchase_date p;
                 warranty_months := warranty_months p;
                 warranty_expiry := warranty_expiry p;
                 product_is_deleted := true;
                 product_user_id := product_user_id p |}
    /\ (forall k, k ≠ id -> products db' !! k = products db !! k)
    /\ tickets db' = tickets db
    /\ (forall w, acts_as_customer w -> user_id w ≠ user_id u ->
          delete_product id (LoggedIn w) db = (Forbidden, db))
    /\ (id ∉ product_choices u db')
    /\ (forall form now number,
          product_id_data form = Some id ->
          raise_ticket (POST form) now number (LoggedIn u) db'
          = (Rendered, db'))
    /\ (forall form cu k,
          serial_number_data form = serial_number p ->
          (add_product (POST form) cu db').1 <> Created k).
Proof.
  intros Hid (Ha & Hd & Hr) Ho.
  set (db' := with_products
                (<[id := set_product_is_deleted true p]> (products db)) db).
  assert (Hnew : products db' !! id = Some (set_product_is_deleted true p))
    by (unfold db'; cbn; apply lookup_insert_eq).
  assert (Hgone : id ∉ product_choices u db').
  { intros Hin. apply product_choices_spec in Hin as (q & Hq & _ & Hdel).
    rewrite Hnew in Hq. injection Hq as <-. discriminate. }
  exists db'.
  split.
  { unfold delete_product.
    rewrite (customer_required_pass u) by assumption.
    rewrite Hid.
    rewrite (bool_decide_eq_false_2 (product_user_id p ≠ user_id u)) by tauto.
    reflexivity. }
  split; [exact Hnew |].
  split.
  { intros k Hk. unfold db'. cbn. apply lookup_insert_ne. congruence. }
  split; [reflexivity |].
  split.
  { intros w (Hwa & Hwd & Hwr) Hne. unfold delete_product.
    rewrite (customer_required_pass w) by assumption.
    rewrite Hid, bool_decide_eq_true_2 by congruence. reflexivity. }
  split; [exact Hgone |].
  split.
  { intros form now number Hform. unfold raise_ticket.
    rewrite (customer_required_pass u) by assumption.
    unfold validate_ticket_form.
    rewrite Hform, (validate_select_id_not_in _ _ Hgone). reflexivity. }
  intros form cu k Hser. unfold add_product. open_handler.
  destruct cu as [| w]; cbn [is_authenticated]; [discriminate |].
  destruct (is_active w) eqn:Hlive; cbn [negb orb]; [| discriminate].
  destruct (user_is_deleted w); [discriminate |].
  destruct (is_admin w); [discriminate |].
  destruct (is_technician w); [discriminate |].
  destruct (validate_product_form form) as [[d m] |]; [| discriminate].
  destruct (compute_expiry d m); [| discriminate].
  rewrite bool_decide_eq_true_2; [discriminate |].
  cbn [serial_number]. apply elem_of_rows_fmap.
  exists id, (set_product_is_deleted true p). split.
  - exact Hnew.
  - cbn. symmetry. exact Hser.
Qed.

Lemma delete_product_effect_witness :
  let t := Sample.ticket InProgress High true false None Sample.t0 in
  exists db',
    delete_product 1 (LoggedIn Sample.alice) (Sample.db_with t)
    = (Success, db')
    /\ product_is_deleted <$> products db' !! 1%nat = Some true.
Proof.
  intros t.
  destruct (delete_product_effect 1 Sample.laptop Sample.alice
              (Sample.db_with t) eq_refl
              (conj eq_refl (conj eq_refl eq_refl)) eq_refl)
    as (db' & Hrun & Hrow & _).
  exists db'. split; [exact Hrun |]. rewrite Hrow. reflexivity.
Defined.

(** X26: a ticket is only ever raised by a customer on one of that
    customer's own products that is not deleted: a ticket that
    [raise_ticket] creates belongs to the caller, names such a product,
    and starts unassigned, unpaid and without a repair cost.  The
    refusal 'Invalid product selected' is never given to a customer:
    the form validation has already rejected any other product. *)
Theorem raise_ticket_own_product (req : Request TicketForm) (now : datetime)
    (number : string) (cu : CurrentUser) (db db' : DB) (id : nat) :
  raise_ticket req now number cu db = (Created id, db') ->
  (exists u t p,
      cu = LoggedIn u /\ acts_as_customer u
      /\ tickets db' !! id = Some t
      /\ customer_id t = user_id u
      /\ products db !! product_id t = Some p
      /\ product_user_id p = user_id u /\ product_is_deleted p = false
      /\ technician_id t = None /\ repair_cost t = None /\ is_paid t = false)
  /\ (forall u req' now' number',
        user_is_deleted u = false -> role u = Customer ->
        (raise_ticket req' now' number' (LoggedIn u) db).1 <> Forbidden).
Proof.
  intros Hrun. split.
  - revert Hrun. unfold raise_ticket, login_required, customer_required.
    destruct cu as [| u]; cbn [is_authenticated]; [discriminate |].
    rewrite is_admin_role, is_technician_role.
    destruct (is_active u) eqn:Hlive; cbn [negb orb]; [| discriminate].
    destruct (user_is_deleted u) eqn:Hd; [discriminate |].
    destruct (role u) eqn:Hr; [| discriminate ..].
    destruct req as [| form]; [discriminate |].
    destruct (validate_ticket_form _ form) as [[[[pid desc] prio] rt] |] eqn:Hv;
      [| discriminate].
    apply validate_ticket_form_Some in Hv as (Hin & _).
    apply product_choices_spec in Hin as (p & Hp & Ho & Hdel).
    rewrite Hp.
    case_bool_decide; [discriminate |].
    destruct (_ && bool_decide (rt = Warranty)); [discriminate |].
    case_bool_decide; [discriminate |].
    intros [= <- <-]. exists u. eexists. exists p.
    split; [reflexivity |]. split; [repeat split; assumption |].
    split; [cbn; apply lookup_insert_eq |].
    cbn. repeat split; assumption.
  - intros u req' now' number' Hd Hr.
    unfold raise_ticket.
    destruct (is_active u) eqn:Ha;
      [| unfold login_required; cbn [is_authenticated]; rewrite Ha;
         discriminate].
    rewrite (customer_required_pass u) by assumption.
    destruct req' as [| form]; [discriminate |].
    destruct (validate_ticket_form _ form) as [[[[pid desc] prio] rt] |] eqn:Hv;
      [| discriminate].
    apply validate_ticket_form_Some in Hv as (Hin & _).
    apply product_choices_spec in Hin as (p & Hp & Ho & Hdel).
    rewrite Hp.
    rewrite (bool_decide_eq_false_2 (product_user_id p ≠ user_id u)) by tauto.
    destruct (_ && bool_decide (rt = Warranty)); [discriminate |].
    case_bool_decide; discriminate.
Qed.

Lemma raise_ticket_own_product_witness :
  let db := Sample.db_with
              (Sample.ticket Open Medium true false None Sample.t0) in
  let r := raise_ticket (POST Sample.ticket_form) Sample.t0
             "TKT-20211202-FFFFFF" (LoggedIn Sample.alice) db in
  r.1 = Created 2
  /\ exists t, tickets r.2 !! 2%nat = Some t /\ customer_id t = 1%nat.
Proof.
  intros db r.
  assert (E : r = (Created 2, r.2)) by (vm_compute; reflexivity).
  split; [rewrite E; reflexivity |].
  destruct (proj1 (raise_ticket_own_product (POST Sample.ticket_form)
                     Sample.t0 "TKT-20211202-FFFFFF" (LoggedIn Sample.alice)
                     db r.2 2 E))
    as (u & t & p & Hu & _ & Ht & Hc & _).
  injection Hu as <-.
  exists t. split; [exact Ht | exact Hc].
Defined.

(** The test of [edit_product] for a serial number held by another
    product. *)
Lemma edit_product_taken (id : nat) (p : Product) (new : string) (db : DB) :
  products db !! id = Some p ->
  bool_decide (serial_number p ≠ new)
  && match List.find (fun r : nat * Product =>
                        String.eqb (serial_number r.2) new)
                     (rows (products db)) with
     | Some existing => bool_decide (existing.1 ≠ id)
     | None => false
     end = true
  <-> serial_number p ≠ new
      /\ exists k q, k ≠ id /\ products db !! k = Some q
                     /\ serial_number q = new.
Proof.
  intros Hid. rewrite andb_true_iff, bool_decide_eq_true. split.
  - intros [Hne Hfind]. split; [exact Hne |].
    destruct (List.find _ _) as [[k q] |] eqn:E; [| discriminate].
    apply bool_decide_eq_true in Hfind. cbn in Hfind.
    apply List.find_some in E as [Hin Heq].
    apply list_elem_of_In, elem_of_rows in Hin.
    apply String.eqb_eq in Heq. eauto.
  - intros [Hne (k & q & Hk & Hq & Hs)]. split; [exact Hne |].
    destruct (find_is_Some
                (fun r : nat * Product => String.eqb (serial_number r.2) new)
                (rows (products db)) (k, q)) as [[k' q'] E].
    + apply elem_of_rows. exact Hq.
    + apply String.eqb_eq. exact Hs.
    + rewrite E. apply bool_decide_eq_true. cbn.
      apply List.find_some in E as [Hin Heq].
      apply list_elem_of_In, elem_of_rows in Hin.
      apply String.eqb_eq in Heq. cbn in Heq.
      intros ->. rewrite Hid in Hin. injection Hin as <-. contradiction.
Qed.

(** X27: [edit_product] by the owner (a customer account that is
    active and not deleted) with a valid form.  It is refused with
    'Another product with that serial number already exists' exactly
    when the serial number was changed to one that another product
    (deleted or not) holds.  Otherwise the row under the product's key
    holds the form's fields and the expiry recomputed as purchase date
    plus 30 x months days; its owner and its deleted flag are kept (a
    deleted product can still be edited), and the other products and
    the tickets are not touched. *)
Theorem edit_product_effect (id : nat) (p : Product) (u : User)
    (form : ProductForm) (d : datetime) (m : Z) (db : DB) :
  products db !! id = Some p ->
  acts_as_customer u ->
  product_user_id p = user_id u ->
  validate_product_form form = Some (d, m) ->
  let held_by_another :=
    serial_number p ≠ serial_number_data form
    /\ exists k q, k ≠ id /\ products db !! k = Some q
                   /\ serial_number q = serial_number_data form in
  (held_by_another ->
   edit_product id (POST form) (LoggedIn u) db = (AlreadyExists, db))
  /\ (~ held_by_another ->
      forall expiry, compute_expiry d m = Some expiry ->
      exists db',
        edit_product id (POST form) (LoggedIn u) db = (Success, db')
        /\ products db' !! id
           = Some {| product_name := product_name_data form;
                     brand := brand_data form;
                     category := category_data form;
                     serial_number := serial_number_data form;
                     purchase_date := d;
                     warranty_months := m;
                     warranty_expiry := d + timedelta_days (30 * m);
                     product_is_deleted := product_is_deleted p;
                     product_user_id := product_user_id p |}
        /\ (forall k, k ≠ id -> products db' !! k = products db !! k)
        /\ tickets db' = tickets db).
Proof.
  intros Hid (Ha & Hd & Hr) Ho Hv held.
  pose proof (edit_product_taken id p (serial_number_data form) db Hid)
    as Htaken.
  unfold edit_product.
  rewrite (customer_required_pass u) by assumption.
  rewrite Hid, Hv.
  rewrite (bool_decide_eq_false_2 (product_user_id p ≠ user_id u)) by tauto.
  split.
  - intros Hheld. apply Htaken in Hheld. rewrite Hheld. reflexivity.
  - intros Hfree expiry He.
    destruct (_ && _) eqn:Hb.
    { exfalso. apply Hfree. apply Htaken. reflexivity. }
    rewrite He. apply datetime_add_Some in He. subst expiry.
    eexists. split; [reflexivity |].
    split; [cbn; apply lookup_insert_eq |].
    split; [| reflexivity].
    intros k Hk. cbn. apply lookup_insert_ne. congruence.
Qed.

Lemma edit_product_effect_witness :
  let t := Sample.ticket InProgress High true false None Sample.t0 in
  exists db',
    edit_product 1 (POST Fixtures.phone_form) (LoggedIn Sample.alice)
      (Sample.db_with t)
    = (Success, db')
    /\ warranty_expiry <$> products db' !! 1%nat
       = Some (738050 * day_us + timedelta_days (30 * 24)).
Proof.
  intros t.
  destruct (proj2 (edit_product_effect 1 Sample.laptop Sample.alice
                     Fixtures.phone_form (738050 * day_us) 24
                     (Sample.db_with t) eq_refl
                     (conj eq_refl (conj eq_refl eq_refl))
                     eq_refl eq_refl))
    with (expiry := 738770 * day_us)
    as (db' & Hrun & Hrow & _).
  - intros [_ (k & q & Hk & Hq & _)]. cbn in Hq.
    apply lookup_singleton_Some in Hq as [<- _]. contradiction.
  - reflexivity.
  - exists db'. split; [exact Hrun |]. rewrite Hrow. reflexivity.
Defined.

(** ** Ticket details and the category distribution *)

Global Instance newest_note_first_total : Total newest_note_first.
Proof. intros n1 n2. unfold newest_note_first. lia. Qed.

Global Instance newest_note_first_trans : Transitive newest_note_first.
Proof. intros n1 n2 n3. unfold newest_note_first. lia. Qed.

Lemma ticket_notes_spec (id : nat) (db : DB) :
  (forall n, n ∈ ticket_notes id db
             <-> n ∈ repair_notes db /\ note_ticket_id n = id)
  /\ StronglySorted newest_note_first (ticket_notes id db).
Proof.
  unfold ticket_notes. split.
  - intros n. rewrite merge_sort_Permutation, list_elem_of_filter. tauto.
  - apply StronglySorted_merge_sort; apply _.
Qed.

Lemma ticket_feedback_spec (id : nat) (db : DB) (f : Feedback) :
  ticket_feedback id db = Some f ->
  f ∈ feedback db /\ feedback_ticket_id f = id.
Proof.
  unfold ticket_feedback. intros H.
  apply List.find_some in H as [Hin Heq].
  apply list_elem_of_In in Hin. apply Nat.eqb_eq in Heq. tauto.
Qed.

Lemma decorated_customer {A} (view : User -> DB -> Outcome + A) cu db :
  (exists u, cu = LoggedIn u /\ acts_as_customer u
             /\ decorated customer_required view cu db = view u db)
  \/ (is_authenticated cu = false
      /\ decorated customer_required view cu db = inl LoginRequired)
  \/ ((exists u, cu = LoggedIn u /\ is_active u = true
                 /\ (user_is_deleted u = true \/ role u ≠ Customer))
      /\ decorated customer_required view cu db = inl Forbidden).
Proof.
  unfold decorated, login_required, customer_required, acts_as_customer.
  destruct cu as [| u]; cbn [is_authenticated];
    [right; left; split; reflexivity |].
  rewrite is_admin_role, is_technician_role.
  destruct (is_active u) eqn:Ha; cbn [negb orb fst];
    [| right; left; split; reflexivity].
  destruct (user_is_deleted u) eqn:Hd; cbn [fst];
    [right; right; split; [exists u; auto | reflexivity] |].
  destruct (role u) eqn:Hr; cbn [fst].
  - left. exists u. auto.
  - right; right; split; [exists u | reflexivity].
    repeat split; try assumption. right. congruence.
  - right; right; split; [exists u | reflexivity].
    repeat split; try assumption. right. congruence.
Qed.

Lemma decorated_technician {A} (view : User -> DB -> Outcome + A) cu db :
  (exists u, cu = LoggedIn u /\ is_active u = true
             /\ user_is_deleted u = false
             /\ (role u = Technician \/ role u = Admin)
             /\ decorated technician_required view cu db = view u db)
  \/ (is_authenticated cu = false
      /\ decorated technician_required view cu db = inl LoginRequired)
  \/ ((exists u, cu = LoggedIn u /\ is_active u = true
                 /\ (user_is_deleted u = true \/ role u = Customer))
      /\ decorated technician_required view cu db = inl Forbidden).
Proof.
  unfold decorated, login_required, technician_required.
  destruct cu as [| u]; cbn [is_authenticated];
    [right; left; split; reflexivity |].
  rewrite is_admin_role, is_technician_role.
  destruct (is_active u) eqn:Ha; cbn [negb orb fst];
    [| right; left; split; reflexivity].
  destruct (user_is_deleted u) eqn:Hd; cbn [fst];
    [right; right; split; [exists u; auto | reflexivity] |].
  destruct (role u) eqn:Hr; cbn [negb andb fst].
  - right; right; split; [exists u; auto | reflexivity].
  - left. exists u. auto 6.
  - left. exists u. auto 6.
Qed.

(** X28: who sees a ticket.  Both detail pages send a caller who is
    not logged in, or whose account was deactivated, to the login page.
    The customer's page shows a ticket exactly to its owner (a customer
    account that is active and not deleted); such a customer gets 404
    for a missing ticket and 'Access denied' for a ticket of another
    customer.  The technician's page shows a ticket exactly to its
    assigned technician and to admins (accounts that are active and not
    deleted).  What the customer's page shows is the stored ticket,
    exactly the repair notes written on it, newest first, and a
    feedback row of that ticket if one is shown. *)
Theorem ticket_detail_access (id : nat) (cu : CurrentUser) (db : DB) :
  (is_authenticated cu = false ->
   customer_ticket_detail id cu db = inl LoginRequired
   /\ technician_ticket_detail id cu db = inl LoginRequired)
  /\ (forall d, customer_ticket_detail id cu db = inr d
        <-> exists u t,
              cu = LoggedIn u /\ tickets db !! id = Some t /\ owns_ticket u t
              /\ d = {| detail_ticket := t;
                        detail_repair_notes := ticket_notes id db;
                        detail_feedback := ticket_feedback id db |})
  /\ (forall d, customer_ticket_detail id cu db = inr d ->
        (forall n, n ∈ detail_repair_notes d
                   <-> n ∈ repair_notes db /\ note_ticket_id n = id)
        /\ StronglySorted newest_note_first (detail_repair_notes d)
        /\ (forall f, detail_feedback d = Some f ->
                      f ∈ feedback db /\ feedback_ticket_id f = id))
  /\ (forall u, cu = LoggedIn u -> acts_as_customer u ->
        (tickets db !! id = None ->
         customer_ticket_detail id cu db = inl NotFound)
        /\ (forall t, tickets db !! id = Some t ->
              customer_id t ≠ user_id u ->
              customer_ticket_detail id cu db = inl Forbidden))
  /\ ((exists d, technician_ticket_detail id cu db = inr d)
      <-> exists u t, cu = LoggedIn u /\ tickets db !! id = Some t
                      /\ may_update u t).
Proof.
  assert (Hcust : forall d, customer_ticket_detail id cu db = inr d
            <-> exists u t,
                  cu = LoggedIn u /\ tickets db !! id = Some t
                  /\ owns_ticket u t
                  /\ d = {| detail_ticket := t;
                            detail_repair_notes := ticket_notes id db;
                            detail_feedback := ticket_feedback id db |}).
  { intros d. unfold customer_ticket_detail.
    match goal with
    | |- decorated _ ?v _ _ = _ <-> _ =>
        destruct (decorated_customer v cu db)
          as [(u & -> & (Ha & Hd & Hr) & ->) | [[Hanon ->] | [Hno ->]]]
    end.
    - cbv beta. split.
      + destruct (tickets db !! id) as [t |] eqn:Hid; [| discriminate].
        case_bool_decide as Ho; [discriminate |].
        intros [= <-]. exists u, t. unfold owns_ticket.
        repeat split; assumption.
      + intros (w & t & [= <-] & Hid & (_ & _ & _ & Ho) & ->).
        rewrite Hid.
        rewrite (bool_decide_eq_false_2 (customer_id t ≠ user_id u)) by tauto.
        reflexivity.
    - split; [discriminate |].
      intros (u & t & -> & _ & (Ha & _) & _).
      cbn in Hanon. congruence.
    - split; [discriminate |].
      intros (u & t & -> & _ & (Ha & Hd & Hr & _) & _).
      destruct Hno as (w & [= <-] & _ & [Hdel | Hrole]); congruence. }
  split; [| split; [exact Hcust | split; [| split]]].
  - intros Hanon. unfold customer_ticket_detail, technician_ticket_detail,
      decorated, login_required.
    rewrite Hanon. cbn [fst]. split; reflexivity.
  - intros d Hd. apply Hcust in Hd as (u & t & _ & _ & _ & ->). cbn.
    split; [apply ticket_notes_spec |].
    split; [apply ticket_notes_spec | apply ticket_feedback_spec].
  - intros u -> (Ha & Hd & Hr). unfold customer_ticket_detail, decorated.
    rewrite (customer_required_pass u) by assumption. cbn [fst].
    split.
    + intros ->. reflexivity.
    + intros t -> Hne. rewrite (bool_decide_eq_true_2 _ Hne). reflexivity.
  - unfold technician_ticket_detail.
    match goal with
    | |- (exists d, decorated _ ?v _ _ = _) <-> _ =>
        destruct (decorated_technician v cu db)
          as [(u & -> & Ha & Hd & Hr & ->) | [[Hanon ->] | [Hno ->]]]
    end.
    + cbv beta. rewrite is_admin_role. split.
      * intros [d Hrun].
        destruct (tickets db !! id) as [t |] eqn:Hid; [| discriminate].
        exists u, t. split; [reflexivity |]. split; [reflexivity |].
        split; [exact Ha |]. split; [exact Hd |].
        destruct (decide (technician_id t = Some (user_id u))) as [Ht | Hne].
        -- destruct Hr as [Hr | Hr]; [right; tauto | left; exact Hr].
        -- rewrite (bool_decide_eq_true_2 _ Hne) in Hrun.
           destruct (role u); cbn in Hrun; try discriminate. left. reflexivity.
      * intros (w & t & [= <-] & Hid & (_ & _ & Hmay)). rewrite Hid.
        destruct Hmay as [Hadm | [_ Ht]].
        -- rewrite Hadm, andb_false_r. eexists. reflexivity.
        -- rewrite (bool_decide_eq_false_2
                      (technician_id t ≠ Some (user_id u))) by tauto.
           eexists. reflexivity.
    + split; [intros [d Hrun]; discriminate |].
      intros (u & t & -> & _ & (Ha & _)). cbn in Hanon. congruence.
    + split; [intros [d Hrun]; discriminate |].
      intros (u & t & -> & _ & (Ha & Hd & Hmay)).
      destruct Hno as (w & [= <-] & _ & [Hdel | Hrole]); [congruence |].
      destruct Hmay as [Hadm | [Htech _]]; congruence.
Qed.

Lemma count_by_category_spec (l : list (nat * Product)) (c : string) :
  default 0%nat (count_by_category l !! c)
  = length (filter (fun r : nat * Product => category r.2 = c) l)
  /\ (is_Some (count_by_category l !! c)
      <-> (0 < length (filter (fun r : nat * Product => category r.2 = c)
                              l))%nat).
Proof.
  induction l as [| r l [IH1 IH2]].
  - cbn. rewrite lookup_empty. cbn. split; [reflexivity |].
    split; [intros [x Hx]; discriminate | lia].
  - cbn [count_by_category foldr]. fold (count_by_category l).
    rewrite filter_cons.
    destruct (decide (category r.2 = c)) as [<- | Hne].
    + rewrite lookup_insert_eq. cbn. rewrite IH1.
      split; [reflexivity |]. split; [lia | eauto].
    + rewrite lookup_insert_ne by exact Hne. tauto.
Qed.

(** X29: the category distribution of the warranty report gives, for
    each category, the number of products of that category that are
    not deleted, and has an entry exactly for the categories with at
    least one such product. *)
Theorem report_category_counts (now : datetime) (db : DB) (c : string) :
  let live_in_category :=
    filter (fun r : nat * Product => category r.2 = c)
      (filter (fun r : nat * Product => product_is_deleted r.2 = false)
              (rows (products db))) in
  default 0%nat (report_category_dist (report_warranty now db) !! c)
  = length live_in_category
  /\ (is_Some (report_category_dist (report_warranty now db) !! c)
      <-> (0 < length live_in_category)%nat).
Proof.
  cbv zeta. unfold report_warranty. cbn [report_category_dist].
  apply count_by_category_spec.
Qed.
